(** * Tool-result summary pipeline: a shallow embedding and its properties

    The development follows the TypeScript sources of the tool-result
    summary extension:

    - [JS]         the fragment of JavaScript values and string operations
                   the sources rely on;
    - [Settings]   settings.ts: defaults and [computeEffectiveSettings];
    - [Tools]      tools.ts: glob patterns and [makeToolFilterPredicate];
    - [Summarizer] summarizer.ts: cache, batch queue and [summarize];
    - [Store]      store.ts: [search];
    - [Extension]  runtime.ts and extension.ts: the per-session latch and
                   the context handler.

    Each module holds the definitions, the vocabulary its properties are
    stated in and a few sample inputs; the properties follow in
    [SettingsFacts], [JSFacts], [ToolsFacts], [SummarizerFacts],
    [StoreFacts] and [ExtensionFacts].

    Numbers that the sources floor are integers ([Z]); the remaining ones
    (scores, distances, thresholds) are exact rationals ([Q]).  Strings are
    sequences of 8-bit code units.  Promises are named by numbers, message
    objects by their location in a heap. *)

From Stdlib Require Import ZArith QArith Qround Qminmax Lia Bool List Sorted.
From Stdlib Require Import Ascii String DecimalString.
From stdpp Require Import base option list gmap strings.

Local Open Scope Z_scope.

Set Warnings "-clear-no-such-hyp".

(* ===================================================================== *)
(** * JavaScript fragment *)
(* ===================================================================== *)

Module JS.

(** ** Strings *)

(** [s.length] *)
Definition length (s : string) : Z := Z.of_nat (String.length s).

(** [s.slice(0, e)]: a negative end counts from the end of the string, and
    the resulting bounds are clamped to the string. *)
Definition slice0 (s : string) (e : Z) : string :=
  let len := length s in
  let stop := if e <? 0 then Z.max (len + e) 0 else Z.min e len in
  String.substring 0 (Z.to_nat stop) s.

(** White space and line terminators removed by [trim] (code units below
    256: TAB, LF, VT, FF, CR, SP and NBSP). *)
Definition isWhite (c : ascii) : bool :=
  let n := nat_of_ascii c in
  ((9 <=? n)%nat && (n <=? 13)%nat) || (n =? 32)%nat || (n =? 160)%nat.

Fixpoint dropWhite (l : list ascii) : list ascii :=
  match l with
  | c :: l' => if isWhite c then dropWhite l' else l
  | [] => []
  end.

Definition trimStart (s : string) : string :=
  string_of_list_ascii (dropWhite (list_ascii_of_string s)).

Definition trimEnd (s : string) : string :=
  string_of_list_ascii (rev (dropWhite (rev (list_ascii_of_string s)))).

(** [s.trim()] *)
Definition trim (s : string) : string := trimEnd (trimStart s).

(** [toLowerCase] on one code unit: A-Z, and the Latin-1 capitals
    (U+00C0..U+00DE except the multiplication sign U+00D7). *)
Definition lowerChar (c : ascii) : ascii :=
  let n := nat_of_ascii c in
  if ((65 <=? n)%nat && (n <=? 90)%nat)
     || ((192 <=? n)%nat && (n <=? 222)%nat && negb (n =? 215)%nat)
  then ascii_of_nat (n + 32) else c.

(** [trim] on the list of code units. *)
Definition trimList (l : list ascii) : list ascii :=
  rev (dropWhite (rev (dropWhite l))).

(** [s.toLowerCase()] *)
Definition toLowerCase (s : string) : string :=
  string_of_list_ascii (map lowerChar (list_ascii_of_string s)).

(** [parts.join(sep)] *)
Definition join (sep : string) (parts : list string) : string :=
  String.concat sep parts.

(** ** Values *)

(** A JavaScript number: a finite value, NaN or an infinity. *)
Inductive Number :=
| Finite (q : Q)
| NaN
| PosInf
| NegInf.

(** Plain data as a configuration file or a tool input carries it. *)
#[warnings="-register-all"]
Inductive Value :=
| Undefined
| Null
| Bool (b : bool)
| Num (n : Number)
| Str (s : string)
| Arr (items : list Value)
| Obj (fields : list (string * Value)).

Fixpoint assoc (k : string) (fields : list (string * Value)) : Value :=
  match fields with
  | [] => Undefined
  | (k', v) :: rest => if String.eqb k k' then v else assoc k rest
  end.

(** [v.k] for the property names the sources read: only plain objects carry
    them, every other non-nullish value answers [undefined]. *)
Definition prop (v : Value) (k : string) : Value :=
  match v with
  | Obj fields => assoc k fields
  | _ => Undefined
  end.

(** ToBoolean *)
Definition truthy (v : Value) : bool :=
  match v with
  | Undefined | Null => false
  | Bool b => b
  | Num (Finite q) => negb (Qeq_bool q 0)
  | Num NaN => false
  | Num _ => true
  | Str s => negb (String.eqb s "")
  | Arr _ | Obj _ => true
  end.

(** [typeof v === "object"] *)
Definition typeofObject (v : Value) : bool :=
  match v with
  | Null | Arr _ | Obj _ => true
  | _ => false
  end.

(** [typeof v === "number" && Number.isFinite(v)] *)
Definition finiteNumber (v : Value) : option Q :=
  match v with
  | Num (Finite q) => Some q
  | _ => None
  end.

(** [typeof v === "boolean"] *)
Definition boolean (v : Value) : option bool :=
  match v with
  | Bool b => Some b
  | _ => None
  end.

(** [typeof v === "string"] *)
Definition str (v : Value) : option string :=
  match v with
  | Str s => Some s
  | _ => None
  end.

(** [Array.isArray(v)] *)
Definition array (v : Value) : option (list Value) :=
  match v with
  | Arr items => Some items
  | _ => None
  end.

(** [v === "lit"] *)
Definition isStr (v : Value) (lit : string) : bool :=
  match v with
  | Str s => String.eqb s lit
  | _ => false
  end.

(** [typeof p === "string" && p.trim()] as a filter on a raw array *)
Definition nonBlankStrings (items : list Value) : list string :=
  omap (fun v => match v with
                 | Str s => if String.eqb (trim s) "" then None else Some s
                 | _ => None
                 end) items.

(** ** Insertion-ordered maps ([Map<string, V>])

    Iteration follows insertion order; [set] on a key that is present
    replaces the value in place. *)

Fixpoint mapGet {V} (k : string) (m : list (string * V)) : option V :=
  match m with
  | [] => None
  | (k', v) :: m' => if String.eqb k k' then Some v else mapGet k m'
  end.

Fixpoint mapDelete {V} (k : string) (m : list (string * V))
  : list (string * V) :=
  match m with
  | [] => []
  | (k', v) :: m' => if String.eqb k k' then m' else (k', v) :: mapDelete k m'
  end.

Fixpoint mapSet {V} (k : string) (v : V) (m : list (string * V))
  : list (string * V) :=
  match m with
  | [] => [(k, v)]
  | (k', v') :: m' =>
      if String.eqb k k' then (k, v) :: m' else (k', v') :: mapSet k v m'
  end.

(** [a.slice(0, e)] on arrays *)
Definition arraySlice0 {A} (a : list A) (e : Z) : list A :=
  let len := Z.of_nat (List.length a) in
  let stop := if e <? 0 then Z.max (len + e) 0 else Z.min e len in
  firstn (Z.to_nat stop) a.

(** [m.size] *)
Definition mapSize {V} (m : list (string * V)) : Z := Z.of_nat (List.length m).

(** ** Content blocks ([TextContent | ImageContent]) *)

Inductive ContentBlock :=
| TextContent (text : string)
| ImageContent (data : string) (mimeType : string).

(** Decimal rendering of an integer, as a template literal prints it. *)
Definition showZ (z : Z) : string := NilZero.string_of_int (Z.to_int z).

Definition nl : string := String (ascii_of_nat 10) EmptyString.

End JS.

(* ===================================================================== *)
(** * settings.ts *)
(* ===================================================================== *)

Module Settings.

Record SummaryCacheConfig := {
  cache_enabled : bool;
  cache_maxEntries : Z;
  cache_ttlMs : Z
}.

Record SummaryBatchConfig := {
  batch_enabled : bool;
  batch_maxDelayMs : Z;
  batch_maxSize : Z;
  batch_minSize : Z
}.

(** [cache] and [batch] are optional in the declared type; the sources
    dereference them with a non-null assertion, and every configuration
    built from [DEFAULT_SUMMARY_CONFIG] carries both, so the record holds
    them directly. *)
Record SummaryConfig := {
  maxChars : Z;
  modelName : option string;
  timeoutMs : Z;
  minContentForSummarization : Z;
  cache : SummaryCacheConfig;
  batch : SummaryBatchConfig
}.

Record StorageConfig := {
  dbPath : string;
  storage_maxResults : Z;
  ttlDays : Z;
  embeddingBatchSize : Z;
  storage_maxContentChars : Z
}.

Record RetrievalConfig := {
  maxResults : Z;
  minScore : Q;
  injectFullContent : bool;
  maxFullContentChars : Z;
  crossSessionSearch : bool
}.

Record ToolsFilterConfig := {
  include : option (list string);
  exclude : option (list string);
  minContentChars : Z;
  maxContentChars : Z
}.

Record ToolResultSummaryConfig := {
  enabled : bool;
  mode : JS.Value;
  summary : SummaryConfig;
  storage : StorageConfig;
  retrieval : RetrievalConfig;
  tools : ToolsFilterConfig
}.

Definition DEFAULT_SUMMARY_CONFIG : SummaryConfig := {|
  maxChars := 200;
  modelName := None;
  timeoutMs := 10000;
  minContentForSummarization := 500;
  cache := {| cache_enabled := true;
              cache_maxEntries := 1000;
              cache_ttlMs := 7 * 24 * 60 * 60 * 1000 |};
  batch := {| batch_enabled := true;
              batch_maxDelayMs := 2000;
              batch_maxSize := 10;
              batch_minSize := 1 |}
|}.

Definition DEFAULT_STORAGE_CONFIG : StorageConfig := {|
  dbPath := "tool-results";
  storage_maxResults := 10000;
  ttlDays := 30;
  embeddingBatchSize := 100;
  storage_maxContentChars := 50000
|}.

Definition DEFAULT_RETRIEVAL_CONFIG : RetrievalConfig := {|
  maxResults := 5;
  minScore := 5 # 10;
  injectFullContent := false;
  maxFullContentChars := 2000;
  crossSessionSearch := false
|}.

Definition DEFAULT_TOOLS_FILTER_CONFIG : ToolsFilterConfig := {|
  include := None;
  exclude := Some ["tts_*"; "notify_*"; "memory_*"];
  minContentChars := 200;
  maxContentChars := 50000
|}.

Definition DEFAULT_TOOL_RESULT_SUMMARY_CONFIG : ToolResultSummaryConfig := {|
  enabled := false;
  mode := JS.Str "full";
  summary := DEFAULT_SUMMARY_CONFIG;
  storage := DEFAULT_STORAGE_CONFIG;
  retrieval := DEFAULT_RETRIEVAL_CONFIG;
  tools := DEFAULT_TOOLS_FILTER_CONFIG
|}.

(** [if (typeof o.k === "number" && Number.isFinite(o.k)) r = f(o.k)] *)
Definition numberOr {A} (v : JS.Value) (f : Q -> A) (dflt : A) : A :=
  match JS.finiteNumber v with
  | Some q => f q
  | None => dflt
  end.

Definition booleanOr (v : JS.Value) (dflt : bool) : bool :=
  match JS.boolean v with
  | Some b => b
  | None => dflt
  end.

(** [if (typeof o.k === "string" && o.k.trim()) r = o.k.trim()] *)
Definition trimmedOr {A} (v : JS.Value) (f : string -> A) (dflt : A) : A :=
  match JS.str v with
  | Some s => if String.eqb (JS.trim s) "" then dflt else f (JS.trim s)
  | None => dflt
  end.

Definition mergeSummaryCacheConfig
    (base : SummaryCacheConfig) (override : JS.Value) : SummaryCacheConfig := {|
  cache_enabled := booleanOr (JS.prop override "enabled") (cache_enabled base);
  cache_maxEntries :=
    numberOr (JS.prop override "maxEntries")
             (fun x => Z.max 10 (Qfloor x)) (cache_maxEntries base);
  cache_ttlMs :=
    numberOr (JS.prop override "ttlMs")
             (fun x => Z.max 0 (Qfloor x)) (cache_ttlMs base)
|}.

Definition mergeSummaryBatchConfig
    (base : SummaryBatchConfig) (override : JS.Value) : SummaryBatchConfig := {|
  batch_enabled := booleanOr (JS.prop override "enabled") (batch_enabled base);
  batch_maxDelayMs :=
    numberOr (JS.prop override "maxDelayMs")
             (fun x => Z.max 100 (Qfloor x)) (batch_maxDelayMs base);
  batch_maxSize :=
    numberOr (JS.prop override "maxSize")
             (fun x => Z.max 1 (Z.min 50 (Qfloor x))) (batch_maxSize base);
  batch_minSize :=
    numberOr (JS.prop override "minSize")
             (fun x => Z.max 1 (Qfloor x)) (batch_minSize base)
|}.

Definition mergeSummaryConfig
    (base : SummaryConfig) (override : JS.Value) : SummaryConfig := {|
  maxChars :=
    numberOr (JS.prop override "maxChars")
             (fun x => Z.max 50 (Qfloor x)) (maxChars base);
  timeoutMs :=
    numberOr (JS.prop override "timeoutMs")
             (fun x => Z.max 1000 (Qfloor x)) (timeoutMs base);
  modelName := trimmedOr (JS.prop override "modelName") Some (modelName base);
  minContentForSummarization :=
    numberOr (JS.prop override "minContentForSummarization")
             (fun x => Z.max 0 (Qfloor x)) (minContentForSummarization base);
  cache :=
    if JS.truthy (JS.prop override "cache")
    then mergeSummaryCacheConfig (cache base) (JS.prop override "cache")
    else cache base;
  batch :=
    if JS.truthy (JS.prop override "batch")
    then mergeSummaryBatchConfig (batch base) (JS.prop override "batch")
    else batch base
|}.

Definition mergeStorageConfig
    (base : StorageConfig) (override : JS.Value) : StorageConfig := {|
  dbPath := trimmedOr (JS.prop override "dbPath") id (dbPath base);
  storage_maxResults :=
    numberOr (JS.prop override "maxResults")
             (fun x => Z.max 100 (Qfloor x)) (storage_maxResults base);
  ttlDays :=
    numberOr (JS.prop override "ttlDays")
             (fun x => Z.max 0 (Qfloor x)) (ttlDays base);
  embeddingBatchSize :=
    numberOr (JS.prop override "embeddingBatchSize")
             (fun x => Z.max 1 (Qfloor x)) (embeddingBatchSize base);
  storage_maxContentChars :=
    numberOr (JS.prop override "maxContentChars")
             (fun x => Z.max 1000 (Qfloor x)) (storage_maxContentChars base)
|}.

Definition mergeRetrievalConfig
    (base : RetrievalConfig) (override : JS.Value) : RetrievalConfig := {|
  maxResults :=
    numberOr (JS.prop override "maxResults")
             (fun x => Z.max 1 (Z.min 20 (Qfloor x))) (maxResults base);
  minScore :=
    numberOr (JS.prop override "minScore")
             (fun x => Qmax 0 (Qmin 1 x)) (minScore base);
  injectFullContent :=
    booleanOr (JS.prop override "injectFullContent") (injectFullContent base);
  maxFullContentChars :=
    numberOr (JS.prop override "maxFullContentChars")
             (fun x => Z.max 100 (Qfloor x)) (maxFullContentChars base);
  crossSessionSearch :=
    booleanOr (JS.prop override "crossSessionSearch") (crossSessionSearch base)
|}.

Definition mergeToolsFilterConfig
    (base : ToolsFilterConfig) (override : JS.Value) : ToolsFilterConfig := {|
  include :=
    match JS.array (JS.prop override "include") with
    | Some items => Some (JS.nonBlankStrings items)
    | None => include base
    end;
  exclude :=
    match JS.array (JS.prop override "exclude") with
    | Some items => Some (JS.nonBlankStrings items)
    | None => exclude base
    end;
  minContentChars :=
    numberOr (JS.prop override "minContentChars")
             (fun x => Z.max 0 (Qfloor x)) (minContentChars base);
  maxContentChars :=
    numberOr (JS.prop override "maxContentChars")
             (fun x => Z.max 1000 (Qfloor x)) (maxContentChars base)
|}.

(** [computeEffectiveSettings(raw)]; [None] is the source's [null]. *)
Definition computeEffectiveSettings (raw : JS.Value)
  : option ToolResultSummaryConfig :=
  if negb (JS.truthy raw) || negb (JS.typeofObject raw) then None
  else
    let cfg := raw in
    if match JS.prop cfg "enabled" with JS.Bool false => true | _ => false end
       || JS.isStr (JS.prop cfg "mode") "off"
    then None
    else
      let result := DEFAULT_TOOL_RESULT_SUMMARY_CONFIG in
      Some {|
        enabled := booleanOr (JS.prop cfg "enabled") (enabled result);
        mode := if JS.truthy (JS.prop cfg "mode")
                then JS.prop cfg "mode" else mode result;
        summary := if JS.truthy (JS.prop cfg "summary")
                   then mergeSummaryConfig (summary result) (JS.prop cfg "summary")
                   else summary result;
        storage := if JS.truthy (JS.prop cfg "storage")
                   then mergeStorageConfig (storage result) (JS.prop cfg "storage")
                   else storage result;
        retrieval := if JS.truthy (JS.prop cfg "retrieval")
                     then mergeRetrievalConfig (retrieval result)
                                               (JS.prop cfg "retrieval")
                     else retrieval result;
        tools := if JS.truthy (JS.prop cfg "tools")
                 then mergeToolsFilterConfig (tools result) (JS.prop cfg "tools")
                 else tools result
      |}.

(** ** Vocabulary of the properties *)

(** The bounds every effective configuration obeys. *)
Definition retrievalBounded (r : RetrievalConfig) : Prop :=
  (0 <= minScore r)%Q /\ (minScore r <= 1)%Q
  /\ 1 <= maxResults r <= 20.

Definition summaryBounded (s : SummaryConfig) : Prop :=
  50 <= maxChars s
  /\ 1 <= batch_maxSize (batch s) <= 50
  /\ 0 <= cache_ttlMs (cache s).




(** ** Sample inputs *)

(** A configuration that overrides every bounded setting with a value
    outside its range. *)
Definition outOfRangeOverrides : JS.Value :=
  JS.Obj [
    ("enabled", JS.Bool true);
    ("retrieval", JS.Obj [("minScore", JS.Num (JS.Finite 7));
                          ("maxResults", JS.Num (JS.Finite 100))]);
    ("summary", JS.Obj [("maxChars", JS.Num (JS.Finite (-3)));
                        ("batch", JS.Obj [("maxSize", JS.Num (JS.Finite 0))]);
                        ("cache", JS.Obj [("ttlMs", JS.Num (JS.Finite (-1)))])])
  ].

(** A configuration that sets every floored setting below its floor and
    lists blank patterns. *)
Definition belowFloorOverrides : JS.Value :=
  JS.Obj [
    ("enabled", JS.Bool true);
    ("summary", JS.Obj [("timeoutMs", JS.Num (JS.Finite 1));
                        ("minContentForSummarization", JS.Num (JS.Finite (-5)));
                        ("cache", JS.Obj [("maxEntries", JS.Num (JS.Finite 0))]);
                        ("batch", JS.Obj [("maxDelayMs", JS.Num (JS.Finite 0));
                                          ("minSize", JS.Num (JS.Finite 0))])]);
    ("storage", JS.Obj [("maxResults", JS.Num (JS.Finite 1));
                        ("ttlDays", JS.Num (JS.Finite (-1)));
                        ("embeddingBatchSize", JS.Num (JS.Finite 0));
                        ("maxContentChars", JS.Num (JS.Finite 10))]);
    ("retrieval", JS.Obj [("maxFullContentChars", JS.Num (JS.Finite 1))]);
    ("tools", JS.Obj [("include", JS.Arr [JS.Str " Read "; JS.Str "  ";
                                          JS.Num (JS.Finite 3)]);
                      ("minContentChars", JS.Num (JS.Finite (-1)));
                      ("maxContentChars", JS.Num (JS.Finite 10))])
  ].

End Settings.

(* ===================================================================== *)
(** * tools.ts *)
(* ===================================================================== *)

(** The tool filter, as tool-result-vector/tools.ts has it. *)

Module Tools.

Import Settings.

(** The regular expressions this module builds: anchored sequences of
    literal code units and [.*]. *)
Inductive RegexItem :=
| Lit (c : ascii)
| AnyStar.

Inductive CompiledPattern :=
| PAll
| PExact (value : string)
| PRegex (value : list RegexItem).

Definition normalizePatterns (patterns : option (list string)) : list string :=
  match patterns with
  | None => []
  | Some ps =>
      List.filter (fun p => negb (String.eqb p ""))
                  (map (fun p => JS.toLowerCase (JS.trim p)) ps)
  end.

Definition star : ascii := "*"%char.
Definition dot : ascii := "."%char.
Definition backslash : ascii := "\"%char.

(** The class [[.*+?^${}()|[\]\\]] of the escaping [replace]. *)
Definition isRegexSpecial (c : ascii) : bool :=
  existsb (Ascii.eqb c) (list_ascii_of_string ".*+?^${}()|[]\").

(** [pattern.replace(/[.*+?^${}()|[\]\\]/g, "\\$&")]: a backslash before
    every special character. *)
Definition escapeRegExp (pattern : list ascii) : list ascii :=
  flat_map (fun c => if isRegexSpecial c then [backslash; c] else [c]) pattern.

(** [escaped.replaceAll("\\*", ".*")]: every backslash-star pair, found from
    left to right, becomes dot-star. *)
Fixpoint replaceStars (escaped : list ascii) : list ascii :=
  match escaped with
  | [] => []
  | c :: rest =>
      match rest with
      | d :: rest' =>
          if Ascii.eqb c backslash && Ascii.eqb d star
          then dot :: star :: replaceStars rest'
          else c :: replaceStars rest
      | [] => [c]
      end
  end.

(** [new RegExp("^" + source + "$")] for the sources built here: a
    backslash makes the next character a literal, dot-star is [.*], any
    other character stands for itself. *)
Fixpoint parseRegex (source : list ascii) : list RegexItem :=
  match source with
  | [] => []
  | c :: rest =>
      match rest with
      | d :: rest' =>
          if Ascii.eqb c backslash then Lit d :: parseRegex rest'
          else if Ascii.eqb c dot && Ascii.eqb d star
          then AnyStar :: parseRegex rest'
          else Lit c :: parseRegex rest
      | [] => [Lit c]
      end
  end.

(** [pattern.includes("*")] *)
Definition includesStar (pattern : string) : bool :=
  existsb (fun c => Ascii.eqb c star) (list_ascii_of_string pattern).

Definition compilePattern (pattern : string) : CompiledPattern :=
  if String.eqb pattern "*" then PAll
  else if negb (includesStar pattern) then PExact pattern
  else
    let escaped := escapeRegExp (list_ascii_of_string pattern) in
    PRegex (parseRegex (replaceStars escaped)).

Definition compilePatterns (patterns : option (list string))
  : list CompiledPattern :=
  map compilePattern (normalizePatterns patterns).

(** The dot of a regular expression without the [s] flag skips line
    terminators (LF and CR among the code units below 256). *)
Definition isLineTerminator (c : ascii) : bool :=
  (nat_of_ascii c =? 10)%nat || (nat_of_ascii c =? 13)%nat.

(** [re.test(s)] for an anchored expression of literals and [.*]. *)
Fixpoint regexTest (re : list RegexItem) (s : list ascii) : bool :=
  match re with
  | [] => match s with [] => true | _ => false end
  | Lit c :: re' =>
      match s with
      | c' :: s' => Ascii.eqb c c' && regexTest re' s'
      | [] => false
      end
  | AnyStar :: re' =>
      (fix dotStar (s : list ascii) : bool :=
         regexTest re' s
         || match s with
            | c :: s' => negb (isLineTerminator c) && dotStar s'
            | [] => false
            end) s
  end.

Definition patternTest (p : CompiledPattern) (normalized : string) : bool :=
  match p with
  | PAll => true
  | PExact value => String.eqb normalized value
  | PRegex re => regexTest re (list_ascii_of_string normalized)
  end.

Definition matchesAny (toolName : string) (patterns : list CompiledPattern)
  : bool :=
  let normalized := JS.toLowerCase (JS.trim toolName) in
  existsb (fun p => patternTest p normalized) patterns.

Definition makeToolFilterPredicate (config : ToolsFilterConfig)
  : string -> bool :=
  let denyPatterns := compilePatterns (exclude config) in
  let allowPatterns := compilePatterns (include config) in
  fun toolName =>
    let normalized := JS.toLowerCase (JS.trim toolName) in
    if matchesAny normalized denyPatterns then false
    else if (List.length allowPatterns =? 0)%nat then true
    else matchesAny normalized allowPatterns.

Definition estimateContentLength (content : list JS.ContentBlock) : Z :=
  fold_left (fun length block =>
               match block with
               | JS.TextContent text => length + JS.length text
               | JS.ImageContent _ _ => length + 1000
               end) content 0.

(** The loop of [truncateContent] with the budget that remains; image
    blocks are skipped. *)
Fixpoint truncateLoop (content : list JS.ContentBlock) (remaining : Z)
  : list JS.ContentBlock :=
  match content with
  | [] => []
  | block :: rest =>
      if remaining <=? 0 then []
      else
        match block with
        | JS.TextContent text =>
            if JS.length text <=? remaining
            then block :: truncateLoop rest (remaining - JS.length text)
            else JS.TextContent (JS.slice0 text remaining +:+ "...")
                 :: truncateLoop rest 0
        | JS.ImageContent _ _ => truncateLoop rest remaining
        end
  end.

(** [truncateContent(content, maxChars)], for the whole numbers of
    characters the settings hold. *)
Definition truncateContent (content : list JS.ContentBlock) (maxChars : Z)
  : list JS.ContentBlock :=
  truncateLoop content maxChars.

(** ** Matching, declaratively *)

(** A glob read character by character: the star is the wildcard, every
    other character stands for itself. *)
Definition globToRegex (pattern : string) : list RegexItem :=
  map (fun c => if Ascii.eqb c star then AnyStar else Lit c)
      (list_ascii_of_string pattern).

(** A glob against a name: a literal consumes itself, a star consumes any
    run of code units that holds no line terminator. *)
Inductive GlobMatch : list RegexItem -> list ascii -> Prop :=
| GlobNil : GlobMatch [] []
| GlobLit c re s : GlobMatch re s -> GlobMatch (Lit c :: re) (c :: s)
| GlobStar re w s :
    Forall (fun c => isLineTerminator c = false) w ->
    GlobMatch re s -> GlobMatch (AnyStar :: re) (w ++ s).

(** [s.trim().toLowerCase()] *)
Definition normalizeName (s : string) : string := JS.toLowerCase (JS.trim s).

(** The trimmed, lowercased tool name matches a configured pattern: the
    pattern is not blank and, once trimmed and lowercased, it is the lone
    star, or it has no star and equals the name, or it is a glob that the
    name satisfies. *)
Definition matchesPattern (toolName pattern : string) : Prop :=
  let n := normalizeName toolName in
  let p := normalizeName pattern in
  p <> ""
  /\ (p = "*"
      \/ (includesStar p = false /\ n = p)
      \/ (includesStar p = true
          /\ GlobMatch (globToRegex p) (list_ascii_of_string n))).

(** The tool name matches some pattern of an optional pattern list. *)
Definition matchesSome (toolName : string) (patterns : option (list string))
  : Prop :=
  exists pattern,
    In pattern (default [] patterns) /\ matchesPattern toolName pattern.

(** ** Content, declaratively *)

Definition isText (block : JS.ContentBlock) : bool :=
  match block with
  | JS.TextContent _ => true
  | JS.ImageContent _ _ => false
  end.

(** The text blocks of a content list, in order. *)
Definition textBlocks (content : list JS.ContentBlock)
  : list JS.ContentBlock :=
  List.filter isText content.

(** The number of characters in the text blocks. *)
Fixpoint textLength (content : list JS.ContentBlock) : Z :=
  match content with
  | [] => 0
  | JS.TextContent text :: rest => JS.length text + textLength rest
  | JS.ImageContent _ _ :: rest => textLength rest
  end.

(** A name without line terminators. *)
Definition singleLine (s : string) : Prop :=
  Forall (fun c => isLineTerminator c = false) (list_ascii_of_string s).

(** ** Sample inputs *)

(** A configuration whose include list admits everything and whose
    exclude list holds the default globs. *)
Definition sampleFilter : ToolsFilterConfig := {|
  include := Some ["*"];
  exclude := Some ["tts_*"; "notify_*"; "memory_*"];
  minContentChars := 200;
  maxContentChars := 50000
|}.

End Tools.

(* ===================================================================== *)
(** * summarizer.ts *)
(* ===================================================================== *)

Module Summarizer.

Import Settings.

Inductive SummarizationResult :=
| Ok (summary : string) (truncated : bool) (cached : option bool)
| Error (error : string).

Record GenerateOptions := {
  opt_maxTokens : Z;
  opt_maxChars : Z;
  opt_timeoutMs : Z
}.

(** The LLM client.  [None] stands for a rejected promise (a thrown error
    or a timeout); [generateBatch] is an optional capability. *)
Record LLMClient := {
  generate : string -> GenerateOptions -> option string;
  generateBatch :
    option (list string -> GenerateOptions -> option (list string))
}.

Record CacheEntry := {
  entry_summary : string;
  entry_createdAt : Z;
  entry_contentHash : string
}.

Record Params := {
  toolName : string;
  input : JS.Value;
  content : list JS.ContentBlock;
  isError : bool
}.

(** A queued request.  [promise] names the promise whose [resolve] callback
    the item holds. *)
Record PendingItem := {
  params : Params;
  contentText : string;
  contentHash : string;
  promise : nat
}.

(** The module-level variables ([summaryCache], [pendingItems],
    [batchTimer]) together with the timeouts the event loop still holds:
    [timers] maps the handle of every scheduled, not yet fired or cleared
    timeout to the configuration and client its callback closes over.
    [nextTimer] and [nextPromise] name the next timeout handle and the next
    promise.

    The program runs on one thread.  A step of the model (a call, a timer
    callback, a flush) runs until the promises it settles are settled: the
    wait for the model lies inside the step, with the clock read once
    before it ([now]) and once after it ([later]). *)
Record State := {
  summaryCache : list (string * CacheEntry);
  pendingItems : list PendingItem;
  batchTimer : option nat;
  timers : gmap nat (SummaryConfig * LLMClient);
  nextTimer : nat;
  nextPromise : nat
}.

Definition initialState : State := {|
  summaryCache := [];
  pendingItems := [];
  batchTimer := None;
  timers := ∅;
  nextTimer := 0;
  nextPromise := 0
|}.

Definition withCache (st : State) (c : list (string * CacheEntry)) : State := {|
  summaryCache := c;
  pendingItems := pendingItems st;
  batchTimer := batchTimer st;
  timers := timers st;
  nextTimer := nextTimer st;
  nextPromise := nextPromise st
|}.

Definition withPending (st : State) (items : list PendingItem) : State := {|
  summaryCache := summaryCache st;
  pendingItems := items;
  batchTimer := batchTimer st;
  timers := timers st;
  nextTimer := nextTimer st;
  nextPromise := nextPromise st
|}.

(** What a call of [summarize] hands back: a promise that is already
    settled with a result, or one that waits in the batch queue. *)
Inductive Outcome :=
| Settled (result : SummarizationResult)
| Queued (promise : nat).

(** [content.filter(text).map(text).join("\n")] *)
Definition extractTextContent (content : list JS.ContentBlock) : string :=
  JS.join JS.nl
    (omap (fun block =>
             match block with
             | JS.TextContent text => Some text
             | JS.ImageContent _ _ => None
             end) content).

Section WithPlatform.

(** [createHash("md5").update(s).digest("hex")] *)
Variable md5hex : string -> string.
(** [JSON.stringify(v, null, 2)]; [None] when it throws or yields no string. *)
Variable stringify : JS.Value -> option string.

Definition safeStringify (obj : JS.Value) (maxLength : Z) : string :=
  match stringify obj with
  | Some str =>
      if JS.length str <=? maxLength then str
      else JS.slice0 str maxLength +:+ "..."
  | None => "[unable to stringify]"
  end.

Definition generateCacheKey
    (toolName : string) (input : JS.Value) (contentHash : string) : string :=
  let inputJson := safeStringify input 500 in
  let hashInput := toolName +:+ ":" +:+ inputJson +:+ ":" +:+ contentHash in
  JS.slice0 (md5hex hashInput) 32.

Definition hashContent (contentText : string) : string :=
  JS.slice0 (md5hex contentText) 16.

(** [checkCache]: the cache afterwards (an expired entry is deleted) and
    the answer, [Some (summary, expired)] or [None] for [null]. *)
Definition checkCache (key : string) (config : SummaryCacheConfig) (now : Z)
    (cache : list (string * CacheEntry))
  : list (string * CacheEntry) * option (string * bool) :=
  if negb (cache_enabled config) then (cache, None)
  else
    match JS.mapGet key cache with
    | None => (cache, None)
    | Some entry =>
        if (0 <? cache_ttlMs config)
           && (cache_ttlMs config <? now - entry_createdAt entry)
        then (JS.mapDelete key cache, Some (entry_summary entry, true))
        else (cache, Some (entry_summary entry, false))
    end.

Definition storeInCache (key contentHash summary : string)
    (config : SummaryCacheConfig) (now : Z)
    (cache : list (string * CacheEntry)) : list (string * CacheEntry) :=
  if negb (cache_enabled config) then cache
  else
    let evicted :=
      if cache_maxEntries config <=? JS.mapSize cache then
        match cache with
        | (oldestKey, _) :: _ =>
            if negb (String.eqb oldestKey "")
            then JS.mapDelete oldestKey cache else cache
        | [] => cache
        end
      else cache in
    JS.mapSet key {| entry_summary := summary;
                     entry_createdAt := now;
                     entry_contentHash := contentHash |} evicted.

Definition buildSummaryPrompt
    (p : Params) (contentText : string) (maxChars : Z) : string :=
  let inputJson := safeStringify (input p) 500 in
  JS.join JS.nl [
    "Summarize the following tool execution result in 1-2 concise sentences.";
    "";
    "## Tool Information";
    "- Name: " +:+ toolName p;
    "- Input: " +:+ inputJson;
    "- Status: " +:+ (if isError p then "ERROR" else "SUCCESS");
    "";
    "## Result (first 2000 chars)";
    "```";
    JS.slice0 contentText 2000;
    "```";
    "";
    "## Instructions";
    "Provide a brief summary (max " +:+ JS.showZ maxChars
      +:+ " characters) that captures:";
    "1. What the tool did";
    "2. Key findings, outcomes, or errors";
    "";
    "Write the summary directly, without any preamble or explanation.";
    "";
    "Summary:"
  ].

Definition generateOptions (config : SummaryConfig) : GenerateOptions := {|
  opt_maxTokens := maxChars config * 2;
  opt_maxChars := maxChars config;
  opt_timeoutMs := timeoutMs config
|}.

(** The fallback summary [contentText.slice(0, maxChars) + "..."]. *)
Definition truncation (config : SummaryConfig) (contentText : string)
  : SummarizationResult :=
  Ok (JS.slice0 contentText (maxChars config) +:+ "...") true None.

(** First loop of [processBatch]: resolve the items found in the cache. *)
Fixpoint resolveCached (config : SummaryConfig) (now : Z)
    (items : list PendingItem) (entries : list (string * CacheEntry))
  : list (string * CacheEntry)
    * list (nat * SummarizationResult) * list PendingItem :=
  match items with
  | [] => (entries, [], [])
  | item :: rest =>
      let cacheKey :=
        generateCacheKey (toolName (params item)) (input (params item))
                         (contentHash item) in
      let '(cache1, cached) := checkCache cacheKey (cache config) now entries in
      let '(cache2, resolved, uncachedItems) :=
        resolveCached config now rest cache1 in
      match cached with
      | Some (summary, false) =>
          (cache2, (promise item, Ok summary true (Some true)) :: resolved,
           uncachedItems)
      | _ => (cache2, resolved, item :: uncachedItems)
      end
  end.

(** Second loop of [processBatch]: one result per uncached item. *)
Fixpoint resolveGenerated (config : SummaryConfig) (later : Z)
    (uncachedItems : list PendingItem) (summaries : list string)
    (entries : list (string * CacheEntry))
  : list (string * CacheEntry) * list (nat * SummarizationResult) :=
  match uncachedItems with
  | [] => (entries, [])
  | item :: rest =>
      let summary :=
        match summaries with
        | s :: _ => JS.trim s
        | [] => ""
        end in
      let '(cache1, result) :=
        if String.eqb summary "" then
          (entries, truncation config (contentText item))
        else
          let finalSummary := JS.slice0 summary (maxChars config) in
          let cacheKey :=
            generateCacheKey (toolName (params item)) (input (params item))
                             (contentHash item) in
          (storeInCache cacheKey (contentHash item) finalSummary
                        (cache config) later entries,
           Ok finalSummary true (Some false)) in
      let '(cache2, resolved) :=
        resolveGenerated config later rest (tl summaries) cache1 in
      (cache2, (promise item, result) :: resolved)
  end.

(** [processBatch].  The queue is swapped out, cached items are resolved at
    time [now], the model is asked once for the rest, and the answers are
    handled at time [later]. *)
Definition processBatch (config : SummaryConfig) (llmClient : LLMClient)
    (now later : Z) (st : State)
  : State * list (nat * SummarizationResult) :=
  let items := pendingItems st in
  let st := withPending st [] in
  match items with
  | [] => (st, [])
  | _ =>
      let '(cache1, hits, uncachedItems) :=
        resolveCached config now items (summaryCache st) in
      let st1 := withCache st cache1 in
      match uncachedItems with
      | [] => (st1, hits)
      | _ =>
          let prompts :=
            map (fun item =>
                   buildSummaryPrompt (params item) (contentText item)
                                      (maxChars config)) uncachedItems in
          let answer :=
            match generateBatch llmClient with
            | Some batchFn =>
                if (1 <? List.length uncachedItems)%nat
                then batchFn prompts (generateOptions config)
                else mapM (fun prompt =>
                             generate llmClient prompt (generateOptions config))
                          prompts
            | None =>
                mapM (fun prompt =>
                        generate llmClient prompt (generateOptions config))
                     prompts
            end in
          match answer with
          | Some summaries =>
              let '(cache2, resolved) :=
                resolveGenerated config later uncachedItems summaries
                                 (summaryCache st1) in
              (withCache st1 cache2, hits ++ resolved)
          | None =>
              (st1,
               hits ++ map (fun item =>
                              (promise item,
                               truncation config (contentText item)))
                           uncachedItems)
          end
      end
  end.

(** [clearTimeout(batchTimer); batchTimer = null] *)
Definition clearBatchTimer (st : State) : State :=
  match batchTimer st with
  | Some h => {|
      summaryCache := summaryCache st;
      pendingItems := pendingItems st;
      batchTimer := None;
      timers := delete h (timers st);
      nextTimer := nextTimer st;
      nextPromise := nextPromise st
    |}
  | None => st
  end.

Definition flushBatch (config : SummaryConfig) (llmClient : LLMClient)
    (now later : Z) (st : State)
  : State * list (nat * SummarizationResult) :=
  processBatch config llmClient now later (clearBatchTimer st).

(** [batchTimer = setTimeout(() => processBatch(config, llmClient), delay)] *)
Definition armBatchTimer (config : SummaryConfig) (llmClient : LLMClient)
    (st : State) : State := {|
  summaryCache := summaryCache st;
  pendingItems := pendingItems st;
  batchTimer := Some (nextTimer st);
  timers := <[nextTimer st := (config, llmClient)]> (timers st);
  nextTimer := S (nextTimer st);
  nextPromise := nextPromise st
|}.

Definition scheduleBatch (config : SummaryConfig) (llmClient : LLMClient)
    (now later : Z) (st : State)
  : State * list (nat * SummarizationResult) :=
  let batchConfig := batch config in
  if batch_maxSize batchConfig <=? Z.of_nat (List.length (pendingItems st))
  then processBatch config llmClient now later st
  else
    match batchTimer st with
    | None => (armBatchTimer config llmClient st, [])
    | Some _ => (st, [])
    end.

(** [pendingItems.push(item)] with a fresh promise. *)
Definition enqueue (p : Params) (text hash : string) (st : State)
  : State * nat :=
  let item := {| params := p; contentText := text; contentHash := hash;
                 promise := nextPromise st |} in
  ({| summaryCache := summaryCache st;
      pendingItems := pendingItems st ++ [item];
      batchTimer := batchTimer st;
      timers := timers st;
      nextTimer := nextTimer st;
      nextPromise := S (nextPromise st) |},
   nextPromise st).

(** [summarize(params)] of a summarizer created with [config] and
    [llmClient].  The call reads the clock at [now]; an answer of the model
    is handled at [later].  Besides the outcome of the call itself, the
    step reports the promises a batch started by this call resolved. *)
Definition summarize (config : SummaryConfig) (llmClient : LLMClient)
    (p : Params) (now later : Z) (st : State)
  : State * Outcome * list (nat * SummarizationResult) :=
  let contentText := extractTextContent (content p) in
  let contentLength := JS.length contentText in
  let contentHash := hashContent contentText in
  if contentLength <=? maxChars config then
    (st, Settled (Ok contentText false None), [])
  else if contentLength <=? minContentForSummarization config then
    (st, Settled (truncation config contentText), [])
  else
    let cacheKey := generateCacheKey (toolName p) (input p) contentHash in
    let '(cache1, cached) :=
      checkCache cacheKey (cache config) now (summaryCache st) in
    let st1 := withCache st cache1 in
    match cached with
    | Some (summary, false) =>
        (st1, Settled (Ok summary true (Some true)), [])
    | _ =>
        if batch_enabled (batch config) then
          let '(st2, pr) := enqueue p contentText contentHash st1 in
          let '(st3, resolved) :=
            scheduleBatch config llmClient now later st2 in
          (st3, Queued pr, resolved)
        else
          let prompt := buildSummaryPrompt p contentText (maxChars config) in
          match generate llmClient prompt (generateOptions config) with
          | Some summary =>
              if String.eqb summary "" || (JS.length (JS.trim summary) =? 0)
              then (st1, Settled (truncation config contentText), [])
              else
                let finalSummary :=
                  JS.slice0 (JS.trim summary) (maxChars config) in
                (withCache st1
                   (storeInCache cacheKey contentHash finalSummary
                                 (cache config) later (summaryCache st1)),
                 Settled (Ok finalSummary true (Some false)), [])
          | None => (st1, Settled (truncation config contentText), [])
          end
    end.

(** What can happen to the summarizer: a call of [summarize], a scheduled
    timeout firing, or a call of [flush]. *)
Inductive Event :=
| Summarize (config : SummaryConfig) (llmClient : LLMClient) (p : Params)
            (now later : Z)
| TimerFires (handle : nat) (now later : Z)
| Flush (config : SummaryConfig) (llmClient : LLMClient) (now later : Z).

(** One event; a handle that is not scheduled cannot fire. *)
Definition step (st : State) (e : Event)
  : State * option Outcome * list (nat * SummarizationResult) :=
  match e with
  | Summarize config llmClient p now later =>
      let '(st', out, resolved) := summarize config llmClient p now later st in
      (st', Some out, resolved)
  | TimerFires h now later =>
      match timers st !! h with
      | Some (config, llmClient) =>
          let st0 := {|
            summaryCache := summaryCache st;
            pendingItems := pendingItems st;
            batchTimer := batchTimer st;
            timers := delete h (timers st);
            nextTimer := nextTimer st;
            nextPromise := nextPromise st
          |} in
          let '(st', resolved) := processBatch config llmClient now later st0 in
          (st', None, resolved)
      | None => (st, None, [])
      end
  | Flush config llmClient now later =>
      let '(st', resolved) := flushBatch config llmClient now later st in
      (st', None, resolved)
  end.

(** A run: the final state, the outcome of every [summarize] call in order,
    and every promise resolution delivered by a batch. *)
Fixpoint run (st : State) (events : list Event)
  : State * list Outcome * list (nat * SummarizationResult) :=
  match events with
  | [] => (st, [], [])
  | e :: rest =>
      let '(st1, out, resolved) := step st e in
      let '(st2, outs, resolved') := run st1 rest in
      (st2, option_list out ++ outs, resolved ++ resolved')
  end.

End WithPlatform.

(** [getCacheStats()] of a summarizer created with [config]: the size of
    the cache and [config.cache?.maxEntries || 0]. *)
Definition getCacheStats (config : SummaryConfig) (st : State) : Z * Z :=
  (JS.mapSize (summaryCache st), cache_maxEntries (cache config)).

(** [clearCache()] *)
Definition clearCache (st : State) : State := withCache st [].

(** ** The built-in client *)

(** The regular expressions of [heuristicSummary] are sequences of atoms:
    a literal, a greedy or lazy run of a character class, an optional
    character, the end of the input. *)
Inductive Atom :=
| Chars (literal : list ascii)
| Greedy (class : ascii -> bool)
| Lazy (class : ascii -> bool)
| Optional (c : ascii)
| AtEnd.

Fixpoint stripPrefix (literal s : list ascii) : option (list ascii) :=
  match literal with
  | [] => Some s
  | c :: literal' =>
      match s with
      | c' :: s' => if Ascii.eqb c c' then stripPrefix literal' s' else None
      | [] => None
      end
  end.

(** A match of the expression at the start of [s], found by backtracking
    in the order of the engine: the text matched and what is left. *)
Fixpoint matchHere (re : list Atom) (s : list ascii)
  : option (list ascii * list ascii) :=
  match re with
  | [] => Some ([], s)
  | Chars literal :: re' =>
      match stripPrefix literal s with
      | Some s' =>
          match matchHere re' s' with
          | Some (matched, rest) => Some (literal ++ matched, rest)
          | None => None
          end
      | None => None
      end
  | Greedy class :: re' =>
      (fix greedy (s : list ascii) : option (list ascii * list ascii) :=
         match s with
         | c :: s' =>
             if class c then
               match greedy s' with
               | Some (matched, rest) => Some (c :: matched, rest)
               | None => matchHere re' s
               end
             else matchHere re' s
         | [] => matchHere re' s
         end) s
  | Lazy class :: re' =>
      (fix lazy (s : list ascii) : option (list ascii * list ascii) :=
         match matchHere re' s with
         | Some found => Some found
         | None =>
             match s with
             | c :: s' =>
                 if class c then
                   match lazy s' with
                   | Some (matched, rest) => Some (c :: matched, rest)
                   | None => None
                   end
                 else None
             | [] => None
             end
         end) s
  | Optional c :: re' =>
      match s with
      | c' :: s' =>
          if Ascii.eqb c c' then
            match matchHere re' s' with
            | Some (matched, rest) => Some (c' :: matched, rest)
            | None => matchHere re' s
            end
          else matchHere re' s
      | [] => matchHere re' s
      end
  | AtEnd :: re' =>
      match s with
      | [] => matchHere re' s
      | _ :: _ => None
      end
  end.

(** The leftmost match: what precedes it, the match and what follows. *)
Fixpoint search (re : list Atom) (s : list ascii)
  : option (list ascii * list ascii * list ascii) :=
  match matchHere re s with
  | Some (matched, rest) => Some ([], matched, rest)
  | None =>
      match s with
      | c :: s' =>
          match search re s' with
          | Some (before, matched, rest) => Some (c :: before, matched, rest)
          | None => None
          end
      | [] => None
      end
  end.

(** [s.replace(re, "")] for an expression without the [g] flag. *)
Definition removeFirst (re : list Atom) (s : list ascii) : list ascii :=
  match search re s with
  | Some (before, _, rest) => before ++ rest
  | None => s
  end.

(** [s.split("\n")] *)
Fixpoint splitLines (s : list ascii) : list (list ascii) :=
  match s with
  | [] => [[]]
  | c :: s' =>
      if Ascii.eqb c (ascii_of_nat 10) then [] :: splitLines s'
      else
        match splitLines s' with
        | line :: more => (c :: line) :: more
        | [] => [[c]]
        end
  end.

Definition notBacktick (c : ascii) : bool := negb (Ascii.eqb c "`"%char).
Definition anyCharacter (c : ascii) : bool := true.

(** [/## Result[^`]*```[\s\S]*?```/] *)
Definition resultSection : list Atom :=
  [Chars (list_ascii_of_string "## Result"); Greedy notBacktick;
   Chars (list_ascii_of_string "```"); Lazy anyCharacter;
   Chars (list_ascii_of_string "```")].

(** [/## Result[^`]*```\n?/] *)
Definition resultHeading : list Atom :=
  [Chars (list_ascii_of_string "## Result"); Greedy notBacktick;
   Chars (list_ascii_of_string "```"); Optional (ascii_of_nat 10)].

(** [/```$/] *)
Definition closingFence : list Atom :=
  [Chars (list_ascii_of_string "```"); AtEnd].

(** The end of [heuristicSummary]: the first three lines of [result] that
    are not blank, joined by spaces. *)
Definition firstLines (result : string) (effectiveMaxChars : Z) : string :=
  let lines :=
    List.filter (fun l => negb (String.eqb (JS.trim l) ""))
                (map string_of_list_ascii
                     (splitLines (list_ascii_of_string result))) in
  match lines with
  | [] => JS.slice0 result effectiveMaxChars
  | _ =>
      let summary := JS.trim (JS.join " " (firstn 3 lines)) in
      JS.slice0 summary effectiveMaxChars
  end.

(** [maxChars || 200] *)
Definition orDefault (maxChars : option Z) : Z :=
  match maxChars with
  | Some m => if m =? 0 then 200 else m
  | None => 200
  end.

Definition heuristicSummary (prompt : string) (maxChars : option Z)
  : string :=
  let effectiveMaxChars := orDefault maxChars in
  match search resultSection (list_ascii_of_string prompt) with
  | None => JS.slice0 prompt effectiveMaxChars
  | Some (_, resultMatch, _) =>
      let result :=
        JS.trim (string_of_list_ascii
                   (removeFirst closingFence
                      (removeFirst resultHeading resultMatch))) in
      firstLines result effectiveMaxChars
  end.

(** [createLLMClient(params)]: neither the model nor the session id is
    used. *)
Definition createLLMClient : LLMClient := {|
  generate := fun prompt options =>
    Some (heuristicSummary prompt
            (Some (orDefault (Some (opt_maxChars options)))));
  generateBatch := Some (fun prompts options =>
    let maxChars := orDefault (Some (opt_maxChars options)) in
    Some (map (fun p => heuristicSummary p (Some maxChars)) prompts))
|}.

(** ** Vocabulary of the properties *)

(** The character [c] does not occur in [l]. *)
Definition lacks (c : ascii) (l : list ascii) : Prop :=
  Forall (fun c' => Ascii.eqb c c' = false) l.

(** The first character of [literal] does not occur in [w]. *)
Definition startLacks (literal w : list ascii) : Prop :=
  match literal with
  | c :: _ => lacks c w
  | [] => False
  end.

Definition fence : list ascii := list_ascii_of_string "```".
Definition heading : list ascii := list_ascii_of_string "## Result".

(** No entry sits under the empty key. *)
Definition keysNonEmpty (entries : list (string * CacheEntry)) : Prop :=
  Forall (fun kv => fst kv <> "") entries.

(** A cache of at most [m] entries, none under the empty key. *)
Definition fits (m : Z) (entries : list (string * CacheEntry)) : Prop :=
  keysNonEmpty entries /\ JS.mapSize entries <= m.

(** The event is handled under a configuration whose cache holds [m]
    entries; a timer carries the configuration it was armed with. *)
Definition eventCapacity (m : Z) (e : Event) : Prop :=
  match e with
  | Summarize config _ _ _ _ => cache_maxEntries (cache config) = m
  | TimerFires _ _ _ => True
  | Flush config _ _ _ => cache_maxEntries (cache config) = m
  end.

(** The cache fits [m] entries and every armed timer was armed under a
    configuration of that capacity. *)
Definition capped (m : Z) (st : State) : Prop :=
  fits m (summaryCache st)
  /\ map_Forall (fun _ armed => cache_maxEntries (cache (fst armed)) = m)
                (timers st).

(** The result is the ok variant. *)
Definition isOk (r : SummarizationResult) : Prop :=
  match r with
  | Ok _ _ _ => True
  | Error _ => False
  end.

(** An ok result that respects the limit [m]: a summary that is verbatim
    ([truncated = false]) or carries a [cached] flag (a cache hit or a fresh
    completion) has at most [m] characters; a truncation fallback, which
    carries no flag, has at most [m + 3]. *)
Definition summaryWithin (m : Z) (r : SummarizationResult) : Prop :=
  match r with
  | Ok s truncated cached =>
      JS.length s <= m + 3
      /\ (truncated = false \/ cached <> None -> JS.length s <= m)
  | Error _ => False
  end.

(** Every cached summary has at most [m] characters. *)
Definition cacheWithin (m : Z) (entries : list (string * CacheEntry)) : Prop :=
  Forall (fun kv => JS.length (entry_summary (snd kv)) <= m) entries.

(** A content list without text blocks. *)
Definition hasNoText (blocks : list JS.ContentBlock) : Prop :=
  Forall (fun block =>
            match block with
            | JS.TextContent _ => False
            | JS.ImageContent _ _ => True
            end) blocks.

(** ** Sample inputs *)

Fixpoint repeatChar (c : ascii) (n : nat) : string :=
  match n with
  | O => EmptyString
  | S n' => String c (repeatChar c n')
  end.

(** A result of [n] copies of one character in a single text block. *)
Definition textResult (name : string) (c : ascii) (n : nat) : Params := {|
  toolName := name;
  input := JS.Obj [];
  content := [JS.TextContent (repeatChar c n)];
  isError := false
|}.

(** A result made of one image block. *)
Definition imageResult : Params := {|
  toolName := "screenshot";
  input := JS.Obj [];
  content := [JS.ImageContent "iVBORw0KGgo=" "image/png"];
  isError := false
|}.

(** A client whose every call is rejected. *)
Definition unavailable : LLMClient := {|
  generate := fun _ _ => None;
  generateBatch := None
|}.

(** A client that answers every prompt with the same padded sentence. *)
Definition constantClient : LLMClient := {|
  generate := fun _ _ => Some "  Read the file.  ";
  generateBatch := None
|}.

(** The default configuration without batching. *)
Definition directConfig : SummaryConfig := {|
  maxChars := 200;
  modelName := None;
  timeoutMs := 10000;
  minContentForSummarization := 500;
  cache := cache DEFAULT_SUMMARY_CONFIG;
  batch := {| batch_enabled := false;
              batch_maxDelayMs := 2000;
              batch_maxSize := 10;
              batch_minSize := 1 |}
|}.

End Summarizer.

(* ===================================================================== *)
(** * store.ts *)
(* ===================================================================== *)

Module Store.

Record ToolResultEntry := {
  id : string;
  sessionId : string;
  toolCallId : string;
  toolName : string;
  input : JS.Value;
  summary : string;
  originalContent : JS.Value;
  isError : bool;
  details : JS.Value;
  vector : list Q;
  createdAt : Z;
  accessCount : Z;
  lastAccessAt : Z
}.

Record ToolResultSearchResult := {
  entry : ToolResultEntry;
  score : Q
}.

(** A row as the vector search returns it; [_distance] may be absent. *)
Record Row := {
  row_id : string;
  row_sessionId : string;
  row_toolCallId : string;
  row_toolName : string;
  row_inputJson : string;
  row_summary : string;
  row_originalContentJson : string;
  row_isError : bool;
  row_detailsJson : string;
  row_vector : list Q;
  row_createdAt : Z;
  row_accessCount : Z;
  row_lastAccessAt : Z;
  row_distance : option Q
}.

Record SearchOptions := {
  limit : Z;
  minScore : Q;
  opt_sessionId : option string;
  crossSession : bool
}.

(** The collaborators of an initialized store: the embedding provider and
    the table.  [None] stands for a rejected promise. *)
Record Backend := {
  embedQuery : string -> option (list Q);
  vectorSearch : list Q -> Z -> option (list Row)
}.

(** [row._distance ?? 0] *)
Definition distanceOf (row : Row) : Q := default 0%Q (row_distance row).

(** [1 / (1 + distance)], on the non-negative distances a vector search
    reports (at a distance of -1 JavaScript would yield [Infinity]). *)
Definition scoreOf (distance : Q) : Q := (1 / (1 + distance))%Q.

(** ** The table and the state of a store *)

(** The table of an initialized store, with the operations lancedb.d.ts
    declares: [add], [query().where(condition).toArray()], [delete] and
    [countRows].  [None] stands for a rejected promise. *)
Record Table (T : Type) := {
  tbl_add : list Row -> T -> option T;
  tbl_where : string -> T -> option (list Row);
  tbl_delete : string -> T -> option T;
  tbl_countRows : T -> option Z
}.

Arguments tbl_add {T}.
Arguments tbl_where {T}.
Arguments tbl_delete {T}.
Arguments tbl_countRows {T}.

(** The fields [table] and [entryCount] of the store object. *)
Record StoreState (T : Type) := {
  st_table : T;
  st_entryCount : Z
}.

Arguments st_table {T}.
Arguments st_entryCount {T}.

(** The argument of [store]. *)
Record StoreParams := {
  p_sessionId : string;
  p_toolCallId : string;
  p_toolName : string;
  p_input : JS.Value;
  p_summary : string;
  p_originalContent : list JS.ContentBlock;
  p_isError : bool;
  p_details : JS.Value
}.

(** A content block as the plain object it is. *)
Definition blockValue (block : JS.ContentBlock) : JS.Value :=
  match block with
  | JS.TextContent text =>
      JS.Obj [("type", JS.Str "text"); ("text", JS.Str text)]
  | JS.ImageContent data mimeType =>
      JS.Obj [("type", JS.Str "image"); ("data", JS.Str data);
              ("mimeType", JS.Str mimeType)]
  end.

(** ** Identifiers *)

(** [[0-9a-f]] under the [i] flag. *)
Definition isHexDigit (c : ascii) : bool :=
  let n := nat_of_ascii c in
  ((48 <=? n)%nat && (n <=? 57)%nat)
  || ((97 <=? n)%nat && (n <=? 102)%nat)
  || ((65 <=? n)%nat && (n <=? 70)%nat).

(** [[0-9a-f]{n}]: what follows [n] hexadecimal digits. *)
Fixpoint hexDigits (n : nat) (s : list ascii) : option (list ascii) :=
  match n with
  | O => Some s
  | S n' =>
      match s with
      | c :: s' => if isHexDigit c then hexDigits n' s' else None
      | [] => None
      end
  end.

(** What follows a dash. *)
Definition dash (s : list ascii) : option (list ascii) :=
  match s with
  | c :: s' => if Ascii.eqb c "-"%char then Some s' else None
  | [] => None
  end.

(** [/^[0-9a-f]{8}-[0-9a-f]{4}-[0-9a-f]{4}-[0-9a-f]{4}-[0-9a-f]{12}$/i
     .test(id)] *)
Definition uuidRegexTest (id : string) : bool :=
  match
    s1 ← hexDigits 8 (list_ascii_of_string id); s2 ← dash s1;
    s3 ← hexDigits 4 s2; s4 ← dash s3;
    s5 ← hexDigits 4 s4; s6 ← dash s5;
    s7 ← hexDigits 4 s6; s8 ← dash s7;
    hexDigits 12 s8
  with
  | Some [] => true
  | _ => false
  end.

(** ** Sorting by age *)

(** [results.toSorted((a, b) => b.createdAt - a.createdAt)]: a stable sort,
    newest first. *)
Fixpoint insertNewestFirst (row : Row) (sorted : list Row) : list Row :=
  match sorted with
  | [] => [row]
  | x :: rest =>
      if row_createdAt x <=? row_createdAt row then row :: sorted
      else x :: insertNewestFirst row rest
  end.

Definition sortNewestFirst (rows : list Row) : list Row :=
  foldr insertNewestFirst [] rows.

Section WithJSON.

(** [JSON.parse]; [None] when it throws. *)
Variable JSON_parse : string -> option JS.Value.

(** [JSON.parse(json || fallback)] *)
Definition parseOr (json fallback : string) : option JS.Value :=
  JSON_parse (if String.eqb json "" then fallback else json).

Definition rowToEntry (row : Row) : option ToolResultEntry :=
  input ← parseOr (row_inputJson row) "{}";
  originalContent ← parseOr (row_originalContentJson row) "[]";
  details ← parseOr (row_detailsJson row) "null";
  Some {|
    id := row_id row;
    sessionId := row_sessionId row;
    toolCallId := row_toolCallId row;
    toolName := row_toolName row;
    input := input;
    summary := row_summary row;
    originalContent := originalContent;
    isError := row_isError row;
    details := details;
    vector := row_vector row;
    createdAt := row_createdAt row;
    accessCount := row_accessCount row;
    lastAccessAt := row_lastAccessAt row
  |}.

(** [!options.crossSession && options.sessionId
     && entry.sessionId !== options.sessionId] *)
Definition otherSession (options : SearchOptions) (e : ToolResultEntry)
  : bool :=
  negb (crossSession options)
  && match opt_sessionId options with
     | Some s => negb (String.eqb s "") && negb (String.eqb (sessionId e) s)
     | None => false
     end.

(** The loop of [search] over the rows of the vector search. *)
Fixpoint mapRows (options : SearchOptions) (results : list Row)
  : option (list ToolResultSearchResult) :=
  match results with
  | [] => Some []
  | row :: rest =>
      e ← rowToEntry row;
      if otherSession options e then mapRows options rest
      else
        let distance := distanceOf row in
        let score := scoreOf distance in
        if Qle_bool (minScore options) score
        then mapped ← mapRows options rest;
             Some ({| entry := e; score := score |} :: mapped)
        else mapRows options rest
  end.

Definition search (backend : Backend) (query : string)
    (options : SearchOptions) : option (list ToolResultSearchResult) :=
  queryVector ← embedQuery backend query;
  results ← vectorSearch backend queryVector (limit options * 2);
  mapped ← mapRows options results;
  Some (JS.arraySlice0 mapped (limit options)).

(** [JSON.stringify]; [None] is the [undefined] it answers for a value
    without a JSON text.  On plain data it does not throw. *)
Variable JSON_stringify : JS.Value -> option string.

(** [entryToRow].  A JSON field that [JSON.stringify] leaves undefined is
    held as the empty string: [rowToEntry] reads both through the same
    [||] fallback. *)
Definition entryToRow (e : ToolResultEntry) : Row := {|
  row_id := id e;
  row_sessionId := sessionId e;
  row_toolCallId := toolCallId e;
  row_toolName := toolName e;
  row_inputJson := default "" (JSON_stringify (input e));
  row_summary := summary e;
  row_originalContentJson := default "" (JSON_stringify (originalContent e));
  row_isError := isError e;
  row_detailsJson := default "" (JSON_stringify (details e));
  row_vector := vector e;
  row_createdAt := createdAt e;
  row_accessCount := accessCount e;
  row_lastAccessAt := lastAccessAt e;
  row_distance := None
|}.

(** [get(id)] on an initialized store.  Every failure inside the [try]
    block answers [null]. *)
Definition get {T} (tbl : Table T) (table : T) (id : string)
  : option ToolResultEntry :=
  if negb (uuidRegexTest id) then None
  else
    match tbl_where tbl ("id = '" +:+ id +:+ "'") table with
    | Some (row :: _) => rowToEntry row
    | Some [] => None
    | None => None
    end.

(** [getByToolCallId(toolCallId)] on an initialized store. *)
Definition getByToolCallId {T} (tbl : Table T) (table : T)
    (toolCallId : string) : option ToolResultEntry :=
  match tbl_where tbl ("toolCallId = '" +:+ toolCallId +:+ "'") table with
  | Some [] => None
  | Some results =>
      match sortNewestFirst results with
      | row :: _ => rowToEntry row
      | [] => None
      end
  | None => None
  end.

(** [store(params)] on an initialized store.  [uuid] is the answer of
    [randomUUID()], [now] and [later] are the two readings of the clock;
    [None] is a rejected promise, which leaves the store as it was. *)
Definition store {T} (tbl : Table T) (config : Settings.StorageConfig)
    (backend : Backend) (uuid : string) (now later : Z)
    (params : StoreParams) (st : StoreState T)
  : option (StoreState T * ToolResultEntry) :=
  vector ← embedQuery backend (p_summary params);
  let truncatedContent :=
    Tools.truncateContent (p_originalContent params)
                          (Settings.storage_maxContentChars config) in
  let entry := {|
    id := uuid;
    sessionId := p_sessionId params;
    toolCallId := p_toolCallId params;
    toolName := p_toolName params;
    input := p_input params;
    summary := p_summary params;
    originalContent := JS.Arr (map blockValue truncatedContent);
    isError := p_isError params;
    details := p_details params;
    vector := vector;
    createdAt := now;
    accessCount := 0;
    lastAccessAt := later
  |} in
  table' ← tbl_add tbl [entryToRow entry] (st_table st);
  Some ({| st_table := table'; st_entryCount := st_entryCount st + 1 |},
        entry).

(** [getCount()] *)
Definition getCount {T} (st : StoreState T) : Z := st_entryCount st.

(** The value has a JSON text and is what the text parses to. *)
Definition roundTrips (v : JS.Value) : Prop :=
  exists text,
    JSON_stringify v = Some text /\ text <> "" /\ JSON_parse text = Some v.

End WithJSON.

(** ** Vocabulary of the properties *)

(** The rows come in non-decreasing distance order, and a distance is never
    negative. *)
Definition distanceOrdered (rows : list Row) : Prop :=
  StronglySorted (fun a b => (distanceOf a <= distanceOf b)%Q) rows
  /\ Forall (fun row => (0 <= distanceOf row)%Q) rows.

(** ** Sample inputs *)

Definition sampleRow (rowId session : string) (distance : option Q) : Row := {|
  row_id := rowId;
  row_sessionId := session;
  row_toolCallId := "call-" +:+ rowId;
  row_toolName := "bash";
  row_inputJson := "";
  row_summary := "disk usage 42%";
  row_originalContentJson := "";
  row_isError := false;
  row_detailsJson := "";
  row_vector := [];
  row_createdAt := 0;
  row_accessCount := 0;
  row_lastAccessAt := 0;
  row_distance := distance
|}.

(** A backend that answers every query with three rows at distances 0
    (absent), 1 and 3. *)
Definition sampleBackend : Backend := {|
  embedQuery := fun _ => Some [];
  vectorSearch := fun _ _ =>
    Some [sampleRow "a" "s1" None;
          sampleRow "b" "s1" (Some 1%Q);
          sampleRow "c" "s1" (Some 3%Q)]
|}.

(** A table held as the list of its rows, which answers every condition
    with all of them. *)
Definition listTable : Table (list Row) := {|
  tbl_add := fun rows table => Some (table ++ rows);
  tbl_where := fun _ table => Some table;
  tbl_delete := fun _ table => Some table;
  tbl_countRows := fun table => Some (Z.of_nat (List.length table))
|}.

(** A codec for the values [null], [true], the empty array and the
    empty object. *)
Definition smallStringify (v : JS.Value) : option string :=
  match v with
  | JS.Null => Some "null"
  | JS.Bool true => Some "true"
  | JS.Arr [] => Some "[]"
  | JS.Obj [] => Some "{}"
  | _ => None
  end.

Definition smallParse (text : string) : option JS.Value :=
  if String.eqb text "null" then Some JS.Null
  else if String.eqb text "true" then Some (JS.Bool true)
  else if String.eqb text "[]" then Some (JS.Arr [])
  else if String.eqb text "{}" then Some (JS.Obj [])
  else None.

(** A row stored at the time [created]. *)
Definition rowAt (rowId : string) (created : Z) : Row := {|
  row_id := rowId;
  row_sessionId := "s1";
  row_toolCallId := "call-1";
  row_toolName := "bash";
  row_inputJson := "";
  row_summary := "disk usage 42%";
  row_originalContentJson := "";
  row_isError := false;
  row_detailsJson := "";
  row_vector := [];
  row_createdAt := created;
  row_accessCount := 0;
  row_lastAccessAt := created;
  row_distance := None
|}.

Definition sampleOptions : SearchOptions := {|
  limit := 5;
  minScore := 3 # 10;
  opt_sessionId := Some "s1";
  crossSession := false
|}.

End Store.

(* ===================================================================== *)
(** * retriever.ts *)
(* ===================================================================== *)

(** The formatting of search results, as tool-result-vector/retriever.ts
    has it. *)

Module Retriever.

Import Store.

(** The double quote. *)
Definition dquote : string := String (ascii_of_nat 34) EmptyString.

(** [Math.round], on exact numbers: halves go up. *)
Definition Math_round (x : Q) : Z := Qfloor (x + (1 # 2)).

(** [Object.keys(v)] with the values they name.  The fields of an object
    are held once each, in enumeration order; an array and a string list
    their indices; [None] is for [null] and [undefined], on which reading a
    property throws. *)
Definition ownEntries (v : JS.Value) : option (list (string * JS.Value)) :=
  match v with
  | JS.Undefined | JS.Null => None
  | JS.Bool _ | JS.Num _ => Some []
  | JS.Str s =>
      Some (imap (fun i c => (JS.showZ (Z.of_nat i), JS.Str (String c "")))
                 (list_ascii_of_string s))
  | JS.Arr items =>
      Some (imap (fun i item => (JS.showZ (Z.of_nat i), item)) items)
  | JS.Obj fields => Some fields
  end.

(** The [filter] of [extractTextContent] on parsed JSON: reading [type]
    off [null] throws; the [text] of every block of type text is kept. *)
Fixpoint textItems (items : list JS.Value) : option (list JS.Value) :=
  match items with
  | [] => Some []
  | item :: rest =>
      match item with
      | JS.Undefined | JS.Null => None
      | _ =>
          kept ← textItems rest;
          Some (if JS.isStr (JS.prop item "type") "text"
                then JS.prop item "text" :: kept else kept)
      end
  end.

Section WithToString.

(** ToString, as a template literal and [join] apply it to a value that
    is neither a string nor [null] nor [undefined]. *)
Variable toString : JS.Value -> string.

(** An element under [join]. *)
Definition joined (v : JS.Value) : string :=
  match v with
  | JS.Undefined | JS.Null => ""
  | JS.Str s => s
  | _ => toString v
  end.

(** [extractTextContent(content)] on parsed JSON; [None] when it throws,
    as it does on a value that is not an array. *)
Definition extractText (content : JS.Value) : option string :=
  items ← JS.array content;
  kept ← textItems items;
  Some (JS.join JS.nl (map joined kept)).

(** The part a common field contributes. *)
Definition commonPart (input : JS.Value) (key : string)
    (render : string -> string) : list string :=
  match JS.prop input key with
  | JS.Str s => [render s]
  | _ => []
  end.

Definition commonParts (input : JS.Value) : list string :=
  commonPart input "file_path" (fun s => "file=" +:+ s)
  ++ commonPart input "pattern"
       (fun s => "pattern=" +:+ dquote +:+ s +:+ dquote)
  ++ commonPart input "command"
       (fun s => "cmd=" +:+ dquote +:+ JS.slice0 s 50 +:+ dquote)
  ++ commonPart input "path" (fun s => "path=" +:+ s).

(** The part a key contributes to the generic format. *)
Definition genericPart (kv : string * JS.Value) : list string :=
  match snd kv with
  | JS.Str s => [fst kv +:+ "=" +:+ dquote +:+ JS.slice0 s 30 +:+ dquote]
  | JS.Num n => [fst kv +:+ "=" +:+ toString (JS.Num n)]
  | JS.Bool b => [fst kv +:+ "=" +:+ (if b then "true" else "false")]
  | _ => []
  end.

(** [formatInput(input)]; [None] when it throws. *)
Definition formatInput (input : JS.Value) : option string :=
  entries ← ownEntries input;
  let parts :=
    match commonParts input with
    | [] => flat_map genericPart (firstn 3 entries)
    | parts => parts
    end in
  Some (JS.join ", " parts).

(** The lines one result contributes; [i] is its index. *)
Definition resultLines (includeFullContent : bool) (maxContentChars : Z)
    (i : nat) (r : ToolResultSearchResult) : option (list string) :=
  let score := Math_round (score r * 100) in
  let errorTag := if isError (entry r) then " [ERROR]" else "" in
  let headline :=
    JS.showZ (Z.of_nat i + 1) +:+ ". [" +:+ toolName (entry r) +:+ "] "
    +:+ summary (entry r) +:+ errorTag
    +:+ " (" +:+ toString (JS.Num (JS.Finite (inject_Z score)))
    +:+ "% match)" in
  full ←
    (if includeFullContent then
       fullContent ← extractText (originalContent (entry r));
       Some (if 0 <? JS.length fullContent then
               let truncated := JS.slice0 fullContent maxContentChars in
               let ellipsis :=
                 if maxContentChars <? JS.length fullContent
                 then "..." else "" in
               ["   Full result:"; "   " +:+ truncated +:+ ellipsis]
             else [])
     else Some []);
  inputStr ← formatInput (input (entry r));
  Some ([headline] ++ full
        ++ (if String.eqb inputStr "" then []
            else ["   Input: " +:+ inputStr])
        ++ [""]).

(** The loop over the results, from index [i] on. *)
Fixpoint resultsLines (includeFullContent : bool) (maxContentChars : Z)
    (i : nat) (results : list ToolResultSearchResult)
  : option (list string) :=
  match results with
  | [] => Some []
  | r :: rest =>
      lines ← resultLines includeFullContent maxContentChars i r;
      more ← resultsLines includeFullContent maxContentChars (S i) rest;
      Some (lines ++ more)
  end.

(** [formatResultsForContext(results, includeFullContent,
    maxContentChars)]; [None] when it throws. *)
Definition formatResultsForContext (results : list ToolResultSearchResult)
    (includeFullContent : bool) (maxContentChars : Z) : option string :=
  body ← resultsLines includeFullContent maxContentChars 0 results;
  Some (JS.join JS.nl
          (["<relevant-tool-results>";
            "The following previously executed tool results may be relevant"
              +:+ " to your current task:";
            ""]
           ++ body ++ ["</relevant-tool-results>"])).

End WithToString.

(** ** Vocabulary of the properties *)

(** Two results that show the same tool, summary, error flag, input and
    score. *)
Definition sameHeadline (a b : ToolResultSearchResult) : Prop :=
  toolName (entry a) = toolName (entry b)
  /\ summary (entry a) = summary (entry b)
  /\ isError (entry a) = isError (entry b)
  /\ input (entry a) = input (entry b)
  /\ score a = score b.

(** One of the four fields shown by name holds a string. *)
Definition hasCommonField (input : JS.Value) : Prop :=
  exists key s,
    In key ["file_path"; "pattern"; "command"; "path"]
    /\ JS.prop input key = JS.Str s.

(** The four fields shown by name, alone. *)
Definition commonFields (input : JS.Value) : JS.Value :=
  JS.Obj [("file_path", JS.prop input "file_path");
          ("pattern", JS.prop input "pattern");
          ("command", JS.prop input "command");
          ("path", JS.prop input "path")].

(** ** Sample inputs *)

(** ToString for the whole numbers of the samples. *)
Definition showNumber (v : JS.Value) : string :=
  match v with
  | JS.Num (JS.Finite q) => JS.showZ (Qfloor q)
  | _ => "?"
  end.

Definition sampleResult (content : JS.Value) (rowId : string)
  : ToolResultSearchResult := {|
  entry := {|
    id := rowId; sessionId := "s1"; toolCallId := "call-" +:+ rowId;
    toolName := "bash";
    input := JS.Obj [("command", JS.Str "df -h"); ("timeout", JS.Num (JS.Finite 5))];
    summary := "disk usage 42%";
    originalContent := content;
    isError := false; details := JS.Null; vector := [];
    createdAt := 5; accessCount := 0; lastAccessAt := 5 |};
  score := 1 # 2
|}.

End Retriever.

(* ===================================================================== *)
(** * runtime.ts, extension.ts and the runner's extensions.ts *)
(* ===================================================================== *)

Module Extension.

(** ** Runtime registry (runtime.ts) *)

(** A session manager object: its identity keys the registry, and the
    session id is read from its [sessionId] and [sessionFile] fields. *)
Record SessionManagerObject := {
  ref : nat;
  sm_sessionId : option string;
  sm_sessionFile : option string
}.

(** [ctx.sessionManager]; [None] is a value that is not an object. *)
Definition SessionManager := option SessionManagerObject.

(** [ToolResultSummaryRuntime], with the fields [ToolResultSummaryRuntimeValue]
    adds; [config = None] is a record without a [config] property. *)
Record ToolResultSummaryRuntime := {
  initialized : bool;
  initError : option string;
  entryCount : Z;
  lastCleanupAt : option Z;
  compactionOccurred : bool;
  config : option Settings.ToolResultSummaryConfig;
  resolvedDbPath : option string
}.

(** [Partial<ToolResultSummaryRuntime>] *)
Record RuntimeUpdates := {
  upd_initialized : option bool;
  upd_initError : option string;
  upd_entryCount : option Z;
  upd_lastCleanupAt : option (option Z);
  upd_compactionOccurred : option bool
}.

Definition noUpdates : RuntimeUpdates := {|
  upd_initialized := None;
  upd_initError := None;
  upd_entryCount := None;
  upd_lastCleanupAt := None;
  upd_compactionOccurred := None
|}.

Definition createDefaultRuntime : ToolResultSummaryRuntime := {|
  initialized := false;
  initError := None;
  entryCount := 0;
  lastCleanupAt := None;
  compactionOccurred := false;
  config := None;
  resolvedDbPath := None
|}.

Definition setToolResultSummaryRuntime
    (registry : gmap nat ToolResultSummaryRuntime)
    (sessionManager : SessionManager)
    (value : option ToolResultSummaryRuntime)
  : gmap nat ToolResultSummaryRuntime :=
  match sessionManager with
  | None => registry
  | Some sm =>
      match value with
      | None => delete (ref sm) registry
      | Some v => <[ref sm := v]> registry
      end
  end.

Definition getToolResultSummaryRuntime
    (registry : gmap nat ToolResultSummaryRuntime)
    (sessionManager : SessionManager) : ToolResultSummaryRuntime :=
  match sessionManager with
  | None => createDefaultRuntime
  | Some sm => default createDefaultRuntime (registry !! ref sm)
  end.

(** [{ ...current, ...updates }] *)
Definition applyUpdates (current : ToolResultSummaryRuntime)
    (updates : RuntimeUpdates) : ToolResultSummaryRuntime := {|
  initialized := default (initialized current) (upd_initialized updates);
  initError :=
    match upd_initError updates with
    | Some e => Some e
    | None => initError current
    end;
  entryCount := default (entryCount current) (upd_entryCount updates);
  lastCleanupAt := default (lastCleanupAt current) (upd_lastCleanupAt updates);
  compactionOccurred :=
    default (compactionOccurred current) (upd_compactionOccurred updates);
  config := config current;
  resolvedDbPath := resolvedDbPath current
|}.

Definition updateToolResultSummaryRuntime
    (registry : gmap nat ToolResultSummaryRuntime)
    (sessionManager : SessionManager) (updates : RuntimeUpdates)
  : gmap nat ToolResultSummaryRuntime :=
  match sessionManager with
  | None => registry
  | Some sm =>
      let current := getToolResultSummaryRuntime registry sessionManager in
      <[ref sm := applyUpdates current updates]> registry
  end.

(** [getRuntime]: the runtime when it carries a configuration. *)
Definition getRuntime (registry : gmap nat ToolResultSummaryRuntime)
    (sessionManager : SessionManager)
  : option (ToolResultSummaryRuntime * Settings.ToolResultSummaryConfig) :=
  let runtime := getToolResultSummaryRuntime registry sessionManager in
  match config runtime with
  | Some cfg => Some (runtime, cfg)
  | None => None
  end.

(** [buildToolResultSummaryExtension] of the embedded runner: the runtime
    is registered when the raw configuration is present and enabled. *)
Definition buildToolResultSummaryExtension
    (registry : gmap nat ToolResultSummaryRuntime)
    (sessionManager : SessionManager) (raw : JS.Value)
  : gmap nat ToolResultSummaryRuntime :=
  if negb (JS.truthy raw) then registry
  else
    match Settings.computeEffectiveSettings raw with
    | Some cfg =>
        if Settings.enabled cfg then
          setToolResultSummaryRuntime registry sessionManager
            (Some {| initialized := false;
                     initError := None;
                     entryCount := 0;
                     lastCleanupAt := None;
                     compactionOccurred := false;
                     config := Some cfg;
                     resolvedDbPath := None |})
        else registry
    | None => registry
    end.

(** ** Messages *)

Inductive Block :=
| TextBlock (text : string)
| OtherBlock (raw : JS.Value).

Inductive MessageContent :=
| ContentString (s : string)
| ContentBlocks (blocks : list Block)
| ContentOther.

(** A message object; [rest] stands for its remaining own properties,
    which a spread copies along. *)
Record Message := {
  role : string;
  content : MessageContent;
  toolCallId : option string;
  rest : JS.Value
}.

Definition withContent (m : Message) (c : MessageContent) : Message := {|
  role := role m;
  content := c;
  toolCallId := toolCallId m;
  rest := rest m
|}.

(** [new object]: allocation at an unused location. *)
Definition alloc (heap : gmap nat Message) (m : Message)
  : gmap nat Message * nat :=
  let l := fresh (dom heap) in (<[l := m]> heap, l).

Definition hasRole (heap : gmap nat Message) (r : string) (l : nat) : bool :=
  match heap !! l with
  | Some m => String.eqb (role m) r
  | None => false
  end.

(** [[...messages].toReversed().find((m) => m.role === "user")] *)
Definition findLastUserMessage (heap : gmap nat Message) (messages : list nat)
  : option nat :=
  List.find (hasRole heap "user") (rev messages).

Definition collectExistingToolCallIds (heap : gmap nat Message)
    (messages : list nat) : gset string :=
  fold_left (fun ids l =>
               match heap !! l with
               | Some m =>
                   match toolCallId m with
                   | Some tc =>
                       if String.eqb (role m) "toolResult"
                          && negb (String.eqb tc "")
                       then ids ∪ {[tc]} else ids
                   | None => ids
                   end
               | None => ids
               end) messages ∅.

Definition getUserMessageText (m : Message) : string :=
  match content m with
  | ContentString s => s
  | ContentBlocks blocks =>
      JS.join JS.nl
        (omap (fun b => match b with
                        | TextBlock text => Some text
                        | OtherBlock _ => None
                        end) blocks)
  | ContentOther => ""
  end.

(** The last component of a path, without a trailing [.json]. *)
Definition isSeparator (c : ascii) : bool :=
  Ascii.eqb c "/"%char || Ascii.eqb c "\"%char.

Fixpoint lastPart (acc : list ascii) (path : list ascii) : list ascii :=
  match path with
  | [] => acc
  | c :: path' => if isSeparator c then lastPart [] path'
                  else lastPart (acc ++ [c]) path'
  end.

Definition stripJsonSuffix (fileName : string) : string :=
  let n := String.length fileName in
  if (5 <=? n)%nat
     && String.eqb (String.substring (n - 5) 5 fileName) ".json"
  then String.substring 0 (n - 5) fileName
  else fileName.

(** A string-valued optional field that is truthy. *)
Definition nonEmpty (field : option string) : option string :=
  match field with
  | Some s => if String.eqb s "" then None else Some s
  | None => None
  end.

Definition getSessionId (sessionManager : SessionManager) : string :=
  match sessionManager with
  | None => "default"
  | Some sm =>
      match nonEmpty (sm_sessionId sm) with
      | Some s => s
      | None =>
          match nonEmpty (sm_sessionFile sm) with
          | Some f =>
              stripJsonSuffix
                (string_of_list_ascii (lastPart [] (list_ascii_of_string f)))
          | None => "default"
          end
      end
  end.

Section WithCollaborators.

Variable JSON_parse : string -> option JS.Value.

(** Modelled from the spec: retriever.ts of this extension is not among the
    sources; [formatResultsForContext] renders a list of results as the
    delimited context block, given [injectFullContent] and
    [maxFullContentChars]. *)
Variable formatResultsForContext :
  list Store.ToolResultSearchResult -> bool -> Z -> string.

(** [buildSearchQuery], [retrieve] and [retrieveAndFormat] follow the
    retriever of the sibling tool-result-vector extension, which delegates
    to the store in the same way. *)

(** [buildSearchQuery({ prompt })], without recent tool calls. *)
Definition buildSearchQuery (prompt : string) : string := JS.trim prompt.

(** [retriever.retrieve]: the search under the retrieval configuration. *)
Definition retrieve (cfg : Settings.RetrievalConfig) (store : Store.Backend)
    (query : string) (sessionId : option string)
  : option (list Store.ToolResultSearchResult) :=
  Store.search JSON_parse store query
    {| Store.limit := Settings.maxResults cfg;
       Store.minScore := Settings.minScore cfg;
       Store.opt_sessionId := sessionId;
       Store.crossSession := Settings.crossSessionSearch cfg |}.

Record FormattedRetrievalResult := {
  contextBlock : string;
  count : Z;
  results : list Store.ToolResultSearchResult
}.

Definition retrieveAndFormat (cfg : Settings.RetrievalConfig)
    (store : Store.Backend) (query : string) (sessionId : option string)
  : option FormattedRetrievalResult :=
  rs ← retrieve cfg store query sessionId;
  match rs with
  | [] => Some {| contextBlock := ""; count := 0; results := [] |}
  | _ =>
      Some {| contextBlock :=
                formatResultsForContext rs
                  (Settings.injectFullContent cfg)
                  (Settings.maxFullContentChars cfg);
              count := Z.of_nat (List.length rs);
              results := rs |}
  end.

(** [result.results.filter(
      (r) => !existingToolCallIds.has(r.entry.toolCallId))] *)
Definition dedup (existingToolCallIds : gset string)
    (rs : list Store.ToolResultSearchResult)
  : list Store.ToolResultSearchResult :=
  List.filter
    (fun r => negb (bool_decide
                      (Store.toolCallId (Store.entry r) ∈ existingToolCallIds)))
    rs.

(** The replacement of one message by the [map] callback. *)
Definition injectInto (contextNote : string) (m : Message) : option Message :=
  match content m with
  | ContentString s => Some (withContent m (ContentString (s +:+ contextNote)))
  | ContentBlocks blocks =>
      Some (withContent m
              (ContentBlocks
                 (map (fun block =>
                         match block with
                         | TextBlock text => TextBlock (text +:+ contextNote)
                         | OtherBlock raw => OtherBlock raw
                         end) blocks)))
  | ContentOther => None
  end.

(** [messages.map(...)]: the callback reads the original objects ([heap0]);
    the new array holds, position by position, the original object or a
    copy allocated in [heap]. *)
Fixpoint mapMessages (lastUserMessage : nat) (contextNote : string)
    (heap0 heap : gmap nat Message) (messages : list nat)
  : gmap nat Message * list nat :=
  match messages with
  | [] => (heap, [])
  | l :: rest =>
      let '(heap1, l') :=
        match heap0 !! l with
        | Some m =>
            if String.eqb (role m) "user" && (l =? lastUserMessage)%nat then
              match injectInto contextNote m with
              | Some m' => alloc heap m'
              | None => (heap, l)
              end
            else (heap, l)
        | None => (heap, l)
        end in
      let '(heap2, out) :=
        mapMessages lastUserMessage contextNote heap0 heap1 rest in
      (heap2, l' :: out)
  end.

(** What the context handler leaves behind: the heap, the replacement
    message list ([None] for [undefined]) and the ids passed to [touch]. *)
Record ContextResult := {
  res_heap : gmap nat Message;
  res_messages : option (list nat);
  res_touched : list string
}.

Definition nothing (heap : gmap nat Message) : ContextResult := {|
  res_heap := heap;
  res_messages := None;
  res_touched := []
|}.

(** The handler of the [context] event.  [services] is the answer of
    [ensureServices] ([None] when initialization failed). *)
Definition contextHandler
    (registry : gmap nat ToolResultSummaryRuntime)
    (sessionManager : SessionManager)
    (services : option Store.Backend)
    (heap : gmap nat Message) (messages : list nat) : ContextResult :=
  match getRuntime registry sessionManager with
  | None => nothing heap
  | Some (runtime, cfg) =>
      if negb (Settings.enabled cfg) then nothing heap
      else if JS.isStr (Settings.mode cfg) "off"
              || JS.isStr (Settings.mode cfg) "store-only"
      then nothing heap
      else if negb (compactionOccurred runtime) then nothing heap
      else
        match findLastUserMessage heap messages with
        | None => nothing heap
        | Some lastUserMessage =>
            let prompt :=
              match heap !! lastUserMessage with
              | Some m => getUserMessageText m
              | None => ""
              end in
            if String.eqb prompt "" || (JS.length (JS.trim prompt) <? 10)
            then nothing heap
            else
              match services with
              | None => nothing heap
              | Some store =>
                  let sessionId := getSessionId sessionManager in
                  let query := buildSearchQuery prompt in
                  match retrieveAndFormat (Settings.retrieval cfg) store query
                                          (Some sessionId) with
                  | None => nothing heap
                  | Some result =>
                      if count result =? 0 then nothing heap
                      else
                        let existingToolCallIds :=
                          collectExistingToolCallIds heap messages in
                        let filteredResults :=
                          dedup existingToolCallIds (results result) in
                        match filteredResults with
                        | [] => nothing heap
                        | _ =>
                            let filteredContextBlock :=
                              formatResultsForContext filteredResults
                                (Settings.injectFullContent
                                   (Settings.retrieval cfg))
                                (Settings.maxFullContentChars
                                   (Settings.retrieval cfg)) in
                            let contextNote :=
                              JS.nl +:+ JS.nl +:+ filteredContextBlock in
                            let '(heap', modifiedMessages) :=
                              mapMessages lastUserMessage contextNote
                                          heap heap messages in
                            {| res_heap := heap';
                               res_messages := Some modifiedMessages;
                               res_touched :=
                                 map (fun r => Store.id (Store.entry r))
                                     filteredResults |}
                        end
                  end
              end
        end
  end.

(** The handler of [tool_result], as far as the registry is concerned.
    [shouldProcess] and the gates run as in the source; [stored] is the
    outcome of the summarize-then-store block: the store's entry count
    when both succeeded, [None] when the summary was not ok or an
    exception was caught. *)
Definition handleToolResult
    (registry : gmap nat ToolResultSummaryRuntime)
    (sessionManager : SessionManager)
    (services : option Store.Backend)
    (eventToolName : string) (eventContent : list JS.ContentBlock)
    (eventIsError : bool) (stored : option Z)
  : gmap nat ToolResultSummaryRuntime :=
  match getRuntime registry sessionManager with
  | None => registry
  | Some (runtime, cfg) =>
      if negb (Settings.enabled cfg) then registry
      else if JS.isStr (Settings.mode cfg) "off"
              || JS.isStr (Settings.mode cfg) "retrieve-only"
      then registry
      else
        match services with
        | None => registry
        | Some _ =>
            if negb (Tools.makeToolFilterPredicate (Settings.tools cfg)
                                                   eventToolName)
            then registry
            else if Tools.estimateContentLength eventContent
                    <? Settings.minContentChars (Settings.tools cfg)
            then registry
            else if eventIsError then registry
            else
              match stored with
              | Some n =>
                  updateToolResultSummaryRuntime registry sessionManager
                    {| upd_initialized := None;
                       upd_initError := None;
                       upd_entryCount := Some n;
                       upd_lastCleanupAt := None;
                       upd_compactionOccurred := None |}
              | None => registry
              end
        end
  end.

(** The handler of [session_before_compact]. *)
Definition sessionBeforeCompact
    (registry : gmap nat ToolResultSummaryRuntime)
    (sessionManager : SessionManager)
  : gmap nat ToolResultSummaryRuntime :=
  updateToolResultSummaryRuntime registry sessionManager
    {| upd_initialized := None;
       upd_initError := None;
       upd_entryCount := None;
       upd_lastCleanupAt := None;
       upd_compactionOccurred := Some true |}.

(** ** Events of a process *)

Inductive Event :=
| SessionStarts (sessionManager : SessionManager) (raw : JS.Value)
| ToolResult (sessionManager : SessionManager)
             (services : option Store.Backend)
             (eventToolName : string) (eventContent : list JS.ContentBlock)
             (eventIsError : bool) (stored : option Z)
| BeforeCompact (sessionManager : SessionManager)
| Context (sessionManager : SessionManager)
          (services : option Store.Backend)
          (heap : gmap nat Message) (messages : list nat).

(** One event: the registry afterwards and, for a context event, what the
    handler returned. *)
Definition dispatch (registry : gmap nat ToolResultSummaryRuntime) (e : Event)
  : gmap nat ToolResultSummaryRuntime * option ContextResult :=
  match e with
  | SessionStarts sm raw =>
      (buildToolResultSummaryExtension registry sm raw, None)
  | ToolResult sm services name blocks isError stored =>
      (handleToolResult registry sm services name blocks isError stored, None)
  | BeforeCompact sm => (sessionBeforeCompact registry sm, None)
  | Context sm services heap messages =>
      (registry, Some (contextHandler registry sm services heap messages))
  end.

(** The registry after a sequence of events. *)
Definition runEvents (registry : gmap nat ToolResultSummaryRuntime)
    (events : list Event) : gmap nat ToolResultSummaryRuntime :=
  fold_left (fun reg e => fst (dispatch reg e)) events registry.

(** An event that sets the compaction latch of a session: the compaction
    event of a session manager with the same identity. *)
Definition compacts (sessionManager : SessionManager) (e : Event) : bool :=
  match sessionManager, e with
  | Some sm, BeforeCompact (Some sm') => (ref sm' =? ref sm)%nat
  | _, _ => false
  end.

End WithCollaborators.

(** [isInitialized(sessionManager)] *)
Definition isInitialized (registry : gmap nat ToolResultSummaryRuntime)
    (sessionManager : SessionManager) : bool :=
  initialized (getToolResultSummaryRuntime registry sessionManager).

(** ** Vocabulary of the properties *)

(** The session manager an event comes with. *)
Definition eventSession (e : Event) : SessionManager :=
  match e with
  | SessionStarts sm _ => sm
  | ToolResult sm _ _ _ _ _ => sm
  | BeforeCompact sm => sm
  | Context sm _ _ _ => sm
  end.

(** Two session managers are the same object. *)
Definition sameSession (a b : SessionManager) : bool :=
  match a, b with
  | Some x, Some y => (ref x =? ref y)%nat
  | _, _ => false
  end.

Definition isSessionStart (e : Event) : bool :=
  match e with
  | SessionStarts _ _ => true
  | _ => false
  end.

(** The runtime value a session starts with under [cfg]. *)
Definition startingRuntime (cfg : Settings.ToolResultSummaryConfig)
  : ToolResultSummaryRuntime := {|
  initialized := false;
  initError := None;
  entryCount := 0;
  lastCleanupAt := None;
  compactionOccurred := false;
  config := Some cfg;
  resolvedDbPath := None
|}.


(** ** Sample inputs *)

Definition sampleSession : SessionManagerObject := {|
  ref := 7;
  sm_sessionId := Some "s1";
  sm_sessionFile := None
|}.

Definition enabledConfig : JS.Value :=
  JS.Obj [("enabled", JS.Bool true); ("mode", JS.Str "full")].

Definition userMessage (text : string) : Message := {|
  role := "user";
  content := ContentString text;
  toolCallId := None;
  rest := JS.Obj [("timestamp", JS.Num (JS.Finite 1))]
|}.

Definition toolResultMessage (tc text : string) : Message := {|
  role := "toolResult";
  content := ContentBlocks [TextBlock text];
  toolCallId := Some tc;
  rest := JS.Obj [("toolName", JS.Str "bash")]
|}.

(** A conversation of three objects: an earlier prompt, a visible tool
    result for the call [call-b], and the latest prompt. *)
Definition sampleHeap : gmap nat Message :=
  {[ 0%nat := userMessage "check the disk please";
     1%nat := toolResultMessage "call-b" "Filesystem 42%";
     2%nat := userMessage "how much disk space is used?" ]}.

Definition sampleMessages : list nat := [0%nat; 1%nat; 2%nat].



(** A parser that reads every text as [null]. *)
Definition sampleParse (json : string) : option JS.Value := Some JS.Null.

(** A formatter that lists the summaries of the results. *)
Definition sampleFormat (rs : list Store.ToolResultSearchResult)
    (includeFullContent : bool) (maxContentChars : Z) : string :=
  "<relevant-tool-results>"
  +:+ JS.join ";" (map (fun r => Store.summary (Store.entry r)) rs)
  +:+ "</relevant-tool-results>".

(** A session that started and stored one tool result, without compaction. *)
Definition eventsBeforeCompaction : list Event :=
  [SessionStarts (Some sampleSession) enabledConfig;
   ToolResult (Some sampleSession) (Some Store.sampleBackend) "bash"
              [JS.TextContent (Summarizer.repeatChar "x" 300)] false (Some 1)].

(** The same session once compaction has been announced. *)
Definition eventsWithCompaction : list Event :=
  eventsBeforeCompaction ++ [BeforeCompact (Some sampleSession)].

End Extension.

(* ===================================================================== *)
(** * Properties of the settings *)
(* ===================================================================== *)

Module SettingsFacts.

Import Settings.

Lemma numberOr_cases {A} (P : A -> Prop) v (f : Q -> A) d :
  (forall q, P (f q)) -> P d -> P (numberOr v f d).
Proof.
  intros Hf Hd. unfold numberOr. destruct (JS.finiteNumber v); auto.
Qed.

Lemma clamp01 (x : Q) :
  (0 <= Qmax 0 (Qmin 1 x))%Q /\ (Qmax 0 (Qmin 1 x) <= 1)%Q.
Proof.
  split.
  - apply Q.le_max_l.
  - apply Q.max_lub.
    + discriminate.
    + apply Q.le_min_l.
Qed.

Lemma default_retrieval_bounded : retrievalBounded DEFAULT_RETRIEVAL_CONFIG.
Proof.
  unfold retrievalBounded; simpl. repeat split; try lia; discriminate.
Qed.

Lemma default_summary_bounded : summaryBounded DEFAULT_SUMMARY_CONFIG.
Proof. unfold summaryBounded; simpl. lia. Qed.

Lemma mergeRetrievalConfig_bounded base override :
  retrievalBounded base -> retrievalBounded (mergeRetrievalConfig base override).
Proof.
  intros (Hlo & Hhi & Hres). unfold retrievalBounded; simpl.
  split; [|split].
  - apply (numberOr_cases (fun q => (0 <= q)%Q)); [intros; apply clamp01 | done].
  - apply (numberOr_cases (fun q => (q <= 1)%Q)); [intros; apply clamp01 | done].
  - apply (numberOr_cases (fun z => 1 <= z <= 20)); [intros; lia | done].
Qed.

Lemma mergeSummaryConfig_bounded base override :
  summaryBounded base -> summaryBounded (mergeSummaryConfig base override).
Proof.
  intros (Hchars & Hsize & Httl). unfold summaryBounded; simpl.
  split; [|split].
  - apply (numberOr_cases (fun z => 50 <= z)); [intros; lia | done].
  - destruct (JS.truthy (JS.prop override "batch")); [|done]. simpl.
    apply (numberOr_cases (fun z => 1 <= z <= 50)); [intros; lia | done].
  - destruct (JS.truthy (JS.prop override "cache")); [|done]. simpl.
    apply (numberOr_cases (fun z => 0 <= z)); [intros; lia | done].
Qed.

(** C10.  Every configuration accepted by [computeEffectiveSettings] (the
    result is not [null]) has [retrieval.minScore] in [0,1],
    [retrieval.maxResults] in [1,20], [summary.maxChars] at least 50,
    [summary.batch.maxSize] in [1,50] and [summary.cache.ttlMs] at least 0,
    whatever the override values are. *)
Theorem computeEffectiveSettings_bounds (raw : JS.Value)
    (cfg : ToolResultSummaryConfig) :
  computeEffectiveSettings raw = Some cfg ->
  (0 <= minScore (retrieval cfg))%Q /\ (minScore (retrieval cfg) <= 1)%Q
  /\ 1 <= maxResults (retrieval cfg) <= 20
  /\ 50 <= maxChars (summary cfg)
  /\ 1 <= batch_maxSize (batch (summary cfg)) <= 50
  /\ 0 <= cache_ttlMs (cache (summary cfg)).
Proof.
  unfold computeEffectiveSettings.
  destruct (negb (JS.truthy raw) || negb (JS.typeofObject raw)); [discriminate|].
  destruct (_ || JS.isStr (JS.prop raw "mode") "off"); [discriminate|].
  intros [= <-]. simpl.
  assert (Hr : retrievalBounded
                 (if JS.truthy (JS.prop raw "retrieval")
                  then mergeRetrievalConfig DEFAULT_RETRIEVAL_CONFIG
                                            (JS.prop raw "retrieval")
                  else DEFAULT_RETRIEVAL_CONFIG)).
  { destruct (JS.truthy (JS.prop raw "retrieval")).
    - apply mergeRetrievalConfig_bounded, default_retrieval_bounded.
    - apply default_retrieval_bounded. }
  assert (Hs : summaryBounded
                 (if JS.truthy (JS.prop raw "summary")
                  then mergeSummaryConfig DEFAULT_SUMMARY_CONFIG
                                          (JS.prop raw "summary")
                  else DEFAULT_SUMMARY_CONFIG)).
  { destruct (JS.truthy (JS.prop raw "summary")).
    - apply mergeSummaryConfig_bounded, default_summary_bounded.
    - apply default_summary_bounded. }
  destruct Hr as (? & ? & ?). destruct Hs as (? & ? & ?). tauto.
Qed.

Lemma computeEffectiveSettings_bounds_witness :
  exists cfg,
    computeEffectiveSettings outOfRangeOverrides = Some cfg
    /\ (0 <= minScore (retrieval cfg))%Q /\ (minScore (retrieval cfg) <= 1)%Q
    /\ 1 <= maxResults (retrieval cfg) <= 20
    /\ 50 <= maxChars (summary cfg)
    /\ 1 <= batch_maxSize (batch (summary cfg)) <= 50
    /\ 0 <= cache_ttlMs (cache (summary cfg)).
Proof.
  eexists. split.
  - vm_compute. reflexivity.
  - apply (computeEffectiveSettings_bounds outOfRangeOverrides).
    vm_compute. reflexivity.
Defined.

End SettingsFacts.

(* ===================================================================== *)
(** * Properties of the JavaScript string operations *)
(* ===================================================================== *)

Module JSFacts.

Import JS.

Lemma length_substring0 (n : nat) (s : string) :
  String.length (String.substring 0 n s) = Nat.min n (String.length s).
Proof.
  revert n. induction s as [|c s IH]; intros [|n]; simpl; auto.
Qed.

Lemma substring0_all (n : nat) (s : string) :
  (String.length s <= n)%nat -> String.substring 0 n s = s.
Proof.
  revert n. induction s as [|c s IH]; intros [|n] H; simpl in *; auto; try lia.
  f_equal. apply IH. lia.
Qed.

Lemma length_append (s t : string) :
  String.length (s +:+ t) = (String.length s + String.length t)%nat.
Proof. induction s as [|c s IH]; simpl; auto. Qed.

(** A slice never exceeds a non-negative bound. *)
Lemma length_slice0 (s : string) (e : Z) :
  0 <= e -> JS.length (slice0 s e) <= e.
Proof.
  intros He. unfold slice0, JS.length.
  rewrite length_substring0.
  destruct (e <? 0) eqn:E; [apply Z.ltb_lt in E; lia|]. lia.
Qed.

(** A slice at or past the end keeps the whole string. *)
Lemma slice0_all (s : string) (e : Z) :
  JS.length s <= e -> slice0 s e = s.
Proof.
  intros He. unfold slice0, JS.length in *.
  destruct (e <? 0) eqn:E; [apply Z.ltb_lt in E; lia|].
  apply substring0_all. lia.
Qed.


Lemma arraySlice0_prefix {A} (a : list A) (e : Z) :
  exists n, arraySlice0 a e = firstn n a.
Proof. unfold arraySlice0. eauto. Qed.

(** ** Trimming and lowercasing on the list of code units *)

Lemma trim_as_list (s : string) :
  list_ascii_of_string (trim s) = trimList (list_ascii_of_string s).
Proof.
  unfold trim, trimEnd, trimStart, trimList.
  now rewrite !list_ascii_of_string_of_list_ascii.
Qed.

Lemma toLowerCase_as_list (s : string) :
  list_ascii_of_string (toLowerCase s) = map lowerChar (list_ascii_of_string s).
Proof. unfold toLowerCase. now rewrite list_ascii_of_string_of_list_ascii. Qed.

Lemma isWhite_lowerChar (c : ascii) : isWhite (lowerChar c) = isWhite c.
Proof. destruct c as [[] [] [] [] [] [] [] []]; reflexivity. Qed.

Lemma lowerChar_idem (c : ascii) : lowerChar (lowerChar c) = lowerChar c.
Proof. destruct c as [[] [] [] [] [] [] [] []]; reflexivity. Qed.

Lemma dropWhite_idem (l : list ascii) : dropWhite (dropWhite l) = dropWhite l.
Proof.
  induction l as [|c l IH]; simpl; auto.
  destruct (isWhite c) eqn:E; auto. simpl. now rewrite E.
Qed.

Lemma dropWhite_map_lower (l : list ascii) :
  dropWhite (map lowerChar l) = map lowerChar (dropWhite l).
Proof.
  induction l as [|c l IH]; simpl; auto.
  rewrite isWhite_lowerChar. destruct (isWhite c); auto.
Qed.

(** What [dropWhite] removes is a prefix. *)
Lemma dropWhite_suffix (l : list ascii) : exists w, l = w ++ dropWhite l.
Proof.
  induction l as [|c l [w Hw]]; simpl.
  - now exists [].
  - destruct (isWhite c).
    + exists (c :: w). simpl. now f_equal.
    + now exists [].
Qed.

(** A prefix of a list without leading white space has none either. *)
Lemma dropWhite_prefix_fixed (p q : list ascii) :
  dropWhite (p ++ q) = p ++ q -> dropWhite p = p.
Proof.
  destruct p as [|c p]; simpl; auto.
  destruct (isWhite c) eqn:E; auto.
  intros H. exfalso.
  destruct (dropWhite_suffix (p ++ q)) as [w Hw].
  assert (Hlen : List.length (dropWhite (p ++ q))
                 = S (List.length (p ++ q))) by now rewrite H.
  apply (f_equal (@List.length ascii)) in Hw.
  rewrite !List.length_app in *. lia.
Qed.

Lemma trimList_idem (l : list ascii) : trimList (trimList l) = trimList l.
Proof.
  unfold trimList.
  assert (Hfix : dropWhite (rev (dropWhite (rev (dropWhite l))))
                 = rev (dropWhite (rev (dropWhite l)))).
  { destruct (dropWhite_suffix (rev (dropWhite l))) as [w Hw].
    apply (dropWhite_prefix_fixed _ (rev w)).
    rewrite <- rev_app_distr, <- Hw, rev_involutive.
    apply dropWhite_idem. }
  rewrite Hfix, rev_involutive. now rewrite dropWhite_idem.
Qed.

Lemma trimList_map_lower (l : list ascii) :
  trimList (map lowerChar l) = map lowerChar (trimList l).
Proof.
  unfold trimList.
  now rewrite dropWhite_map_lower, <- map_rev, dropWhite_map_lower, map_rev.
Qed.

Lemma string_eq_by_list (s t : string) :
  list_ascii_of_string s = list_ascii_of_string t -> s = t.
Proof.
  intros H. rewrite <- (string_of_list_ascii_of_string s),
                    <- (string_of_list_ascii_of_string t). now rewrite H.
Qed.

(** Trimming and lowercasing a second time changes nothing. *)
Lemma normalize_idem (s : string) :
  toLowerCase (trim (toLowerCase (trim s))) = toLowerCase (trim s).
Proof.
  apply string_eq_by_list.
  rewrite !toLowerCase_as_list, !trim_as_list, toLowerCase_as_list, trim_as_list.
  rewrite trimList_map_lower, trimList_idem, map_map.
  apply map_ext. intros c. apply lowerChar_idem.
Qed.

End JSFacts.

(* ===================================================================== *)
(** * Properties of the tool filter *)
(* ===================================================================== *)

Module ToolsFacts.

Import Settings Tools.

(** ** The compiled expression decides the declarative match *)

Lemma regexTest_star (re : list RegexItem) (s : list ascii) :
  regexTest (AnyStar :: re) s
  = regexTest re s
    || match s with
       | c :: s' => negb (isLineTerminator c) && regexTest (AnyStar :: re) s'
       | [] => false
       end.
Proof. destruct s; reflexivity. Qed.

Lemma regexTest_star_split (re : list RegexItem) (s : list ascii) :
  regexTest (AnyStar :: re) s = true ->
  exists w s', s = w ++ s'
               /\ Forall (fun c => isLineTerminator c = false) w
               /\ regexTest re s' = true.
Proof.
  induction s as [|c s IH]; rewrite regexTest_star; intros H.
  - rewrite orb_false_r in H. exists [], []. auto.
  - apply orb_true_iff in H as [H|H].
    + exists [], (c :: s). auto.
    + apply andb_true_iff in H as [Hc H].
      destruct (IH H) as (w & s' & -> & Hw & Hs').
      exists (c :: w), s'. repeat split; auto.
      constructor; auto. now apply negb_true_iff.
Qed.

Lemma regexTest_star_join (re : list RegexItem) (w s : list ascii) :
  Forall (fun c => isLineTerminator c = false) w ->
  regexTest re s = true ->
  regexTest (AnyStar :: re) (w ++ s) = true.
Proof.
  intros Hw Hs. induction Hw as [|c w Hc Hw IH].
  - change ([] ++ s) with s. rewrite regexTest_star, Hs. reflexivity.
  - rewrite <- app_comm_cons, regexTest_star, IH, Hc. apply orb_true_r.
Qed.

Lemma regexTest_GlobMatch (re : list RegexItem) (s : list ascii) :
  regexTest re s = true <-> GlobMatch re s.
Proof.
  split.
  - revert s. induction re as [|[c|] re IH]; intros s H.
    + destruct s; [constructor | discriminate].
    + destruct s as [|c' s]; [discriminate|]. simpl in H.
      apply andb_true_iff in H as [Hc H].
      apply Ascii.eqb_eq in Hc as ->. constructor. auto.
    + apply regexTest_star_split in H as (w & s' & -> & Hw & H).
      constructor; auto.
  - induction 1 as [|c re s _ IH|re w s Hw _ IH].
    + reflexivity.
    + simpl. now rewrite Ascii.eqb_refl, IH.
    + now apply regexTest_star_join.
Qed.

(** ** Escaping and compiling a glob *)

Lemma special_star : isRegexSpecial star = true.
Proof. reflexivity. Qed.

Lemma special_not_plain (c : ascii) :
  isRegexSpecial c = false ->
  Ascii.eqb c backslash = false /\ Ascii.eqb c dot = false
  /\ Ascii.eqb c star = false.
Proof.
  intros H. repeat split; apply Ascii.eqb_neq; intros ->; discriminate H.
Qed.

(** An escaped pattern never begins with a star. *)
Lemma escapeRegExp_head (l : list ascii) (d : ascii) (rest : list ascii) :
  escapeRegExp l = d :: rest -> Ascii.eqb d star = false.
Proof.
  destruct l as [|c l]; [discriminate|]. simpl.
  destruct (isRegexSpecial c) eqn:E; simpl; intros [= <- _].
  - reflexivity.
  - now apply special_not_plain in E.
Qed.

Lemma replaceStars_pair (c d : ascii) (rest : list ascii) :
  replaceStars (c :: d :: rest)
  = if Ascii.eqb c backslash && Ascii.eqb d star
    then dot :: star :: replaceStars rest
    else c :: replaceStars (d :: rest).
Proof. reflexivity. Qed.

Lemma replaceStars_cons (c : ascii) (l : list ascii) :
  replaceStars (c :: escapeRegExp l) = c :: replaceStars (escapeRegExp l).
Proof.
  simpl. destruct (escapeRegExp l) as [|d rest] eqn:E; [reflexivity|].
  rewrite (escapeRegExp_head _ _ _ E), andb_false_r. reflexivity.
Qed.

(** After the replacement, a star of the pattern reads dot-star, a special
    character keeps its backslash, any other character is itself. *)
Lemma replaceStars_escapeRegExp (l : list ascii) :
  replaceStars (escapeRegExp l)
  = flat_map (fun c => if Ascii.eqb c star then [dot; star]
                       else if isRegexSpecial c then [backslash; c]
                       else [c]) l.
Proof.
  induction l as [|c l IH]; [reflexivity|].
  change (escapeRegExp (c :: l))
    with ((if isRegexSpecial c then [backslash; c] else [c]) ++ escapeRegExp l).
  cbn [flat_map].
  destruct (Ascii.eqb_spec c star) as [->|Hne].
  - rewrite special_star.
    change ([backslash; star] ++ escapeRegExp l)
      with (backslash :: star :: escapeRegExp l).
    rewrite replaceStars_pair, IH. reflexivity.
  - destruct (isRegexSpecial c) eqn:E.
    + change ([backslash; c] ++ escapeRegExp l)
        with (backslash :: c :: escapeRegExp l).
      apply Ascii.eqb_neq in Hne.
      rewrite replaceStars_pair, Hne, andb_false_r.
      rewrite replaceStars_cons, IH. reflexivity.
    + change ([c] ++ escapeRegExp l) with (c :: escapeRegExp l).
      rewrite replaceStars_cons, IH. reflexivity.
Qed.

(** The compiled expression is the glob, star for star. *)
Lemma compile_glob (pattern : string) :
  parseRegex (replaceStars (escapeRegExp (list_ascii_of_string pattern)))
  = globToRegex pattern.
Proof.
  rewrite replaceStars_escapeRegExp. unfold globToRegex.
  induction (list_ascii_of_string pattern) as [|c l IH]; [reflexivity|].
  cbn [flat_map map].
  destruct (Ascii.eqb_spec c star) as [->|Hne].
  - simpl. now rewrite IH.
  - destruct (isRegexSpecial c) eqn:E.
    + simpl. now rewrite IH.
    + apply special_not_plain in E as (Hb & Hd & _).
      change ([c] ++ ?x) with (c :: x). rewrite <- IH.
      cbn [app parseRegex]. rewrite Hb, Hd. cbn [andb].
      now destruct (flat_map _ l).
Qed.

Lemma patternTest_compile (p n : string) :
  patternTest (compilePattern p) n = true
  <-> p = "*"
      \/ (includesStar p = false /\ n = p)
      \/ (includesStar p = true
          /\ GlobMatch (globToRegex p) (list_ascii_of_string n)).
Proof.
  unfold compilePattern.
  destruct (String.eqb_spec p "*") as [->|Hne]; simpl.
  { tauto. }
  destruct (includesStar p) eqn:Hstar; simpl.
  - rewrite compile_glob, regexTest_GlobMatch. intuition congruence.
  - rewrite String.eqb_eq. intuition congruence.
Qed.

(** ** [matchesAny] against the configured patterns *)

Lemma matchesAny_matchesSome (toolName : string)
    (patterns : option (list string)) :
  matchesAny (normalizeName toolName) (compilePatterns patterns) = true
  <-> matchesSome toolName patterns.
Proof.
  assert (Hn : JS.toLowerCase (JS.trim (normalizeName toolName))
               = normalizeName toolName)
    by apply JSFacts.normalize_idem.
  unfold matchesAny, compilePatterns, matchesSome. cbv zeta.
  rewrite Hn, existsb_exists. split.
  - intros (cp & Hin & Htest).
    apply in_map_iff in Hin as (p & <- & Hin).
    unfold normalizePatterns in Hin.
    destruct patterns as [ps|]; [|contradiction].
    apply filter_In in Hin as [Hin Hne].
    apply in_map_iff in Hin as (raw & <- & Hraw).
    exists raw. split; [exact Hraw|].
    unfold matchesPattern. fold (normalizeName raw) in *.
    split.
    + apply negb_true_iff, String.eqb_neq in Hne. exact Hne.
    + now apply patternTest_compile.
  - intros (raw & Hraw & Hne & Hm).
    destruct patterns as [ps|]; [|contradiction]. simpl in Hraw.
    exists (compilePattern (normalizeName raw)). split.
    + apply in_map. unfold normalizePatterns. apply filter_In. split.
      * apply (in_map (fun p => JS.toLowerCase (JS.trim p))) in Hraw.
        exact Hraw.
      * apply negb_true_iff, String.eqb_neq. exact Hne.
    + now apply patternTest_compile.
Qed.

Lemma matchesAny_false (toolName : string) (patterns : option (list string)) :
  matchesAny (normalizeName toolName) (compilePatterns patterns) = false
  <-> ~ matchesSome toolName patterns.
Proof.
  rewrite <- matchesAny_matchesSome.
  destruct (matchesAny _ _); intuition congruence.
Qed.

(** Blank entries aside, a pattern list compiles to nothing exactly when
    it is absent or empty. *)
Lemma compilePatterns_nil (patterns : option (list string)) :
  Forall (fun p => normalizeName p <> "") (default [] patterns) ->
  (compilePatterns patterns = [] <-> default [] patterns = []).
Proof.
  intros Hall. unfold compilePatterns, normalizePatterns.
  destruct patterns as [[|p ps]|]; simpl in *; try tauto.
  inversion Hall as [|? ? Hp _]; subst. unfold normalizeName in Hp.
  apply String.eqb_neq in Hp. rewrite Hp. simpl. split; discriminate.
Qed.

(** C4.  For every tool name and every pair of include and exclude pattern
    lists, the predicate built by [makeToolFilterPredicate] answers [false]
    whenever the trimmed, lowercased name matches an exclude pattern, even
    if it also matches an include pattern; when it matches no exclude
    pattern and no include pattern is left after compilation (the include
    list is absent, empty or holds blank entries only, which compilation
    drops) it answers [true]; otherwise it answers [true] exactly when the
    name matches some include pattern. *)
Theorem makeToolFilterPredicate_spec (config : ToolsFilterConfig)
    (toolName : string) :
  (matchesSome toolName (exclude config) ->
   makeToolFilterPredicate config toolName = false)
  /\ (~ matchesSome toolName (exclude config) ->
      compilePatterns (include config) = [] ->
      makeToolFilterPredicate config toolName = true)
  /\ (~ matchesSome toolName (exclude config) ->
      compilePatterns (include config) <> [] ->
      (makeToolFilterPredicate config toolName = true
       <-> matchesSome toolName (include config))).
Proof.
  unfold makeToolFilterPredicate. fold (normalizeName toolName).
  split; [|split].
  - intros H. apply matchesAny_matchesSome in H. now rewrite H.
  - intros H Hnil. apply matchesAny_false in H. rewrite H, Hnil. reflexivity.
  - intros H Hnil. apply matchesAny_false in H. rewrite H.
    rewrite <- matchesAny_matchesSome.
    destruct (compilePatterns (include config)); [congruence|]. reflexivity.
Qed.

Lemma makeToolFilterPredicate_spec_witness :
  matchesSome " TTS_Speak " (exclude sampleFilter)
  /\ matchesSome " TTS_Speak " (include sampleFilter)
  /\ makeToolFilterPredicate sampleFilter " TTS_Speak " = false.
Proof.
  assert (Hex : matchesSome " TTS_Speak " (exclude sampleFilter)).
  { apply matchesAny_matchesSome. vm_compute. reflexivity. }
  split; [exact Hex|]. split.
  - apply matchesAny_matchesSome. vm_compute. reflexivity.
  - exact (proj1 (makeToolFilterPredicate_spec sampleFilter " TTS_Speak ") Hex).
Defined.

End ToolsFacts.

(* ===================================================================== *)
(** * Properties of the summarizer *)
(* ===================================================================== *)

Module SummarizerFacts.

Import Settings Summarizer.

(** ** The insertion-ordered map *)

Lemma mapGet_mapSet_eq {V} (k : string) (v : V) (m : list (string * V)) :
  JS.mapGet k (JS.mapSet k v m) = Some v.
Proof.
  induction m as [|[k' v'] m IH]; simpl.
  - now rewrite String.eqb_refl.
  - destruct (String.eqb k k') eqn:E; simpl; rewrite ?String.eqb_refl, ?E; auto.
Qed.

Lemma Forall_mapDelete {V} (P : string * V -> Prop) k (m : list (string * V)) :
  Forall P m -> Forall P (JS.mapDelete k m).
Proof.
  induction 1 as [|[k' v'] m Hx Hm IH]; simpl; [constructor|].
  destruct (String.eqb k k'); auto.
Qed.

Lemma Forall_mapSet {V} (P : string * V -> Prop) k v (m : list (string * V)) :
  P (k, v) -> Forall P m -> Forall P (JS.mapSet k v m).
Proof.
  intros Hkv. induction 1 as [|[k' v'] m Hx Hm IH]; simpl.
  - repeat constructor; auto.
  - destruct (String.eqb k k'); constructor; auto.
Qed.

Lemma Forall_mapGet {V} (P : string * V -> Prop) k v (m : list (string * V)) :
  Forall P m -> JS.mapGet k m = Some v -> exists k', P (k', v).
Proof.
  induction 1 as [|[k' v'] m Hx Hm IH]; simpl; [discriminate|].
  destruct (String.eqb k k'); [intros [= <-]; eauto | auto].
Qed.

(** ** Length of the fallback *)

Lemma length_ellipsis (s : string) : JS.length (s +:+ "...") = JS.length s + 3.
Proof. unfold JS.length. rewrite JSFacts.length_append. simpl. lia. Qed.

Lemma truncation_within (config : SummaryConfig) (text : string) :
  0 <= maxChars config -> summaryWithin (maxChars config) (truncation config text).
Proof.
  intros Hm. unfold truncation, summaryWithin. rewrite length_ellipsis.
  pose proof (JSFacts.length_slice0 text (maxChars config) Hm) as Hlen.
  split; [lia|]. intros [H|H]; [discriminate | congruence].
Qed.


Section WithPlatform.

Variable md5hex : string -> string.
Variable stringify : JS.Value -> option string.

Local Abbreviation summarize := (Summarizer.summarize md5hex stringify).
Local Abbreviation processBatch := (Summarizer.processBatch md5hex stringify).
Local Abbreviation scheduleBatch := (Summarizer.scheduleBatch md5hex stringify).
Local Abbreviation flushBatch := (Summarizer.flushBatch md5hex stringify).
Local Abbreviation resolveCached := (Summarizer.resolveCached md5hex stringify).
Local Abbreviation resolveGenerated :=
  (Summarizer.resolveGenerated md5hex stringify).
Local Abbreviation generateCacheKey :=
  (Summarizer.generateCacheKey md5hex stringify).
Local Abbreviation hashContent := (Summarizer.hashContent md5hex).
Local Abbreviation step := (Summarizer.step md5hex stringify).
Local Abbreviation run := (Summarizer.run md5hex stringify).

(** ** The cache keeps its summaries within the limit *)

Lemma checkCache_within m key cc now entries entries' answer :
  checkCache key cc now entries = (entries', answer) ->
  cacheWithin m entries ->
  cacheWithin m entries'
  /\ (forall s expired, answer = Some (s, expired) -> JS.length s <= m).
Proof.
  unfold checkCache, cacheWithin. intros H Hc.
  destruct (negb (cache_enabled cc)).
  { injection H as <- <-. split; [done | discriminate]. }
  destruct (JS.mapGet key entries) as [e|] eqn:G.
  2:{ injection H as <- <-. split; [done | discriminate]. }
  destruct (Forall_mapGet _ _ _ _ Hc G) as [k' He]. simpl in He.
  destruct (_ && _); injection H as <- <-; split;
    try (intros s x [= <- <-]; exact He); auto using Forall_mapDelete.
Qed.

Lemma storeInCache_within m key hash s cc now entries :
  JS.length s <= m ->
  cacheWithin m entries ->
  cacheWithin m (storeInCache key hash s cc now entries).
Proof.
  unfold storeInCache, cacheWithin. intros Hs Hc.
  destruct (negb (cache_enabled cc)); [done|].
  apply Forall_mapSet; [exact Hs|].
  destruct (cache_maxEntries cc <=? JS.mapSize entries); [|done].
  destruct entries as [|[k0 e0] rest]; [done|].
  destruct (negb (String.eqb k0 "")); [|done].
  now apply Forall_mapDelete.
Qed.


(** ** Both loops of [processBatch] *)

Lemma resolveCached_spec config now items entries entries' hits uncached :
  resolveCached config now items entries = (entries', hits, uncached) ->
  Permutation (map promise items) (map fst hits ++ map promise uncached)
  /\ Forall (fun pr => isOk (snd pr)) hits
  /\ (forall m, cacheWithin m entries ->
        cacheWithin m entries'
        /\ Forall (fun pr => summaryWithin m (snd pr)) hits).
Proof.
  revert entries entries' hits uncached.
  induction items as [|item rest IH]; intros entries entries' hits uncached H.
  - injection H as <- <- <-. split; [apply perm_nil|].
    split; [constructor|]. intros m Hm. split; [exact Hm | constructor].
  - simpl in H.
    destruct (checkCache _ _ _ entries) as [c1 cached] eqn:C.
    destruct (resolveCached config now rest c1) as [[c2 hs] us] eqn:R.
    destruct (IH _ _ _ _ R) as (Hperm & Hok & Hwithin).
    assert (Hrest : forall m, cacheWithin m entries ->
              cacheWithin m c2 /\ Forall (fun pr => summaryWithin m (snd pr)) hs
              /\ (forall s x, cached = Some (s, x) -> JS.length s <= m)).
    { intros m Hm. destruct (checkCache_within _ _ _ _ _ _ _ C Hm) as [H1 H2].
      destruct (Hwithin m H1). auto. }
    destruct cached as [[s [|]]|]; injection H as <- <- <-; simpl.
    + split; [|split; [exact Hok|intros m Hm; destruct (Hrest m Hm); tauto]].
      now apply Permutation_cons_app.
    + split; [now constructor|]. split; [constructor; simpl; auto|].
      intros m Hm. destruct (Hrest m Hm) as (? & ? & Hs). split; [done|].
      constructor; [|done]. simpl. specialize (Hs s false eq_refl).
      split; [lia | auto].
    + split; [|split; [exact Hok|intros m Hm; destruct (Hrest m Hm); tauto]].
      now apply Permutation_cons_app.
Qed.

Lemma resolveGenerated_spec config later uncached summaries entries entries' rs :
  resolveGenerated config later uncached summaries entries = (entries', rs) ->
  map fst rs = map promise uncached
  /\ Forall (fun pr => isOk (snd pr)) rs
  /\ (0 <= maxChars config ->
      cacheWithin (maxChars config) entries ->
      cacheWithin (maxChars config) entries'
      /\ Forall (fun pr => summaryWithin (maxChars config) (snd pr)) rs).
Proof.
  revert summaries entries entries' rs.
  induction uncached as [|item rest IH]; intros summaries entries entries' rs H.
  - injection H as <- <-. split; [reflexivity|].
    split; [constructor|]. intros Hm Hc. split; [exact Hc | constructor].
  - simpl in H.
    set (summary := match summaries with s :: _ => JS.trim s | [] => "" end) in H.
    destruct (String.eqb summary "") eqn:E.
    + destruct (resolveGenerated config later rest (tl summaries) entries)
        as [c2 rs'] eqn:R.
      injection H as <- <-. destruct (IH _ _ _ _ R) as (Hfst & Hok & Hwithin).
      simpl. split; [now f_equal|]. split; [constructor; simpl; auto|].
      intros Hm Hc. destruct (Hwithin Hm Hc). split; [done|].
      constructor; [|done]. now apply truncation_within.
    + match type of H with
      | context [Summarizer.resolveGenerated _ _ _ _ _ _ ?c] =>
          destruct (resolveGenerated config later rest (tl summaries) c)
            as [c2 rs'] eqn:R
      end.
      injection H as <- <-. destruct (IH _ _ _ _ R) as (Hfst & Hok & Hwithin).
      simpl. split; [now f_equal|]. split; [constructor; simpl; auto|].
      intros Hm Hc.
      pose proof (JSFacts.length_slice0 summary (maxChars config) Hm) as Hlen.
      destruct (Hwithin Hm) as [? ?].
      { now apply storeInCache_within. }
      split; [done|]. constructor; [|done]. simpl. split; [lia | auto].
Qed.

(** ** [processBatch] settles the whole queue *)

Lemma processBatch_spec config llmClient now later st st' rs :
  processBatch config llmClient now later st = (st', rs) ->
  pendingItems st' = []
  /\ batchTimer st' = batchTimer st
  /\ timers st' = timers st
  /\ Permutation (map promise (pendingItems st)) (map fst rs)
  /\ Forall (fun pr => isOk (snd pr)) rs
  /\ (0 <= maxChars config ->
      cacheWithin (maxChars config) (summaryCache st) ->
      cacheWithin (maxChars config) (summaryCache st')
      /\ Forall (fun pr => summaryWithin (maxChars config) (snd pr)) rs).
Proof.
  unfold Summarizer.processBatch. intros H.
  destruct (pendingItems st) as [|item0 items0] eqn:Hitems.
  { injection H as <- <-. simpl. repeat split; auto; constructor. }
  rewrite <- Hitems in *. clear Hitems item0 items0.
  cbn [summaryCache withPending] in H.
  destruct (resolveCached config now (pendingItems st) (summaryCache st))
    as [[c1 hits] uncached] eqn:R.
  destruct (resolveCached_spec _ _ _ _ _ _ _ R) as (Hperm & Hok & Hwithin).
  destruct uncached as [|u0 us] eqn:Hunc.
  { injection H as <- <-. simpl. rewrite app_nil_r in Hperm.
    repeat split; auto. all: intros; now apply Hwithin. }
  rewrite <- Hunc in *. clear Hunc u0 us.
  match type of H with
  | match ?a with _ => _ end = _ => destruct a as [summaries|] eqn:Hanswer
  end.
  - cbn [summaryCache withCache] in H.
    destruct (resolveGenerated config later uncached summaries c1)
      as [c2 resolved] eqn:G.
    destruct (resolveGenerated_spec _ _ _ _ _ _ _ G) as (Hfst & Hok2 & Hwithin2).
    injection H as <- <-. simpl.
    split; [done|]. split; [done|]. split; [done|].
    split; [now rewrite map_app, Hfst|].
    split; [now apply Forall_app|].
    intros Hm Hc. destruct (Hwithin _ Hc) as [Hc1 Hhits].
    destruct (Hwithin2 Hm Hc1). split; [done|]. now apply Forall_app.
  - injection H as <- <-. simpl.
    split; [done|]. split; [done|]. split; [done|].
    split; [now rewrite map_app, map_map|].
    split.
    { apply Forall_app. split; [done|]. apply Forall_map, Forall_forall.
      now intros. }
    intros Hm Hc. destruct (Hwithin _ Hc) as [Hc1 Hhits].
    split; [done|]. apply Forall_app. split; [done|].
    apply Forall_map, Forall_forall. intros item _. simpl.
    now apply truncation_within.
Qed.

Lemma flushBatch_spec config llmClient now later st st' rs :
  flushBatch config llmClient now later st = (st', rs) ->
  pendingItems st' = []
  /\ batchTimer st' = None
  /\ Permutation (map promise (pendingItems st)) (map fst rs)
  /\ Forall (fun pr => isOk (snd pr)) rs.
Proof.
  unfold Summarizer.flushBatch. intros H.
  apply processBatch_spec in H as (Hp & Ht & _ & Hperm & Hok & _).
  repeat split; auto.
  - rewrite Ht. unfold clearBatchTimer.
    destruct (batchTimer st) eqn:E; simpl; auto.
  - revert Hperm. unfold clearBatchTimer.
    destruct (batchTimer st) eqn:E; simpl; auto.
Qed.

Lemma scheduleBatch_spec config llmClient now later st st' rs :
  scheduleBatch config llmClient now later st = (st', rs) ->
  Forall (fun pr => isOk (snd pr)) rs
  /\ (Permutation (map promise (pendingItems st)) (map fst rs)
      \/ (rs = [] /\ pendingItems st' = pendingItems st))
  /\ (0 <= maxChars config ->
      cacheWithin (maxChars config) (summaryCache st) ->
      cacheWithin (maxChars config) (summaryCache st')
      /\ Forall (fun pr => summaryWithin (maxChars config) (snd pr)) rs).
Proof.
  unfold Summarizer.scheduleBatch. intros H.
  destruct (_ <=? _).
  - apply processBatch_spec in H as (_ & _ & _ & Hperm & Hok & Hwithin). auto.
  - destruct (batchTimer st); injection H as <- <-; simpl;
      (split; [constructor|]); (split; [now right|]);
      intros; split; auto; constructor.
Qed.

(** ** [summarize] *)

(** Whatever the model does, every result a call of [summarize] delivers,
    to its own caller or to the callers waiting in the queue, is the ok
    variant; a call that is queued leaves its promise in the queue or
    settles it with the batch it starts. *)
Lemma summarize_delivers_ok config llmClient p now later st st' out rs :
  summarize config llmClient p now later st = (st', out, rs) ->
  Forall (fun pr => isOk (snd pr)) rs
  /\ match out with
     | Settled r => isOk r
     | Queued pr =>
         In pr (map promise (pendingItems st')) \/ In pr (map fst rs)
     end.
Proof.
  unfold Summarizer.summarize. intros H.
  destruct (_ <=? maxChars config).
  { injection H as <- <- <-. split; [constructor | exact I]. }
  destruct (_ <=? minContentForSummarization config).
  { injection H as <- <- <-. split; [constructor | exact I]. }
  destruct (checkCache _ _ _ _) as [c1 cached].
  destruct cached as [[s [|]]|];
    try (injection H as <- <- <-; split; [constructor | exact I]);
    (destruct (batch_enabled (batch config));
     [ unfold enqueue in H;
       destruct (scheduleBatch _ _ _ _ _) as [st3 resolved] eqn:S;
       injection H as <- <- <-;
       apply scheduleBatch_spec in S as (Hok & Hq & _);
       split; [exact Hok|];
       cbn [pendingItems] in Hq; destruct Hq as [Hperm|[-> Hsame]];
       [ right; eapply Permutation_in; [exact Hperm|];
         rewrite map_app; apply in_or_app; right; now left
       | left; rewrite Hsame, map_app; apply in_or_app; right; now left ]
     | destruct (generate _ _ _) as [summary|];
       [ destruct (_ || _); injection H as <- <- <-;
         (split; [constructor | exact I])
       | injection H as <- <- <-; split; [constructor | exact I] ] ]).
Qed.


(** ** Content without text *)

Lemma extractTextContent_hasNoText (blocks : list JS.ContentBlock) :
  hasNoText blocks -> extractTextContent blocks = "".
Proof.
  unfold extractTextContent. intros H.
  assert (Hnil : omap (fun block =>
                         match block with
                         | JS.TextContent text => Some text
                         | JS.ImageContent _ _ => None
                         end) blocks = []).
  { induction H as [|[text|d m] rest Hb _ IH]; simpl; [done | done | exact IH]. }
  now rewrite Hnil.
Qed.

(** C9.  For every content list without text blocks, [summarize] returns
    the ok result with the empty summary and [truncated = false]: nothing
    is extracted, and the empty text meets the verbatim case of any
    non-negative [maxChars] (every effective configuration has
    [maxChars >= 50]). *)
Theorem summarize_without_text config llmClient p now later st :
  0 <= maxChars config ->
  hasNoText (content p) ->
  summarize config llmClient p now later st
  = (st, Settled (Ok "" false None), []).
Proof.
  intros Hm Hno. unfold Summarizer.summarize.
  rewrite (extractTextContent_hasNoText _ Hno).
  change (JS.length "") with 0.
  destruct (0 <=? maxChars config) eqn:E; [reflexivity|].
  apply Z.leb_gt in E. lia.
Qed.

(** ** Cache hits *)

Lemma withCache_same (st : State) : withCache st (summaryCache st) = st.
Proof. now destruct st. Qed.







(** ** The batch timer *)

(** Once [batchTimer] holds the handle of a timeout that is no longer
    scheduled, a call that is queued below the size threshold schedules
    nothing: the request stays in the queue and no timeout remains that
    would process it. *)
Lemma summarize_behind_stale_timer config llmClient p now later st st1 pr rs h :
  batchTimer st = Some h ->
  timers st = ∅ ->
  Z.of_nat (List.length (pendingItems st)) + 1 < batch_maxSize (batch config) ->
  summarize config llmClient p now later st = (st1, Queued pr, rs) ->
  rs = [] /\ timers st1 = ∅ /\ batchTimer st1 = Some h
  /\ In pr (map promise (pendingItems st1)).
Proof.
  intros Hb Ht Hsize. unfold Summarizer.summarize.
  destruct (_ <=? maxChars config); [discriminate|].
  destruct (_ <=? minContentForSummarization config); [discriminate|].
  destruct (checkCache _ _ _ _) as [c1 cached].
  destruct cached as [[s0 [|]]|]; try discriminate;
    (destruct (batch_enabled (batch config));
     [ unfold enqueue, Summarizer.scheduleBatch; cbn [pendingItems batchTimer];
       rewrite List.length_app; simpl List.length;
       destruct (_ <=? _) eqn:E; [apply Z.leb_le in E; lia|];
       cbn [withCache batchTimer]; rewrite Hb;
       intros [= <- <- <-]; cbn;
       repeat split; auto;
       rewrite map_app; apply in_or_app; right; now left
     | destruct (generate _ _ _) as [summary|]; [|discriminate];
       destruct (_ || _); discriminate ]).
Qed.

(** With no timeout scheduled, no timer event changes anything. *)
Lemma step_no_timer st h now later :
  timers st = ∅ -> step st (TimerFires h now later) = (st, None, []).
Proof. intros Ht. simpl. rewrite Ht, lookup_empty. reflexivity. Qed.

(** C1 at its failing input.  Default configuration, a model that fails on
    every call, two text results of 600 characters.  The first call is
    queued and arms the timer; the timer fires and settles the first
    promise with the truncation fallback; the second call is queued while
    [batchTimer] still holds the fired handle, so nothing is scheduled: its
    promise stays in the queue, no timeout is left, and no timer event can
    settle it. *)
Theorem second_summarize_never_settles
    (t1 t1' t2 t2' t3 t3' : Z) :
  let run3 :=
    run initialState
        [Summarize DEFAULT_SUMMARY_CONFIG unavailable
                   (textResult "read" "a" 600) t1 t1';
         TimerFires 0 t2 t2';
         Summarize DEFAULT_SUMMARY_CONFIG unavailable
                   (textResult "grep" "b" 600) t3 t3'] in
  let st := fst (fst run3) in
  snd (fst run3) = [Queued 0; Queued 1]
  /\ snd run3
     = [(0%nat, truncation DEFAULT_SUMMARY_CONFIG (repeatChar "a" 600))]
  /\ map promise (pendingItems st) = [1%nat]
  /\ batchTimer st = Some 0%nat
  /\ timers st = ∅
  /\ (forall h now later, step st (TimerFires h now later) = (st, None, [])).
Proof.
  intros run3 st.
  assert (Hst : timers st = ∅) by (vm_compute; reflexivity).
  split; [vm_compute; reflexivity|].
  split; [vm_compute; reflexivity|].
  split; [vm_compute; reflexivity|].
  split; [vm_compute; reflexivity|].
  split; [exact Hst|].
  intros h now later. now apply step_no_timer.
Qed.

End WithPlatform.

(** The same run with a model that answers: the first summary is a
    completion, and the second promise is stranded all the same. *)
Example second_summarize_stranded_with_working_model :
  let run3 :=
    Summarizer.run (fun x => x) (fun _ => Some "{}") initialState
      [Summarize DEFAULT_SUMMARY_CONFIG constantClient
                 (textResult "read" "a" 600) 0 2;
       TimerFires 0 2000 2002;
       Summarize DEFAULT_SUMMARY_CONFIG constantClient
                 (textResult "grep" "b" 600) 5000 5002] in
  snd (fst run3) = [Queued 0; Queued 1]
  /\ snd run3 = [(0%nat, Ok "Read the file." true (Some false))]
  /\ map promise (pendingItems (fst (fst run3))) = [1%nat]
  /\ timers (fst (fst run3)) = ∅.
Proof. repeat split; vm_compute; reflexivity. Qed.




Lemma summarize_without_text_witness :
  Summarizer.summarize (fun x => x) (fun _ => None) DEFAULT_SUMMARY_CONFIG
    unavailable imageResult 0 0 initialState
  = (initialState, Settled (Ok "" false None), []).
Proof.
  apply summarize_without_text.
  - vm_compute. discriminate.
  - repeat constructor.
Defined.

End SummarizerFacts.

(* ===================================================================== *)
(** * Properties of the store *)
(* ===================================================================== *)

Module StoreFacts.

Import Store.

(** ** The score as a function of the distance *)

Lemma scoreOf_positive (d : Q) : (0 <= d)%Q -> (0 < scoreOf d)%Q.
Proof.
  intros Hd. unfold scoreOf.
  apply Qlt_shift_div_l.
  - apply Qlt_le_trans with 1%Q; [reflexivity|].
    rewrite <- (Qplus_0_r 1) at 1. now apply Qplus_le_r.
  - rewrite Qmult_0_l. reflexivity.
Qed.

Lemma scoreOf_at_most_one (d : Q) : (0 <= d)%Q -> (scoreOf d <= 1)%Q.
Proof.
  intros Hd. unfold scoreOf.
  apply Qle_shift_div_r.
  - apply Qlt_le_trans with 1%Q; [reflexivity|].
    rewrite <- (Qplus_0_r 1) at 1. now apply Qplus_le_r.
  - rewrite Qmult_1_l. rewrite <- (Qplus_0_r 1) at 1. now apply Qplus_le_r.
Qed.

(** A larger distance never gives a larger score. *)
Lemma scoreOf_antitone (d1 d2 : Q) :
  (0 <= d1)%Q -> (d1 <= d2)%Q -> (scoreOf d2 <= scoreOf d1)%Q.
Proof.
  intros H1 H12.
  assert (Hp1 : (0 < 1 + d1)%Q).
  { apply Qlt_le_trans with 1%Q; [reflexivity|].
    rewrite <- (Qplus_0_r 1) at 1. now apply Qplus_le_r. }
  assert (Hp2 : (0 < 1 + d2)%Q).
  { apply Qlt_le_trans with (1 + d1)%Q; [exact Hp1|]. now apply Qplus_le_r. }
  unfold scoreOf. apply Qle_shift_div_l; [exact Hp1|].
  assert (E : (1 / (1 + d2) * (1 + d1) == (1 + d1) / (1 + d2))%Q).
  { field. intros E. rewrite E in Hp2. now apply Qlt_irrefl in Hp2. }
  rewrite E. apply Qle_shift_div_r; [exact Hp2|].
  rewrite Qmult_1_l. now apply Qplus_le_r.
Qed.

(** ** Order is kept by sublists *)

Lemma Forall_sublist {A} (P : A -> Prop) (k l : list A) :
  sublist k l -> Forall P l -> Forall P k.
Proof.
  induction 1 as [|x k l Hsub IH|x k l Hsub IH]; intros Hl.
  - constructor.
  - inversion Hl; subst. constructor; auto.
  - inversion Hl; subst. auto.
Qed.

Lemma StronglySorted_sublist {A} (R : A -> A -> Prop) (k l : list A) :
  sublist k l -> StronglySorted R l -> StronglySorted R k.
Proof.
  induction 1 as [|x k l Hsub IH|x k l Hsub IH]; intros Hs.
  - constructor.
  - apply StronglySorted_inv in Hs as [Hs Hx].
    constructor; [auto|]. eapply Forall_sublist; eauto.
  - apply StronglySorted_inv in Hs as [Hs _]. auto.
Qed.

Section WithJSON.

Variable JSON_parse : string -> option JS.Value.

Local Abbreviation rowToEntry := (Store.rowToEntry JSON_parse).
Local Abbreviation mapRows := (Store.mapRows JSON_parse).
Local Abbreviation search := (Store.search JSON_parse).

(** The loop keeps a sublist of the rows, in order, each with the score of
    its own distance and each passing the threshold. *)
Lemma mapRows_kept options rows mapped :
  mapRows options rows = Some mapped ->
  exists kept,
    sublist kept rows
    /\ Forall2 (fun row r =>
                 In row rows
                 /\ rowToEntry row = Some (entry r)
                 /\ score r = scoreOf (distanceOf row)
                 /\ (minScore options <= score r)%Q) kept mapped.
Proof.
  revert mapped. induction rows as [|row rest IH]; intros mapped H; simpl in H.
  - injection H as <-. exists []. split; constructor.
  - assert (Hweaken : forall kept mapped0,
      Forall2 (fun row0 r =>
                 In row0 rest
                 /\ rowToEntry row0 = Some (entry r)
                 /\ score r = scoreOf (distanceOf row0)
                 /\ (minScore options <= score r)%Q) kept mapped0 ->
      Forall2 (fun row0 r =>
                 In row0 (row :: rest)
                 /\ rowToEntry row0 = Some (entry r)
                 /\ score r = scoreOf (distanceOf row0)
                 /\ (minScore options <= score r)%Q) kept mapped0).
    { intros kept mapped0 Hall. eapply Forall2_impl; [exact Hall|].
      intros row0 r (Hin & Hrest). split; [now right | exact Hrest]. }
    destruct (rowToEntry row) as [e|] eqn:He; [|discriminate]. simpl in H.
    destruct (otherSession options e).
    { destruct (IH _ H) as (kept & Hsub & Hall).
      exists kept. split; [now constructor | auto]. }
    destruct (Qle_bool _ _) eqn:Hscore.
    + destruct (mapRows options rest) as [mapped'|] eqn:Hrest; [|discriminate].
      injection H as <-.
      destruct (IH _ eq_refl) as (kept & Hsub & Hall).
      exists (row :: kept). split; [now constructor|].
      constructor; [|auto]. simpl.
      split; [now left|]. split; [exact He|]. split; [reflexivity|].
      now apply Qle_bool_imp_le.
    + destruct (IH _ H) as (kept & Hsub & Hall).
      exists kept. split; [now constructor | auto].
Qed.

Lemma scores_sorted (kept : list Row) (mapped : list ToolResultSearchResult) :
  distanceOrdered kept ->
  Forall2 (fun row r => score r = scoreOf (distanceOf row)) kept mapped ->
  StronglySorted (fun a b => (score b <= score a)%Q) mapped.
Proof.
  intros [Hs Hpos] Hall.
  induction Hall as [|row r kept mapped Hr Hall IH]; [constructor|].
  apply StronglySorted_inv in Hs as [Hs Hrow].
  inversion Hpos as [|? ? Hd Hpos']; subst.
  constructor; [auto|].
  clear IH Hs. induction Hall as [|row' r' kept mapped Hr' Hall IH];
    [constructor|].
  inversion Hrow; subst. inversion Hpos'; subst.
  constructor; [|auto].
  rewrite Hr, Hr'. now apply scoreOf_antitone.
Qed.

(** C2.  Provided the vector search answers with candidates in
    non-decreasing order of (non-negative) distance, every result of
    [search] scores at least [minScore], its score is [1 / (1 + distance)]
    for the distance of the candidate row it was built from, hence lies in
    (0, 1], and the results come in non-increasing order of score. *)
Theorem search_scores backend query options results :
  (forall queryVector rows,
     embedQuery backend query = Some queryVector ->
     vectorSearch backend queryVector (limit options * 2) = Some rows ->
     distanceOrdered rows) ->
  search backend query options = Some results ->
  Forall (fun r =>
            (minScore options <= score r)%Q
            /\ (0 < score r)%Q /\ (score r <= 1)%Q
            /\ exists queryVector rows row,
                 embedQuery backend query = Some queryVector
                 /\ vectorSearch backend queryVector (limit options * 2)
                    = Some rows
                 /\ In row rows
                 /\ rowToEntry row = Some (entry r)
                 /\ score r = scoreOf (distanceOf row)) results
  /\ StronglySorted (fun a b => (score b <= score a)%Q) results.
Proof.
  intros Hordered. unfold Store.search.
  destruct (embedQuery backend query) as [queryVector|] eqn:Hq; [|discriminate].
  simpl.
  destruct (vectorSearch backend queryVector (limit options * 2))
    as [rows|] eqn:Hrows; [|discriminate].
  simpl.
  destruct (mapRows options rows) as [mapped|] eqn:Hmapped; [|discriminate].
  simpl. intros [= <-].
  destruct (Hordered _ _ eq_refl Hrows) as [Hsorted Hpos].
  destruct (mapRows_kept _ _ _ Hmapped) as (kept & Hsub & Hall).
  assert (Hkept : distanceOrdered kept).
  { split; [eapply StronglySorted_sublist | eapply Forall_sublist]; eauto. }
  assert (Hevery :
    Forall (fun r =>
              (minScore options <= score r)%Q
              /\ (0 < score r)%Q /\ (score r <= 1)%Q
              /\ exists queryVector0 rows0 row,
                   Some queryVector = Some queryVector0
                   /\ vectorSearch backend queryVector0 (limit options * 2)
                      = Some rows0
                   /\ In row rows0
                   /\ rowToEntry row = Some (entry r)
                   /\ score r = scoreOf (distanceOf row)) mapped).
  { destruct Hkept as [_ Hkpos]. clear Hmapped Hsub.
    induction Hall as [|row r kept mapped (Hin & He & Hs & Hmin) Hall IH];
      [constructor|].
    inversion Hkpos as [|? ? Hd Hkpos']; subst.
    constructor; [|now apply IH].
    split; [exact Hmin|]. rewrite Hs.
    split; [now apply scoreOf_positive|].
    split; [now apply scoreOf_at_most_one|].
    exists queryVector, rows, row. rewrite <- Hs. auto. }
  assert (Hdesc : StronglySorted (fun a b => (score b <= score a)%Q) mapped).
  { apply (scores_sorted kept); [exact Hkept|].
    eapply Forall2_impl; [exact Hall|]. intros row r (_ & _ & Hs & _). exact Hs. }
  destruct (JSFacts.arraySlice0_prefix mapped (limit options)) as [n ->].
  split.
  - eapply Forall_sublist; [apply sublist_take | exact Hevery].
  - eapply StronglySorted_sublist; [apply sublist_take | exact Hdesc].
Qed.

End WithJSON.

Lemma search_scores_witness :
  exists results,
    Store.search (fun _ => Some JS.Null) sampleBackend "disk" sampleOptions
    = Some results
    /\ map score results = [scoreOf 0; scoreOf 1]
    /\ StronglySorted (fun a b => (score b <= score a)%Q) results.
Proof.
  eexists. split; [vm_compute; reflexivity|]. split; [reflexivity|].
  refine (proj2 (search_scores (fun _ => Some JS.Null) sampleBackend "disk"
                               sampleOptions _ _ _)).
  - intros queryVector rows _ [= <-]. split.
    + repeat constructor; vm_compute; discriminate.
    + repeat constructor; vm_compute; discriminate.
  - vm_compute. reflexivity.
Defined.

End StoreFacts.

(* ===================================================================== *)
(** * Properties of the extension *)
(* ===================================================================== *)

Module ExtensionFacts.

Import Extension.

(** ** The compaction latch in the registry *)

Lemma getRuntime_set (registry : gmap nat ToolResultSummaryRuntime)
    (target : SessionManager) (value : ToolResultSummaryRuntime)
    (sm : SessionManagerObject) :
  getToolResultSummaryRuntime
    (setToolResultSummaryRuntime registry target (Some value)) (Some sm)
  = match target with
    | Some t => if decide (ref t = ref sm) then value
                else getToolResultSummaryRuntime registry (Some sm)
    | None => getToolResultSummaryRuntime registry (Some sm)
    end.
Proof.
  destruct target as [t|]; [|reflexivity].
  unfold getToolResultSummaryRuntime, setToolResultSummaryRuntime.
  destruct (decide (ref t = ref sm)) as [->|Hne].
  - now rewrite lookup_insert_eq.
  - now rewrite lookup_insert_ne.
Qed.

Lemma getRuntime_update (registry : gmap nat ToolResultSummaryRuntime)
    (target : SessionManager) (updates : RuntimeUpdates)
    (sm : SessionManagerObject) :
  getToolResultSummaryRuntime
    (updateToolResultSummaryRuntime registry target updates) (Some sm)
  = match target with
    | Some t =>
        if decide (ref t = ref sm)
        then applyUpdates (getToolResultSummaryRuntime registry (Some sm))
                          updates
        else getToolResultSummaryRuntime registry (Some sm)
    | None => getToolResultSummaryRuntime registry (Some sm)
    end.
Proof.
  destruct target as [t|]; [|reflexivity].
  unfold updateToolResultSummaryRuntime, getToolResultSummaryRuntime.
  destruct (decide (ref t = ref sm)) as [E|Hne].
  - rewrite E, lookup_insert_eq. reflexivity.
  - now rewrite lookup_insert_ne.
Qed.

(** An update that does not mention the latch leaves it alone. *)
Lemma update_keeps_latch registry target updates sm :
  upd_compactionOccurred updates = None ->
  compactionOccurred
    (getToolResultSummaryRuntime
       (updateToolResultSummaryRuntime registry target updates) (Some sm))
  = compactionOccurred (getToolResultSummaryRuntime registry (Some sm)).
Proof.
  intros Hu. rewrite getRuntime_update.
  destruct target as [t|]; [|reflexivity].
  destruct (decide _); [|reflexivity]. simpl. now rewrite Hu.
Qed.

(** ** Visible tool-call ids *)




(** A tool-result message whose [toolCallId] is the empty string passes
    for one without an id: the guard of [collectExistingToolCallIds] tests
    the field for truth. *)
Example empty_id_not_collected :
  collectExistingToolCallIds
    {[ 0%nat := toolResultMessage "" "Filesystem 42%" ]} [0%nat] = ∅.
Proof. vm_compute. reflexivity. Qed.


(** ** The new message list *)



Lemma find_last_user heap messages l :
  findLastUserMessage heap messages = Some l ->
  In l messages /\ exists m, heap !! l = Some m /\ role m = "user".
Proof.
  unfold findLastUserMessage. intros H. apply find_some in H as [Hin Hrole].
  split; [now apply in_rev|].
  unfold hasRole in Hrole. destruct (heap !! l) as [m|]; [|discriminate].
  exists m. split; [reflexivity|]. now apply String.eqb_eq.
Qed.

Section WithCollaborators.

Variable JSON_parse : string -> option JS.Value.
Variable formatResultsForContext :
  list Store.ToolResultSearchResult -> bool -> Z -> string.

Local Abbreviation contextHandler :=
  (Extension.contextHandler JSON_parse formatResultsForContext).
Local Abbreviation dispatch :=
  (Extension.dispatch JSON_parse formatResultsForContext).
Local Abbreviation runEvents :=
  (Extension.runEvents JSON_parse formatResultsForContext).
Local Abbreviation retrieve := (Extension.retrieve JSON_parse).
Local Abbreviation retrieveAndFormat :=
  (Extension.retrieveAndFormat JSON_parse formatResultsForContext).

(** Only the compaction event of a session sets its latch. *)
Lemma dispatch_keeps_latch registry e sm :
  compacts (Some sm) e = false ->
  compactionOccurred (getToolResultSummaryRuntime registry (Some sm)) = false ->
  compactionOccurred
    (getToolResultSummaryRuntime (fst (dispatch registry e)) (Some sm)) = false.
Proof.
  intros Hnot Hlatch. destruct e as [target raw|target services name blocks
                                     isErr stored|target|target services heap
                                     messages];
    unfold Extension.dispatch; cbn [fst].
  - unfold buildToolResultSummaryExtension.
    destruct (negb (JS.truthy raw)); [exact Hlatch|].
    destruct (Settings.computeEffectiveSettings raw) as [cfg|]; [|exact Hlatch].
    destruct (Settings.enabled cfg); [|exact Hlatch].
    rewrite getRuntime_set. destruct target as [t|]; [|exact Hlatch].
    destruct (decide _); [reflexivity | exact Hlatch].
  - unfold handleToolResult.
    repeat case_match; try exact Hlatch.
    now rewrite update_keeps_latch.
  - unfold sessionBeforeCompact. rewrite getRuntime_update.
    destruct target as [t|]; [|exact Hlatch]. cbn [compacts] in Hnot.
    destruct (decide (ref t = ref sm)) as [E|Hne]; [|exact Hlatch].
    rewrite E, Nat.eqb_refl in Hnot. discriminate.
  - exact Hlatch.
Qed.

Lemma runEvents_keeps_latch events registry sm :
  (forall e, In e events -> compacts (Some sm) e = false) ->
  compactionOccurred (getToolResultSummaryRuntime registry (Some sm)) = false ->
  compactionOccurred
    (getToolResultSummaryRuntime (runEvents registry events) (Some sm)) = false.
Proof.
  revert registry. induction events as [|e events IH]; intros registry Hall Hlatch.
  - exact Hlatch.
  - simpl. apply IH.
    + intros e' He'. apply Hall. now right.
    + apply dispatch_keeps_latch; [apply Hall; now left | exact Hlatch].
Qed.

(** C5.  Take any sequence of events that holds no compaction event of a
    session, from a registry in which the session's latch is not set (the
    empty registry of a fresh process, for one).  A context event handled
    for the session after that sequence returns [undefined] and touches
    nothing: no context block is injected, whatever the store holds. *)
Theorem no_injection_before_compaction
    registry events sessionManager services heap messages :
  compactionOccurred (getToolResultSummaryRuntime registry sessionManager)
  = false ->
  (forall e, In e events -> compacts sessionManager e = false) ->
  contextHandler (runEvents registry events) sessionManager services
                 heap messages
  = nothing heap.
Proof.
  intros Hlatch Hall.
  assert (Hnow : compactionOccurred
                   (getToolResultSummaryRuntime (runEvents registry events)
                                                sessionManager) = false).
  { destruct sessionManager as [sm|]; [|reflexivity].
    now apply runEvents_keeps_latch. }
  unfold Extension.contextHandler, getRuntime.
  destruct (config _) as [cfg|]; [|reflexivity].
  destruct (negb (Settings.enabled cfg)); [reflexivity|].
  destruct (_ || _); [reflexivity|].
  now rewrite Hnow.
Qed.

(** ** When the handler injects *)

(** The handler answers with a replacement list only after all its gates:
    a configured, enabled, latched runtime, a latest user message with a
    prompt of at least ten characters, services, a successful retrieval,
    and at least one result left by deduplication.  The answer is then the
    mapped list. *)
Lemma contextHandler_injects registry sm services heap messages out :
  res_messages (contextHandler registry sm services heap messages) = Some out ->
  exists runtime cfg lastUser m store retrieved,
    getRuntime registry sm = Some (runtime, cfg)
    /\ compactionOccurred runtime = true
    /\ findLastUserMessage heap messages = Some lastUser
    /\ heap !! lastUser = Some m
    /\ 10 <= JS.length (JS.trim (getUserMessageText m))
    /\ services = Some store
    /\ retrieve (Settings.retrieval cfg) store
                (buildSearchQuery (getUserMessageText m))
                (Some (getSessionId sm)) = Some retrieved
    /\ dedup (collectExistingToolCallIds heap messages) retrieved <> []
    /\ contextHandler registry sm services heap messages
       = let kept :=
           dedup (collectExistingToolCallIds heap messages) retrieved in
         let contextNote :=
           JS.nl +:+ JS.nl
           +:+ formatResultsForContext kept
                 (Settings.injectFullContent (Settings.retrieval cfg))
                 (Settings.maxFullContentChars (Settings.retrieval cfg)) in
         let mapped := mapMessages lastUser contextNote heap heap messages in
         {| res_heap := fst mapped;
            res_messages := Some (snd mapped);
            res_touched := map (fun r => Store.id (Store.entry r)) kept |}.
Proof.
  unfold Extension.contextHandler.
  destruct (getRuntime registry sm) as [[runtime cfg]|] eqn:Hrt; [|discriminate].
  destruct (negb (Settings.enabled cfg)); [discriminate|].
  destruct (_ || _); [discriminate|].
  destruct (compactionOccurred runtime) eqn:Hlatch; [|discriminate].
  cbn [negb].
  destruct (findLastUserMessage heap messages) as [lastUser|] eqn:Hlast;
    [|discriminate].
  destruct (find_last_user _ _ _ Hlast) as (_ & m & Hm & _). rewrite Hm.
  destruct (String.eqb _ "" || _) eqn:Hprompt; [discriminate|].
  apply orb_false_iff in Hprompt as [_ Hlen]. apply Z.ltb_ge in Hlen.
  destruct services as [store|]; [|discriminate].
  unfold Extension.retrieveAndFormat.
  destruct (retrieve _ store _ _) as [retrieved|] eqn:Hretrieve; [|discriminate].
  cbn [mbind option_bind].
  destruct retrieved as [|r0 retrieved']; [discriminate|].
  cbn [count results].
  destruct (Z.of_nat (List.length (r0 :: retrieved')) =? 0) eqn:Hcount.
  { apply Z.eqb_eq in Hcount. simpl in Hcount. lia. }
  destruct (dedup _ (r0 :: retrieved')) as [|k0 kept'] eqn:Hkept; [discriminate|].
  intros _. exists runtime, cfg, lastUser, m, store, (r0 :: retrieved').
  rewrite Hkept. repeat split; try done.
  cbv zeta. now destruct (mapMessages _ _ _ _ _).
Qed.




End WithCollaborators.

Lemma no_injection_before_compaction_witness :
  Extension.contextHandler sampleParse sampleFormat
    (Extension.runEvents sampleParse sampleFormat ∅ eventsBeforeCompaction)
    (Some sampleSession) (Some Store.sampleBackend) sampleHeap sampleMessages
  = nothing sampleHeap.
Proof.
  apply no_injection_before_compaction.
  - reflexivity.
  - intros e [<-|[<-|[]]]; reflexivity.
Defined.

(** The same context event after the compaction event does inject: the
    latest user message is replaced by a copy that carries the block. *)
Example injection_after_compaction :
  let result :=
    Extension.contextHandler sampleParse sampleFormat
      (Extension.runEvents sampleParse sampleFormat ∅ eventsWithCompaction)
      (Some sampleSession) (Some Store.sampleBackend)
      sampleHeap sampleMessages in
  res_messages result = Some [0%nat; 1%nat; 3%nat]
  /\ res_touched result = ["a"]
  /\ content <$> res_heap result !! 3%nat
     = Some (ContentString
               ("how much disk space is used?" +:+ JS.nl +:+ JS.nl
                +:+ "<relevant-tool-results>disk usage 42%"
                +:+ "</relevant-tool-results>")).
Proof. repeat split; vm_compute; reflexivity. Qed.



End ExtensionFacts.

(* ===================================================================== *)
(** * Properties of content truncation and of glob patterns *)
(* ===================================================================== *)

Module ContentFacts.

Import Settings Tools.

Lemma length_nonneg (s : string) : 0 <= JS.length s.
Proof. unfold JS.length. lia. Qed.

Lemma textLength_nonneg (content : list JS.ContentBlock) :
  0 <= textLength content.
Proof.
  induction content as [|[text|d m] rest IH]; simpl;
    [lia | pose proof (length_nonneg text); lia | exact IH].
Qed.

Lemma estimate_from (content : list JS.ContentBlock) (z : Z) :
  fold_left (fun length block =>
               match block with
               | JS.TextContent text => length + JS.length text
               | JS.ImageContent _ _ => length + 1000
               end) content z
  = z + estimateContentLength content.
Proof.
  unfold estimateContentLength. revert z.
  induction content as [|block rest IH]; intros z; simpl; [lia|].
  rewrite IH, (IH (match block with
                   | JS.TextContent text => 0 + JS.length text
                   | JS.ImageContent _ _ => 0 + 1000
                   end)).
  destruct block; lia.
Qed.

Lemma estimate_cons (block : JS.ContentBlock) (rest : list JS.ContentBlock) :
  estimateContentLength (block :: rest)
  = match block with
    | JS.TextContent text => JS.length text
    | JS.ImageContent _ _ => 1000
    end + estimateContentLength rest.
Proof.
  unfold estimateContentLength at 1. simpl. rewrite estimate_from.
  destruct block; lia.
Qed.

Lemma estimate_app (a b : list JS.ContentBlock) :
  estimateContentLength (a ++ b)
  = estimateContentLength a + estimateContentLength b.
Proof.
  induction a as [|block a IH]; simpl.
  - unfold estimateContentLength at 2. simpl. lia.
  - rewrite !estimate_cons, IH. lia.
Qed.

Lemma estimate_texts (content : list JS.ContentBlock) :
  Forall (fun block => isText block = true) content ->
  estimateContentLength content = textLength content.
Proof.
  induction 1 as [|[text|d m] rest Hb _ IH]; [reflexivity| |discriminate].
  rewrite estimate_cons. simpl. lia.
Qed.

Lemma truncateLoop_spent (content : list JS.ContentBlock) :
  truncateLoop content 0 = [].
Proof. now destruct content. Qed.

Lemma truncateLoop_bound (content : list JS.ContentBlock) (remaining : Z) :
  Forall (fun block => isText block = true) (truncateLoop content remaining)
  /\ textLength (truncateLoop content remaining) <= Z.max 0 remaining + 3.
Proof.
  revert remaining.
  induction content as [|[text|d m] rest IH]; intros remaining; simpl.
  - split; [constructor | lia].
  - destruct (Z.leb_spec remaining 0) as [Hle|Hpos]; [split; [constructor|simpl; lia]|].
    destruct (Z.leb_spec (JS.length text) remaining) as [Hfit|Hcut].
    + destruct (IH (remaining - JS.length text)) as [Hall Hlen].
      split; [now constructor|]. simpl. lia.
    + rewrite truncateLoop_spent. split; [now repeat constructor|].
      simpl. rewrite SummarizerFacts.length_ellipsis.
      pose proof (JSFacts.length_slice0 text remaining). lia.
  - destruct (Z.leb_spec remaining 0); [split; [constructor|simpl; lia]|].
    apply IH.
Qed.

(** X1.  What [truncateContent] returns holds text blocks only, and at most
    [maxChars] characters plus the three of an ellipsis; for a budget that
    is not positive it is empty. *)
Theorem truncateContent_bound (content : list JS.ContentBlock) (maxChars : Z) :
  Forall (fun block => isText block = true) (truncateContent content maxChars)
  /\ estimateContentLength (truncateContent content maxChars)
     <= Z.max 0 maxChars + 3
  /\ (maxChars <= 0 -> truncateContent content maxChars = []).
Proof.
  unfold truncateContent.
  destruct (truncateLoop_bound content maxChars) as [Hall Hlen].
  split; [exact Hall|]. split.
  - now rewrite estimate_texts.
  - intros Hle. destruct content as [|block rest]; [reflexivity|]. simpl.
    now destruct (Z.leb_spec maxChars 0); [|lia].
Qed.

(** X2.  Content whose text is shorter than the budget loses its images and
    nothing else: every text block is kept as it is, in order. *)
Theorem truncateContent_fits (content : list JS.ContentBlock) (maxChars : Z) :
  textLength content < maxChars ->
  truncateContent content maxChars = textBlocks content.
Proof.
  unfold truncateContent, textBlocks. revert maxChars.
  induction content as [|[text|d m] rest IH]; intros maxChars Hfit; simpl in *.
  - reflexivity.
  - pose proof (textLength_nonneg rest). pose proof (length_nonneg text).
    destruct (Z.leb_spec maxChars 0); [lia|].
    destruct (Z.leb_spec (JS.length text) maxChars); [|lia].
    f_equal. apply IH. lia.
  - pose proof (textLength_nonneg rest).
    destruct (Z.leb_spec maxChars 0); [lia|]. now apply IH.
Qed.

Lemma truncateContent_fits_witness :
  textLength [JS.TextContent "ab"; JS.ImageContent "iVBORw0KGgo=" "image/png";
              JS.TextContent ""] < 3
  /\ truncateContent
       [JS.TextContent "ab"; JS.ImageContent "iVBORw0KGgo=" "image/png";
        JS.TextContent ""] 3
     = [JS.TextContent "ab"; JS.TextContent ""].
Proof.
  split; [reflexivity|].
  apply (truncateContent_fits
           [JS.TextContent "ab"; JS.ImageContent "iVBORw0KGgo=" "image/png";
            JS.TextContent ""] 3).
  reflexivity.
Defined.

(** X3.  [truncateContent] keeps a prefix of the text blocks, in order, and cuts
    at most one block, the next one: the cut block holds the characters the
    budget still allowed, followed by an ellipsis. *)
Theorem truncateContent_prefix (content : list JS.ContentBlock) (maxChars : Z) :
  exists n : nat,
    truncateContent content maxChars = firstn n (textBlocks content)
    \/ exists text,
         nth_error (textBlocks content) n = Some (JS.TextContent text)
         /\ 0 < maxChars - textLength (firstn n (textBlocks content))
            < JS.length text
         /\ truncateContent content maxChars
            = firstn n (textBlocks content)
              ++ [JS.TextContent
                    (JS.slice0 text
                       (maxChars - textLength (firstn n (textBlocks content)))
                     +:+ "...")].
Proof.
  unfold truncateContent, textBlocks. revert maxChars.
  induction content as [|[text|d m] rest IH]; intros maxChars; simpl.
  - exists 0%nat. now left.
  - destruct (Z.leb_spec maxChars 0) as [Hle|Hpos]; [exists 0%nat; now left|].
    destruct (Z.leb_spec (JS.length text) maxChars) as [Hfit|Hcut].
    + destruct (IH (maxChars - JS.length text)) as [n [E|(t & Hn & Hr & E)]];
        exists (S n); [left|right; exists t]; simpl; rewrite E.
      * reflexivity.
      * replace (maxChars - (JS.length text
                             + textLength (firstn n (List.filter isText rest))))
          with (maxChars - JS.length text
                - textLength (firstn n (List.filter isText rest))) by lia.
        repeat split; [exact Hn | lia | lia].
    + exists 0%nat. right. exists text. simpl.
      rewrite truncateLoop_spent, Z.sub_0_r. repeat split; [lia | lia].
  - destruct (Z.leb_spec maxChars 0) as [Hle|Hpos]; [exists 0%nat; now left|].
    apply IH.
Qed.

(** ** The tool filter *)

(** The filter reads a tool name up to surrounding white space and letter
    case. *)
Theorem makeToolFilterPredicate_normalized
    (config : ToolsFilterConfig) (toolName : string) :
  makeToolFilterPredicate config (normalizeName toolName)
  = makeToolFilterPredicate config toolName.
Proof.
  unfold makeToolFilterPredicate, matchesAny, normalizeName.
  now rewrite !JSFacts.normalize_idem.
Qed.

(** ** Globs that end in a star *)

Lemma list_append (s t : string) :
  list_ascii_of_string (s +:+ t)
  = list_ascii_of_string s ++ list_ascii_of_string t.
Proof. induction s as [|c s IH]; simpl; [reflexivity | now rewrite IH]. Qed.

Lemma globToRegex_append (p q : string) :
  globToRegex (p +:+ q) = globToRegex p ++ globToRegex q.
Proof. unfold globToRegex. now rewrite list_append, map_app. Qed.

Lemma globToRegex_plain (p : string) :
  includesStar p = false ->
  globToRegex p = map Lit (list_ascii_of_string p).
Proof.
  unfold includesStar, globToRegex.
  induction (list_ascii_of_string p) as [|c l IH]; simpl; [reflexivity|].
  intros H. apply orb_false_iff in H as [Hc Hl]. now rewrite Hc, IH.
Qed.

Lemma GlobMatch_literals (l : list ascii) (re : list RegexItem)
    (s : list ascii) :
  GlobMatch (map Lit l ++ re) s <-> exists s', s = l ++ s' /\ GlobMatch re s'.
Proof.
  revert s. induction l as [|c l IH]; intros s; simpl.
  - split; [eauto | now intros (s' & -> & H)].
  - split.
    + inversion 1 as [|c' re' s0 Hrest|]; subst.
      apply IH in Hrest as (s' & -> & H'). eauto.
    + intros (s' & -> & H). constructor. apply IH. eauto.
Qed.

Lemma GlobMatch_any (s : list ascii) :
  GlobMatch [AnyStar] s <-> Forall (fun c => isLineTerminator c = false) s.
Proof.
  split.
  - inversion 1 as [| |re w s0 Hw Hnil]; subst.
    inversion Hnil; subst. now rewrite app_nil_r.
  - intros H. rewrite <- (app_nil_r s). constructor; [exact H | constructor].
Qed.

Lemma trailing_star (prefix name : string) :
  prefix <> "" ->
  includesStar prefix = false ->
  (patternTest (compilePattern (prefix +:+ "*")) name = true
   <-> exists rest, name = prefix +:+ rest /\ singleLine rest).
Proof.
  intros Hne Hplain.
  assert (Hstar : includesStar (prefix +:+ "*") = true).
  { unfold includesStar. rewrite list_append, existsb_app. simpl.
    now rewrite orb_true_r. }
  assert (Hlone : prefix +:+ "*" <> "*").
  { destruct prefix as [|c [|d q]]; cbv [String.append]; congruence. }
  rewrite ToolsFacts.patternTest_compile, globToRegex_append.
  rewrite (globToRegex_plain _ Hplain).
  change (globToRegex "*") with [AnyStar].
  rewrite GlobMatch_literals. split.
  - intros [E|[[E _]|[_ (s' & Hs & Hm)]]]; [congruence | congruence |].
    apply GlobMatch_any in Hm.
    exists (string_of_list_ascii s'). split.
    + apply JSFacts.string_eq_by_list.
      now rewrite list_append, list_ascii_of_string_of_list_ascii.
    + unfold singleLine. now rewrite list_ascii_of_string_of_list_ascii.
  - intros (rest & -> & Hrest). right. right. split; [exact Hstar|].
    exists (list_ascii_of_string rest).
    split; [apply list_append | now apply GlobMatch_any].
Qed.

(** X4.  A pattern made of a star-free prefix and a final star matches the
    names that begin with the prefix and go on without a line break. *)
Theorem prefix_glob (prefix name : string) :
  prefix <> "" ->
  includesStar prefix = false ->
  (patternTest (compilePattern (prefix +:+ "*")) name = true
   <-> exists rest, name = prefix +:+ rest /\ singleLine rest).
Proof. exact (trailing_star prefix name). Qed.

Lemma prefix_glob_witness :
  patternTest (compilePattern "tts_*") "tts_speak" = true
  <-> exists rest, "tts_speak" = "tts_" +:+ rest /\ singleLine rest.
Proof.
  apply (prefix_glob "tts_" "tts_speak"); [discriminate | reflexivity].
Defined.

(** X5.  With the default settings the filter turns away the tools whose name,
    trimmed and in lower case, begins with [tts_], [notify_] or [memory_]
    and goes on without a line break; it lets every other tool through. *)
Theorem default_filter (toolName : string) :
  makeToolFilterPredicate DEFAULT_TOOLS_FILTER_CONFIG toolName = false
  <-> exists prefix rest,
        In prefix ["tts_"; "notify_"; "memory_"]
        /\ normalizeName toolName = prefix +:+ rest /\ singleLine rest.
Proof.
  unfold makeToolFilterPredicate, matchesAny.
  rewrite JSFacts.normalize_idem. fold (normalizeName toolName).
  change (compilePatterns (exclude DEFAULT_TOOLS_FILTER_CONFIG))
    with [compilePattern ("tts_" +:+ "*"); compilePattern ("notify_" +:+ "*");
          compilePattern ("memory_" +:+ "*")].
  change (compilePatterns (include DEFAULT_TOOLS_FILTER_CONFIG)) with
    (@nil CompiledPattern).
  cbn [existsb List.length Nat.eqb].
  pose proof (trailing_star "tts_" (normalizeName toolName)) as H1.
  pose proof (trailing_star "notify_" (normalizeName toolName)) as H2.
  pose proof (trailing_star "memory_" (normalizeName toolName)) as H3.
  destruct (patternTest (compilePattern ("tts_" +:+ "*")) _) eqn:E1;
    [|destruct (patternTest (compilePattern ("notify_" +:+ "*")) _) eqn:E2;
      [|destruct (patternTest (compilePattern ("memory_" +:+ "*")) _) eqn:E3]];
    cbn [orb].
  - split; [intros _|reflexivity].
    destruct H1 as [(rest & ? & ?) _]; [discriminate|reflexivity|reflexivity|].
    exists "tts_", rest. simpl. auto.
  - split; [intros _|reflexivity].
    destruct H2 as [(rest & ? & ?) _]; [discriminate|reflexivity|reflexivity|].
    exists "notify_", rest. simpl. auto.
  - split; [intros _|reflexivity].
    destruct H3 as [(rest & ? & ?) _]; [discriminate|reflexivity|reflexivity|].
    exists "memory_", rest. simpl. auto 6.
  - split; [discriminate|].
    intros (prefix & rest & [<-|[<-|[<-|[]]]] & Hn & Hrest).
    + destruct H1 as [_ H1]; [discriminate|reflexivity|].
      enough (false = true) by discriminate. apply H1. eauto.
    + destruct H2 as [_ H2]; [discriminate|reflexivity|].
      enough (false = true) by discriminate. apply H2. eauto.
    + destruct H3 as [_ H3]; [discriminate|reflexivity|].
      enough (false = true) by discriminate. apply H3. eauto.
Qed.

End ContentFacts.

(* ===================================================================== *)
(** * Properties of the effective settings, continued *)
(* ===================================================================== *)

Module EffectiveSettingsFacts.

Import Settings Tools.





Lemma computeEffectiveSettings_shape (raw : JS.Value)
    (cfg : ToolResultSummaryConfig) :
  computeEffectiveSettings raw = Some cfg ->
  JS.isStr (JS.prop raw "mode") "off" = false
  /\ cfg = {|
        enabled := booleanOr (JS.prop raw "enabled") false;
        mode := if JS.truthy (JS.prop raw "mode")
                then JS.prop raw "mode" else JS.Str "full";
        summary := if JS.truthy (JS.prop raw "summary")
                   then mergeSummaryConfig DEFAULT_SUMMARY_CONFIG
                                           (JS.prop raw "summary")
                   else DEFAULT_SUMMARY_CONFIG;
        storage := if JS.truthy (JS.prop raw "storage")
                   then mergeStorageConfig DEFAULT_STORAGE_CONFIG
                                           (JS.prop raw "storage")
                   else DEFAULT_STORAGE_CONFIG;
        retrieval := if JS.truthy (JS.prop raw "retrieval")
                     then mergeRetrievalConfig DEFAULT_RETRIEVAL_CONFIG
                                               (JS.prop raw "retrieval")
                     else DEFAULT_RETRIEVAL_CONFIG;
        tools := if JS.truthy (JS.prop raw "tools")
                 then mergeToolsFilterConfig DEFAULT_TOOLS_FILTER_CONFIG
                                             (JS.prop raw "tools")
                 else DEFAULT_TOOLS_FILTER_CONFIG
      |}.
Proof.
  unfold computeEffectiveSettings.
  destruct (negb (JS.truthy raw) || negb (JS.typeofObject raw)); [discriminate|].
  destruct (match JS.prop raw "enabled" with
            | JS.Bool false => true
            | _ => false
            end); [discriminate|].
  destruct (JS.isStr (JS.prop raw "mode") "off"); [discriminate|].
  simpl. intros [= <-]. split; reflexivity.
Qed.



Lemma effective_enabled (raw : JS.Value) (cfg : ToolResultSummaryConfig) :
  computeEffectiveSettings raw = Some cfg ->
  (enabled cfg = true <-> JS.prop raw "enabled" = JS.Bool true).
Proof.
  intros H. apply computeEffectiveSettings_shape in H as [Hoff ->]. simpl.
  unfold booleanOr. destruct (JS.prop raw "enabled") as [| |[]| | | |];
    simpl; split; congruence.
Qed.

(** X7.  An effective configuration is enabled exactly when the raw one says
    [enabled: true], and its mode is never ["off"]. *)
Theorem computeEffectiveSettings_enabled (raw : JS.Value)
    (cfg : ToolResultSummaryConfig) :
  computeEffectiveSettings raw = Some cfg ->
  (enabled cfg = true <-> JS.prop raw "enabled" = JS.Bool true)
  /\ JS.isStr (mode cfg) "off" = false
  /\ JS.truthy (mode cfg) = true.
Proof.
  intros H. split; [exact (effective_enabled raw cfg H)|].
  apply computeEffectiveSettings_shape in H as [Hoff ->]. simpl. split.
  - now destruct (JS.truthy (JS.prop raw "mode")).
  - now destruct (JS.truthy (JS.prop raw "mode")) eqn:E.
Qed.

Lemma computeEffectiveSettings_enabled_witness :
  exists cfg,
    computeEffectiveSettings (JS.Obj [("mode", JS.Str "store-only")]) = Some cfg
    /\ (enabled cfg = true
        <-> JS.prop (JS.Obj [("mode", JS.Str "store-only")]) "enabled"
            = JS.Bool true)
    /\ JS.isStr (mode cfg) "off" = false
    /\ JS.truthy (mode cfg) = true.
Proof.
  eexists. split; [reflexivity|].
  apply (computeEffectiveSettings_enabled
           (JS.Obj [("mode", JS.Str "store-only")])).
  reflexivity.
Defined.

(** ** Merging twice *)

Lemma numberOr_twice {A} (v : JS.Value) (f : Q -> A) (d : A) :
  numberOr v f (numberOr v f d) = numberOr v f d.
Proof. unfold numberOr. now destruct (JS.finiteNumber v). Qed.

Lemma booleanOr_twice (v : JS.Value) (d : bool) :
  booleanOr v (booleanOr v d) = booleanOr v d.
Proof. unfold booleanOr. now destruct (JS.boolean v). Qed.

Lemma trimmedOr_twice {A} (v : JS.Value) (f : string -> A) (d : A) :
  trimmedOr v f (trimmedOr v f d) = trimmedOr v f d.
Proof.
  unfold trimmedOr. destruct (JS.str v) as [s|]; [|reflexivity].
  now destruct (String.eqb (JS.trim s) "").
Qed.

Lemma mergeSummaryCacheConfig_twice base override :
  mergeSummaryCacheConfig (mergeSummaryCacheConfig base override) override
  = mergeSummaryCacheConfig base override.
Proof.
  unfold mergeSummaryCacheConfig. simpl.
  now rewrite booleanOr_twice, !numberOr_twice.
Qed.

Lemma mergeSummaryBatchConfig_twice base override :
  mergeSummaryBatchConfig (mergeSummaryBatchConfig base override) override
  = mergeSummaryBatchConfig base override.
Proof.
  unfold mergeSummaryBatchConfig. simpl.
  now rewrite booleanOr_twice, !numberOr_twice.
Qed.

(** X8.  Merging the same overrides a second time changes nothing, for every
    section of the configuration. *)
Theorem merge_twice (override : JS.Value) :
  (forall base,
     mergeSummaryConfig (mergeSummaryConfig base override) override
     = mergeSummaryConfig base override)
  /\ (forall base,
        mergeStorageConfig (mergeStorageConfig base override) override
        = mergeStorageConfig base override)
  /\ (forall base,
        mergeRetrievalConfig (mergeRetrievalConfig base override) override
        = mergeRetrievalConfig base override)
  /\ (forall base,
        mergeToolsFilterConfig (mergeToolsFilterConfig base override) override
        = mergeToolsFilterConfig base override).
Proof.
  split; [|split; [|split]]; intros base.
  - unfold mergeSummaryConfig. simpl.
    rewrite !numberOr_twice, trimmedOr_twice.
    destruct (JS.truthy (JS.prop override "cache"));
      destruct (JS.truthy (JS.prop override "batch"));
      now rewrite ?mergeSummaryCacheConfig_twice, ?mergeSummaryBatchConfig_twice.
  - unfold mergeStorageConfig. simpl.
    now rewrite !numberOr_twice, trimmedOr_twice.
  - unfold mergeRetrievalConfig. simpl.
    now rewrite !numberOr_twice, !booleanOr_twice.
  - unfold mergeToolsFilterConfig. simpl. rewrite !numberOr_twice.
    destruct (JS.array (JS.prop override "include"));
      now destruct (JS.array (JS.prop override "exclude")).
Qed.

(** ** The pattern lists of an effective configuration *)

Lemma toLowerCase_empty (s : string) : JS.toLowerCase s = "" -> s = "".
Proof.
  intros H. apply (f_equal list_ascii_of_string) in H.
  rewrite JSFacts.toLowerCase_as_list in H. now destruct s.
Qed.

Lemma nonBlankStrings_trimmed (items : list JS.Value) :
  Forall (fun p => JS.trim p <> "") (JS.nonBlankStrings items).
Proof.
  unfold JS.nonBlankStrings.
  induction items as [|v items IH]; simpl; [constructor|].
  destruct v as [| | | |s| |]; try exact IH.
  destruct (String.eqb_spec (JS.trim s) ""); [exact IH | now constructor].
Qed.

Lemma compilePatterns_all (patterns : option (list string)) :
  Forall (fun p => JS.trim p <> "") (default [] patterns) ->
  List.length (compilePatterns patterns) = List.length (default [] patterns).
Proof.
  unfold compilePatterns, normalizePatterns.
  destruct patterns as [ps|]; simpl; [|reflexivity].
  rewrite length_map. induction 1 as [|p ps Hp _ IH]; simpl; [reflexivity|].
  destruct (String.eqb_spec (JS.toLowerCase (JS.trim p)) "") as [E|_].
  - now apply toLowerCase_empty in E.
  - simpl. now rewrite IH.
Qed.

(** The filter of an effective configuration compiles one matcher for
    every pattern the configuration lists, on the include and on the
    exclude side: blank and non-string entries were dropped when the
    settings were computed, so none is dropped later. *)
Theorem effective_patterns (raw : JS.Value) (cfg : ToolResultSummaryConfig) :
  computeEffectiveSettings raw = Some cfg ->
  List.length (compilePatterns (include (tools cfg)))
  = List.length (default [] (include (tools cfg)))
  /\ List.length (compilePatterns (exclude (tools cfg)))
     = List.length (default [] (exclude (tools cfg))).
Proof.
  intros H. apply computeEffectiveSettings_shape in H as [_ ->]. simpl.
  split; apply compilePatterns_all.
  - destruct (JS.truthy (JS.prop raw "tools")); simpl; [|constructor].
    destruct (JS.array _); simpl;
      [apply nonBlankStrings_trimmed | constructor].
  - destruct (JS.truthy (JS.prop raw "tools")); simpl.
    + destruct (JS.array _); simpl; [apply nonBlankStrings_trimmed|].
      repeat constructor; discriminate.
    + repeat constructor; discriminate.
Qed.

Lemma effective_patterns_witness :
  exists cfg,
    computeEffectiveSettings belowFloorOverrides = Some cfg
    /\ include (tools cfg) = Some [" Read "]
    /\ List.length (compilePatterns (include (tools cfg)))
       = List.length (default [] (include (tools cfg)))
    /\ List.length (compilePatterns (exclude (tools cfg)))
       = List.length (default [] (exclude (tools cfg))).
Proof.
  eexists. split; [reflexivity|]. split; [reflexivity|].
  apply (effective_patterns belowFloorOverrides). reflexivity.
Defined.

End EffectiveSettingsFacts.

(* ===================================================================== *)
(** * Properties of the summary cache and of the batch queue *)
(* ===================================================================== *)

Module CacheFacts.

Import Settings Summarizer.

(** ** The insertion-ordered map, continued *)

Lemma mapSize_mapDelete {V} (k : string) (m : list (string * V)) :
  JS.mapSize (JS.mapDelete k m) <= JS.mapSize m.
Proof.
  unfold JS.mapSize. induction m as [|[k' v'] m IH]; simpl; [lia|].
  destruct (String.eqb k k'); simpl; lia.
Qed.

Lemma mapSize_mapSet {V} (k : string) (v : V) (m : list (string * V)) :
  JS.mapSize (JS.mapSet k v m) <= JS.mapSize m + 1.
Proof.
  unfold JS.mapSize. induction m as [|[k' v'] m IH]; simpl; [lia|].
  destruct (String.eqb k k'); simpl; lia.
Qed.

Lemma mapGet_mapSet_ne {V} (k k' : string) (v : V) (m : list (string * V)) :
  k <> k' -> JS.mapGet k (JS.mapSet k' v m) = JS.mapGet k m.
Proof.
  intros Hne. apply String.eqb_neq in Hne.
  induction m as [|[k0 v0] m IH]; simpl; [now rewrite Hne|].
  destruct (String.eqb_spec k' k0) as [->|_]; simpl; [now rewrite Hne|].
  now rewrite IH.
Qed.

Lemma mapGet_mapDelete_ne {V} (k k' : string) (m : list (string * V)) :
  k <> k' -> JS.mapGet k (JS.mapDelete k' m) = JS.mapGet k m.
Proof.
  intros Hne. apply String.eqb_neq in Hne.
  induction m as [|[k0 v0] m IH]; simpl; [reflexivity|].
  destruct (String.eqb_spec k' k0) as [->|_]; simpl; [now rewrite Hne|].
  now rewrite IH.
Qed.

Lemma mapGet_absent {V} (k : string) (m : list (string * V)) :
  ~ In k (map fst m) -> JS.mapGet k m = None.
Proof.
  induction m as [|[k0 v0] m IH]; simpl; [reflexivity|]. intros Hin.
  destruct (String.eqb_spec k k0) as [->|_]; [tauto|]. apply IH. tauto.
Qed.

Lemma mapGet_mapDelete_eq {V} (k : string) (m : list (string * V)) :
  List.NoDup (map fst m) -> JS.mapGet k (JS.mapDelete k m) = None.
Proof.
  induction m as [|[k0 v0] m IH]; simpl; [reflexivity|].
  rewrite List.NoDup_cons_iff. intros [Hnew Hm].
  destruct (String.eqb_spec k k0) as [->|Hne].
  - now apply mapGet_absent.
  - simpl. destruct (String.eqb_spec k k0); [congruence|]. now apply IH.
Qed.

(** ** Size of the cache *)

Lemma checkCache_fits m key cc now entries :
  fits m entries -> fits m (fst (checkCache key cc now entries)).
Proof.
  unfold checkCache, fits, keysNonEmpty. intros [Hk Hs].
  destruct (negb (cache_enabled cc)); [done|].
  destruct (JS.mapGet key entries); [|done].
  destruct (_ && _); [|done]. simpl. split.
  - now apply SummarizerFacts.Forall_mapDelete.
  - pose proof (mapSize_mapDelete key entries). lia.
Qed.

Lemma storeInCache_fits key hash s cc now entries :
  1 <= cache_maxEntries cc ->
  key <> "" ->
  fits (cache_maxEntries cc) entries ->
  fits (cache_maxEntries cc) (storeInCache key hash s cc now entries).
Proof.
  unfold storeInCache, fits, keysNonEmpty. intros Hm Hkey [Hk Hs].
  destruct (negb (cache_enabled cc)); [done|].
  destruct (Z.leb_spec (cache_maxEntries cc) (JS.mapSize entries)) as [Hfull|Hroom].
  - destruct entries as [|[k0 e0] rest]; [unfold JS.mapSize in Hfull; simpl in Hfull; lia|].
    inversion Hk as [|? ? Hk0 Hrest]; subst. simpl in Hk0.
    destruct (String.eqb_spec k0 ""); [done|]. cbn [negb JS.mapDelete].
    rewrite String.eqb_refl. split.
    + now apply SummarizerFacts.Forall_mapSet.
    + pose proof (mapSize_mapSet key
                    {| entry_summary := s; entry_createdAt := now;
                       entry_contentHash := hash |} rest).
      unfold JS.mapSize in *. simpl in *. lia.
  - split.
    + now apply SummarizerFacts.Forall_mapSet.
    + pose proof (mapSize_mapSet key
                    {| entry_summary := s; entry_createdAt := now;
                       entry_contentHash := hash |} entries). lia.
Qed.

(** ** Eviction and expiry *)

(** X9.  Storing into a full cache evicts the entry that was inserted first,
    whether or not it was read since: afterwards the oldest key is gone,
    the stored key answers with the new entry, and every other key answers
    as before. *)
Theorem storeInCache_evicts_oldest key hash s cc now oldestKey oldest rest :
  cache_enabled cc = true ->
  cache_maxEntries cc <= JS.mapSize ((oldestKey, oldest) :: rest) ->
  oldestKey <> "" ->
  key <> oldestKey ->
  List.NoDup (oldestKey :: map fst rest) ->
  let entries :=
    storeInCache key hash s cc now ((oldestKey, oldest) :: rest) in
  JS.mapGet oldestKey entries = None
  /\ JS.mapGet key entries
     = Some {| entry_summary := s; entry_createdAt := now;
               entry_contentHash := hash |}
  /\ (forall k, k <> key -> JS.mapGet k entries = JS.mapGet k rest)
  /\ JS.mapSize entries <= JS.mapSize ((oldestKey, oldest) :: rest).
Proof.
  intros Hen Hfull Hk0 Hne Hnd. unfold storeInCache. rewrite Hen. cbn [negb].
  destruct (Z.leb_spec (cache_maxEntries cc)
                       (JS.mapSize ((oldestKey, oldest) :: rest))); [|lia].
  destruct (String.eqb_spec oldestKey ""); [done|].
  cbn [negb JS.mapDelete]. rewrite String.eqb_refl. cbv zeta.
  apply List.NoDup_cons_iff in Hnd as [Hnew _].
  split; [|split; [|split]].
  - rewrite mapGet_mapSet_ne by congruence. now apply mapGet_absent.
  - apply SummarizerFacts.mapGet_mapSet_eq.
  - intros k Hk. now apply mapGet_mapSet_ne.
  - pose proof (mapSize_mapSet key
                  {| entry_summary := s; entry_createdAt := now;
                     entry_contentHash := hash |} rest).
    unfold JS.mapSize in *. simpl in *. lia.
Qed.

Lemma storeInCache_evicts_oldest_witness :
  let cc := {| cache_enabled := true; cache_maxEntries := 2;
               cache_ttlMs := 0 |} in
  let a := {| entry_summary := "first"; entry_createdAt := 1;
              entry_contentHash := "h1" |} in
  let b := {| entry_summary := "second"; entry_createdAt := 2;
              entry_contentHash := "h2" |} in
  let entries := storeInCache "c" "h3" "third" cc 3 [("a", a); ("b", b)] in
  JS.mapGet "a" entries = None
  /\ JS.mapGet "c" entries
     = Some {| entry_summary := "third"; entry_createdAt := 3;
               entry_contentHash := "h3" |}
  /\ (forall k, k <> "c" -> JS.mapGet k entries = JS.mapGet k [("b", b)])
  /\ JS.mapSize entries <= JS.mapSize [("a", a); ("b", b)].
Proof.
  apply (storeInCache_evicts_oldest "c" "h3" "third"
           {| cache_enabled := true; cache_maxEntries := 2; cache_ttlMs := 0 |}
           3 "a"
           {| entry_summary := "first"; entry_createdAt := 1;
              entry_contentHash := "h1" |}
           [("b", {| entry_summary := "second"; entry_createdAt := 2;
                     entry_contentHash := "h2" |})]).
  - reflexivity.
  - unfold JS.mapSize. simpl. lia.
  - discriminate.
  - discriminate.
  - repeat constructor; simpl; intuition discriminate.
Defined.

(** X10.  A lookup that finds an expired entry removes it: the key is gone
    afterwards, the other keys answer as before, and the next lookup of the
    key reports a miss. *)
Theorem checkCache_expired key cc now entries entries' s :
  List.NoDup (map fst entries) ->
  checkCache key cc now entries = (entries', Some (s, true)) ->
  (exists e,
     JS.mapGet key entries = Some e /\ entry_summary e = s
     /\ 0 < cache_ttlMs cc < now - entry_createdAt e)
  /\ JS.mapGet key entries' = None
  /\ (forall k, k <> key -> JS.mapGet k entries' = JS.mapGet k entries)
  /\ (forall later, checkCache key cc later entries' = (entries', None)).
Proof.
  intros Hnd. unfold checkCache.
  destruct (negb (cache_enabled cc)) eqn:Hen; [discriminate|].
  destruct (JS.mapGet key entries) as [e|] eqn:Hget; [|discriminate].
  destruct (Z.ltb_spec 0 (cache_ttlMs cc)); [|discriminate].
  destruct (Z.ltb_spec (cache_ttlMs cc) (now - entry_createdAt e));
    [|discriminate].
  cbn [andb]. intros [= <- <-].
  split; [exists e; repeat split; auto; lia|].
  split; [now apply mapGet_mapDelete_eq|].
  split; [intros k Hk; now apply mapGet_mapDelete_ne|].
  intros later. now rewrite mapGet_mapDelete_eq.
Qed.

Lemma checkCache_expired_witness :
  let cc := {| cache_enabled := true; cache_maxEntries := 10;
               cache_ttlMs := 10 |} in
  let a := {| entry_summary := "first"; entry_createdAt := 0;
              entry_contentHash := "h1" |} in
  let b := {| entry_summary := "second"; entry_createdAt := 15;
              entry_contentHash := "h2" |} in
  checkCache "a" cc 20 [("a", a); ("b", b)] = ([("b", b)], Some ("first", true))
  /\ JS.mapGet "a" [("b", b)] = None
  /\ (forall later, checkCache "a" cc later [("b", b)] = ([("b", b)], None)).
Proof.
  split; [reflexivity|].
  assert (Hnd : List.NoDup ["a"; "b"])
    by (repeat constructor; simpl; intuition discriminate).
  destruct (checkCache_expired "a"
              {| cache_enabled := true; cache_maxEntries := 10;
                 cache_ttlMs := 10 |} 20
              [("a", {| entry_summary := "first"; entry_createdAt := 0;
                        entry_contentHash := "h1" |});
               ("b", {| entry_summary := "second"; entry_createdAt := 15;
                        entry_contentHash := "h2" |})]
              [("b", {| entry_summary := "second"; entry_createdAt := 15;
                        entry_contentHash := "h2" |})]
              "first" Hnd eq_refl) as (_ & Hgone & _ & Hmiss).
  split; assumption.
Defined.

Lemma slice0_nonempty (s : string) (e : Z) :
  0 < e -> s <> "" -> JS.slice0 s e <> "".
Proof.
  intros He Hs. unfold JS.slice0. destruct (Z.ltb_spec e 0); [lia|].
  destruct s as [|c s']; [done|].
  destruct (Z.to_nat (Z.min e (JS.length (String c s')))) eqn:E.
  - unfold JS.length in E. simpl in E. lia.
  - simpl. discriminate.
Qed.

Section WithPlatform.

Variable md5hex : string -> string.
Variable stringify : JS.Value -> option string.

Local Abbreviation summarize := (Summarizer.summarize md5hex stringify).
Local Abbreviation processBatch := (Summarizer.processBatch md5hex stringify).
Local Abbreviation scheduleBatch := (Summarizer.scheduleBatch md5hex stringify).
Local Abbreviation flushBatch := (Summarizer.flushBatch md5hex stringify).
Local Abbreviation resolveCached := (Summarizer.resolveCached md5hex stringify).
Local Abbreviation resolveGenerated :=
  (Summarizer.resolveGenerated md5hex stringify).
Local Abbreviation generateCacheKey :=
  (Summarizer.generateCacheKey md5hex stringify).
Local Abbreviation hashContent := (Summarizer.hashContent md5hex).
Local Abbreviation safeStringify := (Summarizer.safeStringify stringify).
Local Abbreviation buildSummaryPrompt :=
  (Summarizer.buildSummaryPrompt stringify).
Local Abbreviation step := (Summarizer.step md5hex stringify).
Local Abbreviation run := (Summarizer.run md5hex stringify).

(** ** The cache stays within its capacity *)

Section NonEmptyDigest.

(** A digest in hexadecimal is never the empty string. *)
Hypothesis md5hex_nonempty : forall s, md5hex s <> "".

Lemma generateCacheKey_nonempty name input hash :
  generateCacheKey name input hash <> "".
Proof.
  unfold Summarizer.generateCacheKey.
  apply slice0_nonempty; [lia | apply md5hex_nonempty].
Qed.

Lemma resolveCached_fits m config now items entries entries' hits uncached :
  resolveCached config now items entries = (entries', hits, uncached) ->
  fits m entries -> fits m entries'.
Proof.
  revert entries entries' hits uncached.
  induction items as [|item rest IH]; intros entries entries' hits uncached H Hf.
  - now injection H as <- <- <-.
  - simpl in H.
    pose proof (checkCache_fits m
                  (generateCacheKey (toolName (params item))
                     (input (params item)) (contentHash item))
                  (cache config) now entries Hf) as H1.
    destruct (checkCache _ _ _ entries) as [c1 cached].
    destruct (resolveCached config now rest c1) as [[c2 hs] us] eqn:R.
    specialize (IH _ _ _ _ R H1).
    destruct cached as [[s [|]]|]; now injection H as <- <- <-.
Qed.

Lemma resolveGenerated_fits config later uncached summaries entries entries' rs :
  resolveGenerated config later uncached summaries entries = (entries', rs) ->
  1 <= cache_maxEntries (cache config) ->
  fits (cache_maxEntries (cache config)) entries ->
  fits (cache_maxEntries (cache config)) entries'.
Proof.
  intros H Hm. revert summaries entries entries' rs H.
  induction uncached as [|item rest IH]; intros summaries entries entries' rs H Hf.
  - now injection H as <- <-.
  - simpl in H.
    set (summary := match summaries with s :: _ => JS.trim s | [] => "" end) in H.
    destruct (String.eqb summary "") eqn:E.
    + destruct (resolveGenerated config later rest (tl summaries) entries)
        as [c2 rs'] eqn:R.
      injection H as <- <-. exact (IH _ _ _ _ R Hf).
    + match type of H with
      | context [Summarizer.resolveGenerated _ _ _ _ _ _ ?c] =>
          destruct (resolveGenerated config later rest (tl summaries) c)
            as [c2 rs'] eqn:R
      end.
      injection H as <- <-. apply (IH _ _ _ _ R).
      apply storeInCache_fits; [exact Hm | apply generateCacheKey_nonempty | exact Hf].
Qed.

Lemma processBatch_fits config llmClient now later st st' rs :
  processBatch config llmClient now later st = (st', rs) ->
  1 <= cache_maxEntries (cache config) ->
  fits (cache_maxEntries (cache config)) (summaryCache st) ->
  fits (cache_maxEntries (cache config)) (summaryCache st').
Proof.
  unfold Summarizer.processBatch. intros H Hm Hf.
  destruct (pendingItems st) as [|item0 items0] eqn:Hitems.
  { now injection H as <- <-. }
  rewrite <- Hitems in *. clear Hitems item0 items0.
  cbn [summaryCache withPending] in H.
  destruct (resolveCached config now (pendingItems st) (summaryCache st))
    as [[c1 hits] uncached] eqn:R.
  pose proof (resolveCached_fits _ _ _ _ _ _ _ _ R Hf) as H1.
  destruct uncached as [|u0 us] eqn:Hunc.
  { now injection H as <- <-. }
  rewrite <- Hunc in *. clear Hunc u0 us.
  match type of H with
  | match ?a with _ => _ end = _ => destruct a as [summaries|] eqn:Hanswer
  end.
  - cbn [summaryCache withCache] in H.
    destruct (resolveGenerated config later uncached summaries c1)
      as [c2 resolved] eqn:G.
    injection H as <- <-. simpl.
    exact (resolveGenerated_fits _ _ _ _ _ _ _ G Hm H1).
  - now injection H as <- <-.
Qed.

Lemma processBatch_capped config llmClient now later st st' rs :
  processBatch config llmClient now later st = (st', rs) ->
  1 <= cache_maxEntries (cache config) ->
  capped (cache_maxEntries (cache config)) st ->
  capped (cache_maxEntries (cache config)) st'.
Proof.
  intros H Hm [Hf Ht]. split.
  - exact (processBatch_fits _ _ _ _ _ _ _ H Hm Hf).
  - apply SummarizerFacts.processBatch_spec in H as (_ & _ & -> & _). exact Ht.
Qed.

Lemma scheduleBatch_capped config llmClient now later st st' rs :
  scheduleBatch config llmClient now later st = (st', rs) ->
  1 <= cache_maxEntries (cache config) ->
  capped (cache_maxEntries (cache config)) st ->
  capped (cache_maxEntries (cache config)) st'.
Proof.
  unfold Summarizer.scheduleBatch. intros H Hm Hc.
  destruct (_ <=? _); [exact (processBatch_capped _ _ _ _ _ _ _ H Hm Hc)|].
  destruct (batchTimer st); injection H as <- <-; [exact Hc|].
  destruct Hc as [Hf Ht]. split; [exact Hf|]. simpl.
  now apply map_Forall_insert_2.
Qed.

Lemma summarize_capped config llmClient p now later st st' out rs :
  summarize config llmClient p now later st = (st', out, rs) ->
  1 <= cache_maxEntries (cache config) ->
  capped (cache_maxEntries (cache config)) st ->
  capped (cache_maxEntries (cache config)) st'.
Proof.
  unfold Summarizer.summarize. intros H Hm Hc.
  destruct (_ <=? maxChars config); [now injection H as <- <- <-|].
  destruct (_ <=? minContentForSummarization config);
    [now injection H as <- <- <-|].
  pose proof (checkCache_fits (cache_maxEntries (cache config))
                (generateCacheKey (toolName p) (input p)
                   (hashContent (extractTextContent (content p))))
                (cache config) now (summaryCache st) (proj1 Hc)) as H1.
  destruct (checkCache _ _ _ _) as [c1 cached]. simpl in H1.
  assert (Hc1 : capped (cache_maxEntries (cache config)) (withCache st c1))
    by (split; [exact H1 | exact (proj2 Hc)]).
  destruct cached as [[s [|]]|];
    try (now injection H as <- <- <-);
    (destruct (batch_enabled (batch config));
     [ unfold enqueue in H;
       destruct (scheduleBatch _ _ _ _ _) as [st3 resolved] eqn:S;
       injection H as <- <- <-;
       apply (scheduleBatch_capped _ _ _ _ _ _ _ S Hm);
       exact Hc1
     | destruct (generate _ _ _) as [summary|];
       [ destruct (_ || _); injection H as <- <- <-; [exact Hc1|];
         split; [|exact (proj2 Hc)]; cbn [summaryCache withCache];
         apply storeInCache_fits;
         [exact Hm | apply generateCacheKey_nonempty | exact H1]
       | now injection H as <- <- <- ] ]).
Qed.

Lemma step_capped m st e st' out rs :
  step st e = (st', out, rs) ->
  1 <= m -> eventCapacity m e -> capped m st -> capped m st'.
Proof.
  destruct e as [config llmClient p now later|h now later
                |config llmClient now later]; simpl; intros H Hm He Hc.
  - destruct (summarize _ _ _ _ _ _) as [[st1 o] r] eqn:S.
    injection H as <- <- <-. subst m.
    exact (summarize_capped _ _ _ _ _ _ _ _ _ S Hm Hc).
  - destruct (timers st !! h) as [[config llmClient]|] eqn:Hh;
      [|now injection H as <- <- <-].
    destruct (processBatch _ _ _ _ _) as [st1 r] eqn:P.
    injection H as <- <- <-.
    pose proof (proj2 Hc h _ Hh) as Hcap. simpl in Hcap. subst m.
    apply (processBatch_capped _ _ _ _ _ _ _ P Hm).
    split; [exact (proj1 Hc)|]. simpl. apply map_Forall_delete, (proj2 Hc).
  - destruct (flushBatch _ _ _ _ _) as [st1 r] eqn:F.
    injection H as <- <- <-. subst m. unfold Summarizer.flushBatch in F.
    apply (processBatch_capped _ _ _ _ _ _ _ F Hm).
    unfold clearBatchTimer. destruct (batchTimer st); [|exact Hc].
    split; [exact (proj1 Hc)|]. simpl. apply map_Forall_delete, (proj2 Hc).
Qed.

Lemma run_capped m events :
  forall st, 1 <= m -> Forall (eventCapacity m) events -> capped m st ->
             capped m (fst (fst (run st events))).
Proof.
  induction events as [|e events IH]; intros st Hm He Hc; simpl; [exact Hc|].
  inversion He as [|? ? He1 Hrest]; subst.
  destruct (step st e) as [[st1 o] r] eqn:S.
  specialize (IH st1 Hm Hrest (step_capped _ _ _ _ _ _ S Hm He1 Hc)).
  now destruct (run st1 events) as [[st2 outs] rs'].
Qed.

(** X11.  Whatever calls, timers and flushes a process goes through under one
    configuration, [getCacheStats] never reports more entries than the
    configured maximum. *)
Theorem getCacheStats_within_capacity config events :
  1 <= cache_maxEntries (cache config) ->
  Forall (eventCapacity (cache_maxEntries (cache config))) events ->
  fst (getCacheStats config (fst (fst (run initialState events))))
  <= snd (getCacheStats config (fst (fst (run initialState events)))).
Proof.
  intros Hm He.
  apply (run_capped _ events initialState Hm He).
  split; [split; [constructor | unfold JS.mapSize; simpl; lia]|].
  apply map_Forall_empty.
Qed.

End NonEmptyDigest.

(** ** Cache hits *)

Lemma checkCache_hit key cc now entries entries' s :
  checkCache key cc now entries = (entries', Some (s, false)) ->
  cache_enabled cc = true /\ entries' = entries
  /\ exists e,
       JS.mapGet key entries = Some e /\ entry_summary e = s
       /\ (0 < cache_ttlMs cc -> now - entry_createdAt e <= cache_ttlMs cc).
Proof.
  unfold checkCache.
  destruct (cache_enabled cc); [|discriminate]. cbn [negb].
  destruct (JS.mapGet key entries) as [e|]; [|discriminate].
  destruct (Z.ltb_spec 0 (cache_ttlMs cc));
    destruct (Z.ltb_spec (cache_ttlMs cc) (now - entry_createdAt e));
    cbn [andb]; intros [= <- <-]; repeat split; eauto.
  all: exists e; repeat split; auto; lia.
Qed.

Lemma summarize_hit config llmClient p now later st st' s rs :
  summarize config llmClient p now later st
  = (st', Settled (Ok s true (Some true)), rs) ->
  cache_enabled (cache config) = true
  /\ st' = st /\ rs = []
  /\ exists e,
       JS.mapGet (generateCacheKey (toolName p) (input p)
                    (hashContent (extractTextContent (content p))))
                 (summaryCache st) = Some e
       /\ entry_summary e = s
       /\ (0 < cache_ttlMs (cache config) ->
           now - entry_createdAt e <= cache_ttlMs (cache config)).
Proof.
  unfold Summarizer.summarize.
  destruct (_ <=? maxChars config); [discriminate|].
  destruct (_ <=? minContentForSummarization config); [discriminate|].
  destruct (checkCache _ _ _ _) as [c1 cached] eqn:C.
  destruct cached as [[s0 [|]]|].
  2: { intros [= <- <- <-].
       apply checkCache_hit in C as (Hen & -> & e & He).
       rewrite SummarizerFacts.withCache_same. repeat split; eauto. }
  all: destruct (batch_enabled (batch config));
    [ unfold enqueue; destruct (scheduleBatch _ _ _ _ _); discriminate
    | destruct (generate _ _ _) as [summary|]; [|discriminate];
      destruct (_ || _); discriminate ].
Qed.

(** X12.  A call that is answered from the cache was answered from an entry that
    is stored under the key of the call and has not outlived the time to
    live; such a call changes nothing and asks no model. *)
Theorem summarize_hit_is_fresh config llmClient p now later st st' s rs :
  summarize config llmClient p now later st
  = (st', Settled (Ok s true (Some true)), rs) ->
  cache_enabled (cache config) = true
  /\ st' = st /\ rs = []
  /\ exists e,
       JS.mapGet (generateCacheKey (toolName p) (input p)
                    (hashContent (extractTextContent (content p))))
                 (summaryCache st) = Some e
       /\ entry_summary e = s
       /\ (0 < cache_ttlMs (cache config) ->
           now - entry_createdAt e <= cache_ttlMs (cache config)).
Proof. exact (summarize_hit config llmClient p now later st st' s rs). Qed.

(** ** A disabled cache *)

Lemma resolveCached_disabled config now items entries :
  cache_enabled (cache config) = false ->
  resolveCached config now items entries = (entries, [], items).
Proof.
  intros Hoff. induction items as [|item rest IH]; simpl; [reflexivity|].
  unfold checkCache. rewrite Hoff. cbn [negb]. now rewrite IH.
Qed.

Lemma resolveGenerated_disabled config later uncached summaries entries :
  cache_enabled (cache config) = false ->
  fst (resolveGenerated config later uncached summaries entries) = entries.
Proof.
  intros Hoff. revert summaries.
  induction uncached as [|item rest IH]; intros summaries; simpl; [reflexivity|].
  set (summary := match summaries with s :: _ => JS.trim s | [] => "" end).
  destruct (String.eqb summary "").
  - specialize (IH (tl summaries)).
    now destruct (resolveGenerated config later rest (tl summaries) entries).
  - unfold storeInCache. rewrite Hoff. cbn [negb].
    specialize (IH (tl summaries)).
    now destruct (resolveGenerated config later rest (tl summaries) entries).
Qed.

Lemma processBatch_disabled config llmClient now later st :
  cache_enabled (cache config) = false ->
  summaryCache (fst (processBatch config llmClient now later st))
  = summaryCache st.
Proof.
  intros Hoff. unfold Summarizer.processBatch.
  destruct (pendingItems st) as [|item0 items0] eqn:Hitems; [reflexivity|].
  rewrite <- Hitems. clear Hitems item0 items0.
  cbn [summaryCache withPending]. rewrite resolveCached_disabled by exact Hoff.
  destruct (pendingItems st) as [|u0 us] eqn:Hunc; [reflexivity|].
  rewrite <- Hunc. clear Hunc u0 us.
  match goal with
  | |- context [match ?a with Some _ => _ | None => _ end] =>
      destruct a as [summaries|]
  end; [|reflexivity].
  cbn [summaryCache withCache].
  pose proof (resolveGenerated_disabled config later (pendingItems st)
                summaries (summaryCache st) Hoff) as H.
  now destruct (resolveGenerated _ _ _ _ _).
Qed.

(** X13.  With the cache switched off, neither a call of [summarize] nor a flush
    changes the cache, and no call is answered from it. *)
Theorem disabled_cache_is_untouched config llmClient p now later st :
  cache_enabled (cache config) = false ->
  let called := summarize config llmClient p now later st in
  summaryCache (fst (fst called)) = summaryCache st
  /\ (forall s, snd (fst called) = Settled (Ok s true (Some true)) -> False)
  /\ summaryCache (fst (flushBatch config llmClient now later st))
     = summaryCache st.
Proof.
  intros Hoff called. split; [|split].
  - subst called. unfold Summarizer.summarize.
    destruct (_ <=? maxChars config); [reflexivity|].
    destruct (_ <=? minContentForSummarization config); [reflexivity|].
    unfold checkCache. rewrite Hoff. cbn [negb].
    rewrite SummarizerFacts.withCache_same.
    destruct (batch_enabled (batch config)).
    + unfold enqueue, Summarizer.scheduleBatch.
      cbn [pendingItems batchTimer].
      destruct (_ <=? _).
      * match goal with
        | |- context [Summarizer.processBatch _ _ ?c ?l ?n ?m ?s] =>
            pose proof (processBatch_disabled c l n m s Hoff) as H;
            destruct (processBatch c l n m s)
        end.
        exact H.
      * now destruct (batchTimer st).
    + destruct (generate _ _ _) as [summary|]; [|reflexivity].
      destruct (_ || _); [reflexivity|]. simpl.
      unfold storeInCache. now rewrite Hoff.
  - intros s Hs.
    destruct called as [[st' out] rs] eqn:E. simpl in Hs. subst out.
    apply summarize_hit in E as [Hen _]. congruence.
  - unfold Summarizer.flushBatch. rewrite processBatch_disabled by exact Hoff.
    unfold clearBatchTimer. now destruct (batchTimer st).
Qed.

(** ** Flushing and timers *)

(** X14.  [flush] settles every request that waits in the queue, each with an
    ok result, empties the queue and leaves no batch timer behind. *)
Theorem flush_settles_pending config llmClient now later st :
  let result := step st (Flush config llmClient now later) in
  let st' := fst (fst result) in
  pendingItems st' = []
  /\ batchTimer st' = None
  /\ (forall h, batchTimer st = Some h -> timers st' !! h = None)
  /\ Permutation (map promise (pendingItems st)) (map fst (snd result))
  /\ Forall (fun pr => isOk (snd pr)) (snd result).
Proof.
  simpl. destruct (flushBatch _ _ _ _ _) as [st1 r] eqn:F. simpl.
  destruct (SummarizerFacts.flushBatch_spec _ _ _ _ _ _ _ _ _ F)
    as (Hp & Hb & Hperm & Hok).
  repeat split; auto.
  intros h Hh. unfold Summarizer.flushBatch in F.
  apply SummarizerFacts.processBatch_spec in F as (_ & _ & -> & _).
  unfold clearBatchTimer. rewrite Hh. simpl. apply lookup_delete_eq.
Qed.

(** X15.  When no batch timer is recorded, a request that [summarize] queues is
    delivered: at once when it fills the batch, and otherwise by the timer
    that the call arms, whenever that timer fires. *)
Theorem queued_request_is_delivered config llmClient p now later st st1 pr rs :
  batchTimer st = None ->
  summarize config llmClient p now later st = (st1, Queued pr, rs) ->
  In pr (map fst rs)
  \/ exists h,
       batchTimer st1 = Some h
       /\ forall now' later',
            In pr (map fst (snd (step st1 (TimerFires h now' later')))).
Proof.
  intros Hb. unfold Summarizer.summarize.
  destruct (_ <=? maxChars config); [discriminate|].
  destruct (_ <=? minContentForSummarization config); [discriminate|].
  destruct (checkCache _ _ _ _) as [c1 cached].
  assert (Hlast : forall (items : list PendingItem) item n,
            promise item = n -> In n (map promise (items ++ [item]))).
  { intros items item n <-. rewrite map_app. apply in_or_app. right. now left. }
  destruct cached as [[s0 [|]]|]; try discriminate;
    (destruct (batch_enabled (batch config));
     [| destruct (generate _ _ _) as [summary|]; [|discriminate];
        destruct (_ || _); discriminate ]).
  all: unfold enqueue, Summarizer.scheduleBatch;
    cbn [pendingItems batchTimer withCache];
    destruct (_ <=? _);
    [ destruct (processBatch _ _ _ _ _) as [st3 resolved] eqn:P;
      intros [= <- <- <-]; left;
      apply SummarizerFacts.processBatch_spec in P as (_ & _ & _ & Hperm & _);
      cbn [pendingItems] in Hperm;
      eapply Permutation_in; [exact Hperm|]; eapply Hlast; reflexivity
    | rewrite Hb; intros [= <- <- <-]; right;
      exists (nextTimer st); split; [reflexivity|];
      intros now' later'; cbn [Summarizer.step timers armBatchTimer];
      rewrite lookup_insert_eq;
      destruct (processBatch _ _ _ _ _) as [st3 resolved] eqn:P;
      apply SummarizerFacts.processBatch_spec in P as (_ & _ & _ & Hperm & _);
      cbn [pendingItems] in Hperm;
      eapply Permutation_in; [exact Hperm|]; eapply Hlast; reflexivity ].
Qed.

End WithPlatform.

Lemma getCacheStats_within_capacity_witness :
  let events :=
    [Summarize directConfig constantClient (textResult "read" "a" 600) 0 5;
     Summarize directConfig constantClient (textResult "grep" "b" 600) 6 9] in
  let st :=
    fst (fst (Summarizer.run (String "k") (fun _ => Some "{}")
                             initialState events)) in
  getCacheStats directConfig st = (2, 1000)
  /\ fst (getCacheStats directConfig st) <= snd (getCacheStats directConfig st).
Proof.
  split; [vm_compute; reflexivity|].
  apply (getCacheStats_within_capacity (String "k") (fun _ => Some "{}")).
  - discriminate.
  - simpl. lia.
  - repeat constructor.
Defined.

Lemma disabled_cache_is_untouched_witness :
  let config := {|
    maxChars := 200; modelName := None; timeoutMs := 10000;
    minContentForSummarization := 500;
    cache := {| cache_enabled := false; cache_maxEntries := 1000;
                cache_ttlMs := 0 |};
    batch := batch directConfig |} in
  let called :=
    Summarizer.summarize (fun x => x) (fun _ => Some "{}") config
      constantClient (textResult "read" "a" 600) 0 5 initialState in
  snd (fst called) = Settled (Ok "Read the file." true (Some false))
  /\ summaryCache (fst (fst called)) = []
  /\ (forall s, snd (fst called) = Settled (Ok s true (Some true)) -> False)
  /\ summaryCache
       (fst (Summarizer.flushBatch (fun x => x) (fun _ => Some "{}") config
               constantClient 0 5 initialState)) = [].
Proof.
  split; [vm_compute; reflexivity|].
  apply (disabled_cache_is_untouched (fun x => x) (fun _ => Some "{}")
           {| maxChars := 200; modelName := None; timeoutMs := 10000;
              minContentForSummarization := 500;
              cache := {| cache_enabled := false; cache_maxEntries := 1000;
                          cache_ttlMs := 0 |};
              batch := batch directConfig |}
           constantClient (textResult "read" "a" 600) 0 5 initialState).
  reflexivity.
Defined.

Lemma summarize_hit_is_fresh_witness :
  let hash := fun x : string => x in
  let json := fun _ : JS.Value => Some "{}" in
  let p := textResult "read" "a" 600 in
  let st1 :=
    fst (fst (Summarizer.summarize hash json directConfig constantClient p 0 5
                                   initialState)) in
  Summarizer.summarize hash json directConfig unavailable p 10 15 st1
  = (st1, Settled (Ok "Read the file." true (Some true)), [])
  /\ exists e,
       JS.mapGet (Summarizer.generateCacheKey hash json (toolName p) (input p)
                    (Summarizer.hashContent hash
                       (extractTextContent (content p))))
                 (summaryCache st1) = Some e
       /\ entry_summary e = "Read the file."
       /\ (0 < cache_ttlMs (cache directConfig) ->
           10 - entry_createdAt e <= cache_ttlMs (cache directConfig)).
Proof.
  split; [vm_compute; reflexivity|].
  apply (summarize_hit_is_fresh (fun x => x) (fun _ => Some "{}")
           directConfig unavailable (textResult "read" "a" 600) 10 15
           (fst (fst (Summarizer.summarize (fun x => x) (fun _ => Some "{}")
                        directConfig constantClient
                        (textResult "read" "a" 600) 0 5 initialState)))
           (fst (fst (Summarizer.summarize (fun x => x) (fun _ => Some "{}")
                        directConfig constantClient
                        (textResult "read" "a" 600) 0 5 initialState)))
           "Read the file." []).
  vm_compute. reflexivity.
Defined.

Lemma queued_request_is_delivered_witness :
  let hash := fun x : string => x in
  let json := fun _ : JS.Value => Some "{}" in
  let queued :=
    Summarizer.summarize hash json DEFAULT_SUMMARY_CONFIG constantClient
      (textResult "read" "a" 600) 0 5 initialState in
  queued = (fst (fst queued), Queued 0, [])
  /\ (In 0%nat (map fst (snd queued))
      \/ exists h,
           batchTimer (fst (fst queued)) = Some h
           /\ forall now' later',
                In 0%nat
                   (map fst
                      (snd (Summarizer.step hash json (fst (fst queued))
                              (TimerFires h now' later'))))).
Proof.
  split; [vm_compute; reflexivity|].
  apply (queued_request_is_delivered (fun x => x) (fun _ => Some "{}")
           DEFAULT_SUMMARY_CONFIG constantClient (textResult "read" "a" 600)
           0 5 initialState).
  - reflexivity.
  - vm_compute. reflexivity.
Defined.

End CacheFacts.

(* ===================================================================== *)
(** * Properties of the summary prompt *)
(* ===================================================================== *)

Module PromptFacts.

Import Settings Summarizer.

Section WithPlatform.

Variable stringify : JS.Value -> option string.

Local Abbreviation safeStringify := (Summarizer.safeStringify stringify).
Local Abbreviation buildSummaryPrompt :=
  (Summarizer.buildSummaryPrompt stringify).

Lemma safeStringify_bound (obj : JS.Value) (maxLength : Z) :
  0 <= maxLength ->
  JS.length (safeStringify obj maxLength) <= Z.max (maxLength + 3) 21.
Proof.
  intros Hm. unfold Summarizer.safeStringify.
  destruct (stringify obj) as [str|]; [|unfold JS.length; simpl; lia].
  destruct (Z.leb_spec (JS.length str) maxLength); [lia|].
  rewrite SummarizerFacts.length_ellipsis.
  pose proof (JSFacts.length_slice0 str maxLength Hm). lia.
Qed.

(** X16.  The prompt sent to the model has a bounded length whatever the size of
    the tool result and of the tool input: at most 2000 characters of the
    result and 503 of the input enter it, next to the tool name and the
    requested length. *)
Theorem buildSummaryPrompt_bound (p : Params) (text : string) (maxChars : Z) :
  JS.length (buildSummaryPrompt p text maxChars)
  <= 2879 + JS.length (toolName p) + JS.length (JS.showZ maxChars).
Proof.
  pose proof (safeStringify_bound (input p) 500 ltac:(lia)) as Hinput.
  pose proof (JSFacts.length_slice0 text 2000 ltac:(lia)) as Htext.
  unfold Summarizer.buildSummaryPrompt, JS.join. cbn [String.concat].
  unfold JS.length in *. rewrite !JSFacts.length_append.
  change (String.length JS.nl) with 1%nat.
  destruct (isError p); cbn [String.length]; lia.
Qed.

End WithPlatform.

End PromptFacts.

(* ===================================================================== *)
(** * Properties of the store's rows and lookups *)
(* ===================================================================== *)

Module StoreOpsFacts.

Import Store.

(** ** Identifiers *)

Lemma hexDigits_spec (n : nat) (s r : list ascii) :
  hexDigits n s = Some r ->
  exists w, s = w ++ r /\ List.length w = n
            /\ Forall (fun c => isHexDigit c = true) w.
Proof.
  revert s. induction n as [|n IH]; intros s; simpl.
  - intros [= <-]. exists []. repeat split. constructor.
  - destruct s as [|c s']; [discriminate|].
    destruct (isHexDigit c) eqn:Hc; [|discriminate].
    intros H. apply IH in H as (w & -> & <- & Hw).
    exists (c :: w). repeat split. now constructor.
Qed.

Lemma dash_spec (s r : list ascii) : dash s = Some r -> s = "-"%char :: r.
Proof.
  destruct s as [|c s']; simpl; [discriminate|].
  destruct (Ascii.eqb_spec c "-"%char) as [->|_]; [|discriminate].
  now intros [= <-].
Qed.

Lemma length_as_list (s : string) :
  String.length s = List.length (list_ascii_of_string s).
Proof. induction s as [|c s IH]; simpl; auto. Qed.

Lemma uuid_shape (id : string) :
  uuidRegexTest id = true ->
  String.length id = 36%nat
  /\ Forall (fun c => isHexDigit c = true \/ c = "-"%char)
            (list_ascii_of_string id).
Proof.
  unfold uuidRegexTest. intros H.
  destruct (hexDigits 8 _) as [s1|] eqn:E1; cbn [mbind option_bind] in H; [|discriminate].
  destruct (dash s1) as [s2|] eqn:E2; cbn [mbind option_bind] in H; [|discriminate].
  destruct (hexDigits 4 s2) as [s3|] eqn:E3; cbn [mbind option_bind] in H; [|discriminate].
  destruct (dash s3) as [s4|] eqn:E4; cbn [mbind option_bind] in H; [|discriminate].
  destruct (hexDigits 4 s4) as [s5|] eqn:E5; cbn [mbind option_bind] in H; [|discriminate].
  destruct (dash s5) as [s6|] eqn:E6; cbn [mbind option_bind] in H; [|discriminate].
  destruct (hexDigits 4 s6) as [s7|] eqn:E7; cbn [mbind option_bind] in H; [|discriminate].
  destruct (dash s7) as [s8|] eqn:E8; cbn [mbind option_bind] in H; [|discriminate].
  destruct (hexDigits 12 s8) as [[|c s9]|] eqn:E9; try discriminate.
  apply hexDigits_spec in E1 as (w1 & Hs & L1 & H1).
  apply hexDigits_spec in E3 as (w2 & -> & L2 & H2).
  apply hexDigits_spec in E5 as (w3 & -> & L3 & H3).
  apply hexDigits_spec in E7 as (w4 & -> & L4 & H4).
  apply hexDigits_spec in E9 as (w5 & -> & L5 & H5).
  apply dash_spec in E2 as ->. apply dash_spec in E4 as ->.
  apply dash_spec in E6 as ->. apply dash_spec in E8 as ->.
  rewrite length_as_list, Hs. split.
  - repeat (rewrite List.length_app; simpl). lia.
  - assert (Hhex : forall w, Forall (fun c => isHexDigit c = true) w ->
                     Forall (fun c => isHexDigit c = true \/ c = "-"%char) w).
    { intros w Hw. eapply List.Forall_impl; [|exact Hw]. simpl. auto. }
    repeat (apply Forall_app; split; [now apply Hhex|];
            apply Forall_cons; split; [now right|]).
    apply Forall_app. split; [now apply Hhex | constructor].
Qed.

Section WithJSON.

Variable JSON_parse : string -> option JS.Value.
Variable JSON_stringify : JS.Value -> option string.

Local Abbreviation rowToEntry := (Store.rowToEntry JSON_parse).
Local Abbreviation entryToRow := (Store.entryToRow JSON_stringify).
Local Abbreviation get := (Store.get JSON_parse).
Local Abbreviation getByToolCallId := (Store.getByToolCallId JSON_parse).
Local Abbreviation store := (Store.store JSON_stringify).
Local Abbreviation roundTrips := (Store.roundTrips JSON_parse JSON_stringify).

(** X17.  [get] answers with an entry only for an identifier of 36 characters,
    each a hexadecimal digit or a dash, and the entry is read from the
    first row the table holds under that identifier. *)
Theorem get_validates {T} (tbl : Table T) (table : T) (id : string)
    (e : ToolResultEntry) :
  get tbl table id = Some e ->
  String.length id = 36%nat
  /\ Forall (fun c => isHexDigit c = true \/ c = "-"%char)
            (list_ascii_of_string id)
  /\ exists row rest,
       tbl_where tbl ("id = '" +:+ id +:+ "'") table = Some (row :: rest)
       /\ rowToEntry row = Some e.
Proof.
  unfold Store.get. destruct (uuidRegexTest id) eqn:Hid; [|discriminate].
  cbn [negb]. destruct (uuid_shape id Hid) as [Hlen Hchars].
  destruct (tbl_where tbl _ table) as [[|row rest]|] eqn:Hq; try discriminate.
  intros He. repeat split; eauto.
Qed.

(** ** The most recent entry of a tool call *)

Lemma sortNewestFirst_head (rows : list Row) (row : Row) (rest : list Row) :
  sortNewestFirst rows = row :: rest ->
  In row rows
  /\ Forall (fun r => row_createdAt r <= row_createdAt row) rows.
Proof.
  revert row rest. induction rows as [|r rows IH]; intros row rest; simpl.
  - discriminate.
  - fold (sortNewestFirst rows).
    destruct (sortNewestFirst rows) as [|x sorted] eqn:E; simpl.
    + intros [= <- <-]. destruct rows as [|r' rows'].
      * split; [now left | repeat constructor; lia].
      * simpl in E. fold (sortNewestFirst rows') in E.
        destruct (sortNewestFirst rows'); simpl in E; [discriminate|].
        now destruct (_ <=? _).
    + destruct (IH _ _ eq_refl) as [Hin Hall].
      destruct (Z.leb_spec (row_createdAt x) (row_createdAt r)) as [Hle|Hlt];
        intros [= <- <-].
      * split; [now left|]. constructor; [lia|].
        eapply List.Forall_impl; [|exact Hall]. simpl. intros; lia.
      * split; [now right|]. constructor; [lia | exact Hall].
Qed.

(** X18.  [getByToolCallId] answers with the entry of a row that the table holds
    under the tool call and that no other such row is newer than. *)
Theorem getByToolCallId_most_recent {T} (tbl : Table T) (table : T)
    (toolCallId : string) (e : ToolResultEntry) :
  getByToolCallId tbl table toolCallId = Some e ->
  exists results row,
    tbl_where tbl ("toolCallId = '" +:+ toolCallId +:+ "'") table
    = Some results
    /\ In row results
    /\ rowToEntry row = Some e
    /\ Forall (fun r => row_createdAt r <= row_createdAt row) results.
Proof.
  unfold Store.getByToolCallId.
  destruct (tbl_where tbl _ table) as [results|] eqn:Hq; [|discriminate].
  destruct results as [|r0 rs] eqn:Hr; [discriminate|]. rewrite <- Hr in *.
  destruct (sortNewestFirst results) as [|row rest] eqn:Hs; [discriminate|].
  intros He. destruct (sortNewestFirst_head _ _ _ Hs) as [Hin Hall].
  exists results, row. auto.
Qed.

(** ** Rows and entries *)

Lemma parseOr_stringified (v : JS.Value) (fallback : string) :
  roundTrips v ->
  parseOr JSON_parse (default "" (JSON_stringify v)) fallback = Some v.
Proof.
  intros (text & -> & Hne & Hparse). unfold parseOr. simpl.
  now destruct (String.eqb_spec text "").
Qed.

(** X19.  An entry whose input, content and details survive a passage through
    JSON is read back unchanged from the row written for it. *)
Theorem rowToEntry_entryToRow (e : ToolResultEntry) :
  roundTrips (input e) ->
  roundTrips (originalContent e) ->
  roundTrips (details e) ->
  rowToEntry (entryToRow e) = Some e.
Proof.
  intros Hi Ho Hd. unfold Store.rowToEntry, Store.entryToRow. simpl.
  rewrite (parseOr_stringified _ _ Hi), (parseOr_stringified _ _ Ho),
    (parseOr_stringified _ _ Hd).
  simpl. now destruct e.
Qed.

(** ** Storing *)

(** X20.  A successful [store] counts one entry more, hands the written row to
    the table, and keeps of the original content only text: at most the
    configured number of characters, and the three of an ellipsis. *)
Theorem store_truncates {T} (tbl : Table T) (config : Settings.StorageConfig)
    (backend : Backend) (uuid : string) (now later : Z)
    (params : StoreParams) (st st' : StoreState T) (e : ToolResultEntry) :
  store tbl config backend uuid now later params st = Some (st', e) ->
  getCount st' = getCount st + 1
  /\ tbl_add tbl [entryToRow e] (st_table st) = Some (st_table st')
  /\ id e = uuid /\ accessCount e = 0
  /\ exists blocks,
       originalContent e = JS.Arr (map blockValue blocks)
       /\ Forall (fun block => Tools.isText block = true) blocks
       /\ Tools.estimateContentLength blocks
          <= Z.max 0 (Settings.storage_maxContentChars config) + 3.
Proof.
  unfold Store.store.
  destruct (embedQuery backend _) as [vector|]; [|discriminate]. simpl.
  destruct (tbl_add tbl _ (st_table st)) as [table'|] eqn:Hadd; [|discriminate].
  simpl. intros [= <- <-]. simpl.
  split; [reflexivity|]. split; [exact Hadd|].
  split; [reflexivity|]. split; [reflexivity|].
  eexists. split; [reflexivity|].
  destruct (ContentFacts.truncateLoop_bound
              (p_originalContent params)
              (Settings.storage_maxContentChars config)) as (Ht & Hlen).
  split; [exact Ht|]. now rewrite ContentFacts.estimate_texts.
Qed.

End WithJSON.

Lemma get_validates_witness :
  let id := "123e4567-e89b-12d3-a456-426614174000" in
  Store.get smallParse listTable [rowAt id 5] id
  = Store.rowToEntry smallParse (rowAt id 5)
  /\ String.length id = 36%nat.
Proof.
  split; [reflexivity|].
  destruct (Store.rowToEntry smallParse
              (rowAt "123e4567-e89b-12d3-a456-426614174000" 5))
    as [e|] eqn:E; [|vm_compute in E; discriminate].
  apply (get_validates smallParse listTable
           [rowAt "123e4567-e89b-12d3-a456-426614174000" 5]
           "123e4567-e89b-12d3-a456-426614174000" e).
  exact E.
Defined.

Lemma getByToolCallId_most_recent_witness :
  exists e results row,
    Store.getByToolCallId smallParse listTable
      [rowAt "a" 5; rowAt "b" 9; rowAt "c" 7] "call-1" = Some e
    /\ id e = "b"
    /\ tbl_where listTable ("toolCallId = '" +:+ "call-1" +:+ "'")
                 [rowAt "a" 5; rowAt "b" 9; rowAt "c" 7] = Some results
    /\ In row results
    /\ Store.rowToEntry smallParse row = Some e
    /\ Forall (fun r => row_createdAt r <= row_createdAt row) results.
Proof.
  destruct (Store.getByToolCallId smallParse listTable
              [rowAt "a" 5; rowAt "b" 9; rowAt "c" 7] "call-1")
    as [e|] eqn:E; [|vm_compute in E; discriminate].
  destruct (getByToolCallId_most_recent smallParse listTable
              [rowAt "a" 5; rowAt "b" 9; rowAt "c" 7] "call-1" e E)
    as (results & row & H).
  exists e, results, row. split; [reflexivity|].
  split; [|exact H]. vm_compute in E. now injection E as <-.
Defined.

Lemma rowToEntry_entryToRow_witness :
  let e := {|
    id := "123e4567-e89b-12d3-a456-426614174000";
    sessionId := "s1"; toolCallId := "call-1"; toolName := "bash";
    input := JS.Obj []; summary := "disk usage 42%";
    originalContent := JS.Arr []; isError := false; details := JS.Null;
    vector := []; createdAt := 5; accessCount := 0; lastAccessAt := 5 |} in
  Store.rowToEntry smallParse (Store.entryToRow smallStringify e) = Some e.
Proof.
  apply (rowToEntry_entryToRow smallParse smallStringify).
  - exists "{}". repeat split. discriminate.
  - exists "[]". repeat split. discriminate.
  - exists "null". repeat split. discriminate.
Defined.

Lemma store_truncates_witness :
  let params := {|
    p_sessionId := "s1"; p_toolCallId := "call-1"; p_toolName := "bash";
    p_input := JS.Obj []; p_summary := "disk usage 42%";
    p_originalContent :=
      [JS.TextContent (Summarizer.repeatChar "x" 1200);
       JS.ImageContent "iVBORw0KGgo=" "image/png"];
    p_isError := false; p_details := JS.Null |} in
  let config := {|
    Settings.dbPath := "tool-results"; Settings.storage_maxResults := 10000;
    Settings.ttlDays := 30; Settings.embeddingBatchSize := 100;
    Settings.storage_maxContentChars := 1000 |} in
  exists st' e,
    Store.store smallStringify listTable config sampleBackend
      "123e4567-e89b-12d3-a456-426614174000" 5 6 params
      {| st_table := []; st_entryCount := 0 |} = Some (st', e)
    /\ getCount st' = 1
    /\ exists blocks,
         originalContent e = JS.Arr (map blockValue blocks)
         /\ Forall (fun block => Tools.isText block = true) blocks
         /\ Tools.estimateContentLength blocks <= 1003.
Proof.
  intros params config.
  destruct (Store.store smallStringify listTable config sampleBackend
              "123e4567-e89b-12d3-a456-426614174000" 5 6 params
              {| st_table := []; st_entryCount := 0 |})
    as [[st' e]|] eqn:E; [|vm_compute in E; discriminate].
  exists st', e. split; [reflexivity|].
  destruct (store_truncates smallStringify listTable config sampleBackend
              "123e4567-e89b-12d3-a456-426614174000" 5 6 params
              {| st_table := []; st_entryCount := 0 |} st' e E)
    as (Hcount & _ & _ & _ & Hblocks).
  split; [exact Hcount | exact Hblocks].
Defined.

End StoreOpsFacts.

(* ===================================================================== *)
(** * Properties of the context block *)
(* ===================================================================== *)

Module RetrieverFacts.

Import Store Retriever.

Section WithToString.

Variable toString : JS.Value -> string.

Local Abbreviation extractText := (Retriever.extractText toString).
Local Abbreviation formatInput := (Retriever.formatInput toString).
Local Abbreviation resultLines := (Retriever.resultLines toString).
Local Abbreviation resultsLines := (Retriever.resultsLines toString).
Local Abbreviation formatResultsForContext :=
  (Retriever.formatResultsForContext toString).

(** ** What the block shows *)

Lemma resultLines_headline m m' i a b :
  sameHeadline a b -> resultLines false m i a = resultLines false m' i b.
Proof.
  intros (Hn & Hs & He & Hi & Hsc). unfold Retriever.resultLines.
  now rewrite Hn, Hs, He, Hi, Hsc.
Qed.

(** X21.  Without full content, the block shows of every result its tool name,
    summary, error flag, input and score, and nothing else: results that
    agree on these give the same block, whatever content, identifiers and
    times they carry and whatever the content limit is. *)
Theorem summaries_only_block rs rs' m m' :
  Forall2 sameHeadline rs rs' ->
  formatResultsForContext rs false m = formatResultsForContext rs' false m'.
Proof.
  intros H. unfold Retriever.formatResultsForContext.
  enough (E : forall i, resultsLines false m i rs = resultsLines false m' i rs')
    by now rewrite E.
  induction H as [|a b rs rs' Hab _ IH]; intros i; simpl; [reflexivity|].
  now rewrite (resultLines_headline m m' i a b Hab), IH.
Qed.

(** ** When formatting throws *)

Lemma formatInput_throws (input : JS.Value) :
  formatInput input = None <-> ownEntries input = None.
Proof.
  unfold Retriever.formatInput.
  destruct (ownEntries input); simpl; split; congruence.
Qed.

Lemma resultLines_throws full m i r :
  resultLines full m i r = None
  <-> ownEntries (input (entry r)) = None
      \/ (full = true /\ extractText (originalContent (entry r)) = None).
Proof.
  unfold Retriever.resultLines.
  pose proof (formatInput_throws (input (entry r))) as Hin.
  destruct full.
  - destruct (extractText (originalContent (entry r))) as [text|]; simpl.
    + destruct (formatInput (input (entry r))); simpl.
      * split; [discriminate|]. intros [H|[_ H]]; [|discriminate].
        apply Hin in H. discriminate.
      * split; [intros _; left; now apply Hin | reflexivity].
    + split; [intros _; now right | reflexivity].
  - simpl. destruct (formatInput (input (entry r))); simpl.
    + split; [discriminate|]. intros [H|[H _]]; [|discriminate].
      apply Hin in H. discriminate.
    + split; [intros _; left; now apply Hin | reflexivity].
Qed.

(** X22.  Formatting throws exactly when some result has a [null] or undefined
    input or, with full content, a content that is not an array of
    non-null items. *)
Theorem formatResultsForContext_throws rs full m :
  formatResultsForContext rs full m = None
  <-> Exists (fun r =>
                ownEntries (input (entry r)) = None
                \/ (full = true
                    /\ extractText (originalContent (entry r)) = None)) rs.
Proof.
  unfold Retriever.formatResultsForContext.
  enough (E : forall i,
             resultsLines full m i rs = None
             <-> Exists (fun r =>
                           ownEntries (input (entry r)) = None
                           \/ (full = true
                               /\ extractText (originalContent (entry r))
                                  = None)) rs).
  { rewrite <- (E 0%nat).
    destruct (resultsLines full m 0 rs); simpl; split; congruence. }
  induction rs as [|r rs IH]; intros i; simpl.
  - split; [discriminate | inversion 1].
  - rewrite List.Exists_cons, <- (IH (S i)), <- (resultLines_throws full m i r).
    destruct (resultLines full m i r); simpl; [|tauto].
    destruct (resultsLines full m (S i) rs); simpl.
    + split; [discriminate | intros [|]; discriminate].
    + tauto.
Qed.

(** ** What [formatInput] reads *)

Lemma assoc_firstn (k : string) (n : nat) (fields : list (string * JS.Value)) :
  JS.assoc k (firstn n fields) = JS.assoc k fields
  \/ JS.assoc k (firstn n fields) = JS.Undefined.
Proof.
  revert n. induction fields as [|[k' v] fields IH]; intros [|n]; simpl; auto.
  destruct (String.eqb k k'); auto.
Qed.

Lemma commonPart_firstn key render n fields :
  Retriever.commonPart (JS.Obj fields) key render = [] ->
  Retriever.commonPart (JS.Obj (firstn n fields)) key render = [].
Proof.
  unfold Retriever.commonPart. simpl.
  destruct (assoc_firstn key n fields) as [-> | ->]; [auto|reflexivity].
Qed.

Lemma commonParts_hasCommonField (input : JS.Value) :
  Retriever.commonParts input <> [] <-> hasCommonField input.
Proof.
  unfold Retriever.commonParts, Retriever.commonPart, hasCommonField. split.
  - intros H.
    destruct (JS.prop input "file_path") as [| | | |s1| |] eqn:E1;
      try (exists "file_path", s1; simpl; now auto);
      destruct (JS.prop input "pattern") as [| | | |s2| |] eqn:E2;
      try (exists "pattern", s2; simpl; now auto);
      destruct (JS.prop input "command") as [| | | |s3| |] eqn:E3;
      try (exists "command", s3; simpl; now auto);
      destruct (JS.prop input "path") as [| | | |s4| |] eqn:E4;
      try (exists "path", s4; simpl; now auto 6);
      now contradiction H.
  - intros (key & s & Hin & Hs). simpl in Hin.
    destruct Hin as [<-|[<-|[<-|[<-|[]]]]]; rewrite Hs;
      repeat match goal with
             | |- context [match ?v with JS.Str _ => _ | _ => _ end] =>
                 destruct v
             end; discriminate.
Qed.

(** [formatInput] shows the four named fields when one of them holds a
    string, and then nothing else of the input; otherwise it shows no more
    than the first three fields. *)
Theorem formatInput_reads (fields : list (string * JS.Value)) :
  (hasCommonField (JS.Obj fields) ->
   formatInput (JS.Obj fields) = formatInput (commonFields (JS.Obj fields)))
  /\ ((hasCommonField (JS.Obj fields) -> False) ->
      formatInput (JS.Obj fields) = formatInput (JS.Obj (firstn 3 fields))).
Proof.
  split; intros H.
  - apply commonParts_hasCommonField in H.
    unfold Retriever.formatInput. cbn [ownEntries mbind option_bind].
    assert (E : Retriever.commonParts (commonFields (JS.Obj fields))
                = Retriever.commonParts (JS.Obj fields)) by reflexivity.
    rewrite E.
    now destruct (Retriever.commonParts (JS.Obj fields)).
  - assert (Hnone : Retriever.commonParts (JS.Obj fields) = []).
    { destruct (Retriever.commonParts (JS.Obj fields)) eqn:E;
        [reflexivity|].
      exfalso. apply H, commonParts_hasCommonField. now rewrite E. }
    unfold Retriever.formatInput. cbn [ownEntries mbind option_bind].
    rewrite Hnone.
    assert (Hfirst : Retriever.commonParts (JS.Obj (firstn 3 fields))
                     = []).
    { unfold Retriever.commonParts in *.
      repeat match goal with
             | H : _ ++ _ = [] |- _ => apply app_eq_nil in H as [? ?]
             end.
      now rewrite !commonPart_firstn. }
    rewrite Hfirst. now rewrite firstn_firstn.
Qed.

End WithToString.

Lemma summaries_only_block_witness :
  Retriever.formatResultsForContext showNumber
    [sampleResult JS.Null "a"] false 2000
  = Retriever.formatResultsForContext showNumber
      [sampleResult (JS.Arr []) "b"] false 100.
Proof.
  apply (summaries_only_block showNumber
           [sampleResult JS.Null "a"] [sampleResult (JS.Arr []) "b"] 2000 100).
  repeat constructor.
Defined.

End RetrieverFacts.

(* ===================================================================== *)
(** * Properties of the runtime registry and of the session id *)
(* ===================================================================== *)

Module RegistryFacts.

Import Extension.

(** ** Starting a session *)

(** X23.  A session is registered only on request: unless the raw configuration
    says [enabled: true], starting a session leaves the registry as it
    is. *)
Theorem registration_is_opt_in registry sessionManager raw :
  (JS.prop raw "enabled" = JS.Bool true -> False) ->
  buildToolResultSummaryExtension registry sessionManager raw = registry.
Proof.
  intros Hoff. unfold buildToolResultSummaryExtension.
  destruct (negb (JS.truthy raw)); [reflexivity|].
  destruct (Settings.computeEffectiveSettings raw) as [cfg|] eqn:E;
    [|reflexivity].
  destruct (Settings.enabled cfg) eqn:Hen; [|reflexivity].
  apply EffectiveSettingsFacts.effective_enabled in E.
  now apply E in Hen.
Qed.

Lemma registration_is_opt_in_witness :
  buildToolResultSummaryExtension ∅ (Some sampleSession)
    (JS.Obj [("mode", JS.Str "full")]) = ∅.
Proof.
  apply (registration_is_opt_in ∅ (Some sampleSession)
           (JS.Obj [("mode", JS.Str "full")])).
  discriminate.
Defined.

(** X24.  A start with [enabled: true] and a mode other than ["off"] registers
    the effective configuration for the session manager and clears what
    the session had before: the compaction latch and the entry count start
    anew. *)
Theorem session_start_resets registry sm raw cfg :
  JS.prop raw "enabled" = JS.Bool true ->
  Settings.computeEffectiveSettings raw = Some cfg ->
  getToolResultSummaryRuntime
    (buildToolResultSummaryExtension registry (Some sm) raw) (Some sm)
  = startingRuntime cfg.
Proof.
  intros Hen Hcfg. unfold buildToolResultSummaryExtension.
  assert (Htruthy : JS.truthy raw = true).
  { destruct raw; try discriminate Hen. reflexivity. }
  rewrite Htruthy, Hcfg. cbn [negb].
  apply EffectiveSettingsFacts.effective_enabled in Hcfg.
  rewrite (proj2 Hcfg Hen), ExtensionFacts.getRuntime_set.
  now destruct (decide (ref sm = ref sm)).
Qed.

Lemma session_start_resets_witness :
  exists cfg,
    Settings.computeEffectiveSettings enabledConfig = Some cfg
    /\ getToolResultSummaryRuntime
         (buildToolResultSummaryExtension
            (sessionBeforeCompact
               (buildToolResultSummaryExtension ∅ (Some sampleSession)
                                                enabledConfig)
               (Some sampleSession))
            (Some sampleSession) enabledConfig)
         (Some sampleSession)
       = startingRuntime cfg.
Proof.
  eexists. split; [reflexivity|].
  apply (session_start_resets _ sampleSession enabledConfig); reflexivity.
Defined.

Section WithCollaborators.

Variable JSON_parse : string -> option JS.Value.
Variable formatResultsForContext :
  list Store.ToolResultSearchResult -> bool -> Z -> string.

Local Abbreviation contextHandler :=
  (Extension.contextHandler JSON_parse formatResultsForContext).
Local Abbreviation dispatch :=
  (Extension.dispatch JSON_parse formatResultsForContext).
Local Abbreviation runEvents :=
  (Extension.runEvents JSON_parse formatResultsForContext).

(** ** Sessions do not touch one another *)

Lemma sameSession_ref target sm :
  sameSession target (Some sm) = false ->
  match target with
  | Some t => ref t <> ref sm
  | None => True
  end.
Proof.
  destruct target as [t|]; simpl; [|done]. now intros H%Nat.eqb_neq.
Qed.

(** X25.  An event of one session manager leaves the runtime of every other
    session manager as it is. *)
Theorem other_sessions_untouched registry e sm :
  sameSession (eventSession e) (Some sm) = false ->
  getToolResultSummaryRuntime (fst (dispatch registry e)) (Some sm)
  = getToolResultSummaryRuntime registry (Some sm).
Proof.
  intros H. apply sameSession_ref in H.
  destruct e as [target raw|target services name blocks isErr stored
                |target|target services heap messages];
    unfold Extension.dispatch; cbn [fst eventSession] in *.
  - unfold buildToolResultSummaryExtension.
    destruct (negb (JS.truthy raw)); [reflexivity|].
    destruct (Settings.computeEffectiveSettings raw) as [cfg|]; [|reflexivity].
    destruct (Settings.enabled cfg); [|reflexivity].
    rewrite ExtensionFacts.getRuntime_set. destruct target as [t|]; [|reflexivity].
    now destruct (decide (ref t = ref sm)).
  - unfold handleToolResult.
    destruct (getRuntime registry target) as [[rt cfg]|]; [|reflexivity].
    destruct (negb (Settings.enabled cfg)); [reflexivity|].
    destruct (_ || _); [reflexivity|].
    destruct services; [|reflexivity].
    destruct (negb _); [reflexivity|].
    destruct (_ <? _); [reflexivity|].
    destruct isErr; [reflexivity|].
    destruct stored; [|reflexivity].
    rewrite ExtensionFacts.getRuntime_update.
    destruct target as [tgt|]; [|reflexivity].
    now destruct (decide (ref tgt = ref sm)).
  - unfold sessionBeforeCompact. rewrite ExtensionFacts.getRuntime_update.
    destruct target as [t|]; [|reflexivity].
    now destruct (decide (ref t = ref sm)).
  - reflexivity.
Qed.

(** ** What the handlers keep *)

Lemma applyUpdates_keeps current updates :
  upd_initialized updates = None ->
  upd_compactionOccurred updates <> Some false ->
  config (applyUpdates current updates) = config current
  /\ resolvedDbPath (applyUpdates current updates) = resolvedDbPath current
  /\ initialized (applyUpdates current updates) = initialized current
  /\ (compactionOccurred current = true ->
      compactionOccurred (applyUpdates current updates) = true).
Proof.
  intros Hi Hupd. simpl. rewrite Hi. repeat split.
  intros Hlatch. rewrite Hlatch.
  destruct (upd_compactionOccurred updates) as [[|]|]; simpl; congruence.
Qed.

Lemma dispatch_keeps registry e sm :
  isSessionStart e = false ->
  let before := getToolResultSummaryRuntime registry (Some sm) in
  let after :=
    getToolResultSummaryRuntime (fst (dispatch registry e)) (Some sm) in
  config after = config before
  /\ resolvedDbPath after = resolvedDbPath before
  /\ initialized after = initialized before
  /\ (compactionOccurred before = true -> compactionOccurred after = true).
Proof.
  intros Hstart.
  destruct e as [target raw|target services name blocks isErr stored
                |target|target services heap messages];
    [discriminate| | |]; unfold Extension.dispatch; cbn [fst]; cbv zeta.
  - unfold handleToolResult.
    destruct (getRuntime registry target) as [[rt cfg]|]; [|done].
    destruct (negb (Settings.enabled cfg)); [done|].
    destruct (_ || _); [done|].
    destruct services; [|done].
    destruct (negb _); [done|].
    destruct (_ <? _); [done|].
    destruct isErr; [done|].
    destruct stored; [|done].
    rewrite ExtensionFacts.getRuntime_update.
    destruct target as [tgt|]; [|done].
    destruct (decide (ref tgt = ref sm)); [|done].
    apply applyUpdates_keeps; [reflexivity | discriminate].
  - unfold sessionBeforeCompact. rewrite ExtensionFacts.getRuntime_update.
    destruct target as [tgt|]; [|done].
    destruct (decide (ref tgt = ref sm)); [|done].
    apply applyUpdates_keeps; [reflexivity | discriminate].
  - done.
Qed.

(** X26.  After its start, whatever tool results, compactions and context
    events follow, a session keeps its configuration and database path,
    and its compaction latch, once set, stays set. *)
Theorem handlers_keep_session events registry sm :
  Forall (fun e => isSessionStart e = false) events ->
  let before := getToolResultSummaryRuntime registry (Some sm) in
  let after :=
    getToolResultSummaryRuntime (runEvents registry events) (Some sm) in
  config after = config before
  /\ resolvedDbPath after = resolvedDbPath before
  /\ initialized after = initialized before
  /\ (compactionOccurred before = true -> compactionOccurred after = true).
Proof.
  intros H. revert registry.
  induction H as [|e events He _ IH]; intros registry; [done|].
  change (runEvents registry (e :: events))
    with (runEvents (fst (dispatch registry e)) events).
  destruct (IH (fst (dispatch registry e))) as (A1 & A2 & A3 & A4).
  destruct (dispatch_keeps registry e sm He) as (B1 & B2 & B3 & B4).
  cbv zeta. rewrite A1, A2, A3. repeat split; auto.
Qed.

End WithCollaborators.

Lemma other_sessions_untouched_witness :
  let other := {| ref := 8; sm_sessionId := Some "s2";
                  sm_sessionFile := None |} in
  let registry :=
    buildToolResultSummaryExtension ∅ (Some other) enabledConfig in
  getToolResultSummaryRuntime
    (fst (Extension.dispatch sampleParse sampleFormat registry
            (BeforeCompact (Some sampleSession))))
    (Some other)
  = getToolResultSummaryRuntime registry (Some other).
Proof.
  apply (other_sessions_untouched sampleParse sampleFormat
           (buildToolResultSummaryExtension ∅
              (Some {| ref := 8; sm_sessionId := Some "s2";
                       sm_sessionFile := None |}) enabledConfig)
           (BeforeCompact (Some sampleSession))
           {| ref := 8; sm_sessionId := Some "s2"; sm_sessionFile := None |}).
  reflexivity.
Defined.

Lemma handlers_keep_session_witness :
  let registry :=
    Extension.runEvents sampleParse sampleFormat ∅ eventsWithCompaction in
  let events :=
    [ToolResult (Some sampleSession) (Some Store.sampleBackend) "bash"
                [JS.TextContent (Summarizer.repeatChar "x" 300)] false
                (Some 2);
     Context (Some sampleSession) (Some Store.sampleBackend)
             sampleHeap sampleMessages] in
  let before := getToolResultSummaryRuntime registry (Some sampleSession) in
  let after :=
    getToolResultSummaryRuntime
      (Extension.runEvents sampleParse sampleFormat registry events)
      (Some sampleSession) in
  compactionOccurred before = true
  /\ entryCount after = 2
  /\ config after = config before
  /\ resolvedDbPath after = resolvedDbPath before
  /\ initialized after = initialized before
  /\ (compactionOccurred before = true -> compactionOccurred after = true).
Proof.
  split; [vm_compute; reflexivity|]. split; [vm_compute; reflexivity|].
  apply (handlers_keep_session sampleParse sampleFormat
           [ToolResult (Some sampleSession) (Some Store.sampleBackend) "bash"
                       [JS.TextContent (Summarizer.repeatChar "x" 300)] false
                       (Some 2);
            Context (Some sampleSession) (Some Store.sampleBackend)
                    sampleHeap sampleMessages]
           (Extension.runEvents sampleParse sampleFormat ∅
                                eventsWithCompaction)
           sampleSession).
  repeat constructor.
Defined.

(** ** The session id *)







End RegistryFacts.

(* ===================================================================== *)
(** * Properties of the injection, continued *)
(* ===================================================================== *)

Module InjectionFacts.

Import Extension.

Lemma length_arraySlice0 {A} (a : list A) (e : Z) :
  0 <= e -> Z.of_nat (List.length (JS.arraySlice0 a e)) <= e.
Proof.
  intros He. unfold JS.arraySlice0.
  destruct (Z.ltb_spec e 0); [lia|]. rewrite List.length_firstn. lia.
Qed.

Lemma length_dedup ids (rs : list Store.ToolResultSearchResult) :
  (List.length (dedup ids rs) <= List.length rs)%nat.
Proof. unfold dedup. apply List.filter_length_le. Qed.

Section WithCollaborators.

Variable JSON_parse : string -> option JS.Value.
Variable formatResultsForContext :
  list Store.ToolResultSearchResult -> bool -> Z -> string.

Local Abbreviation contextHandler :=
  (Extension.contextHandler JSON_parse formatResultsForContext).
Local Abbreviation retrieve := (Extension.retrieve JSON_parse).

(** X28.  The context handler replaces the messages only for an enabled session
    whose mode is neither ["off"] nor ["store-only"]; it then injects at
    least one result and, for a limit that is not negative, at most
    [maxResults] of them, and these are the results it touches. *)
Theorem injection_requires registry sm services heap messages out :
  res_messages (contextHandler registry sm services heap messages) = Some out ->
  exists runtime cfg,
    getRuntime registry sm = Some (runtime, cfg)
    /\ Settings.enabled cfg = true
    /\ JS.isStr (Settings.mode cfg) "off" = false
    /\ JS.isStr (Settings.mode cfg) "store-only" = false
    /\ (1 <= List.length
               (res_touched (contextHandler registry sm services heap messages)))%nat
    /\ (0 <= Settings.maxResults (Settings.retrieval cfg) ->
        Z.of_nat
          (List.length
             (res_touched (contextHandler registry sm services heap messages)))
        <= Settings.maxResults (Settings.retrieval cfg)).
Proof.
  intros H.
  destruct (ExtensionFacts.contextHandler_injects _ _ _ _ _ _ _ _ H)
    as (runtime & cfg & lastUser & m & store & retrieved
        & Hrt & _ & _ & _ & _ & _ & Hretrieve & Hkept & Hresult).
  exists runtime, cfg. split; [exact Hrt|].
  assert (Hgates : Settings.enabled cfg = true
                   /\ JS.isStr (Settings.mode cfg) "off"
                      || JS.isStr (Settings.mode cfg) "store-only" = false).
  { revert H. unfold Extension.contextHandler. rewrite Hrt.
    destruct (Settings.enabled cfg); [|discriminate]. cbn [negb].
    now destruct (_ || _). }
  destruct Hgates as [Hen Hmode]. apply orb_false_iff in Hmode as [Hoff Hso].
  split; [exact Hen|]. split; [exact Hoff|]. split; [exact Hso|].
  rewrite Hresult. cbv zeta. cbn [res_touched]. rewrite length_map. split.
  - destruct (dedup _ retrieved); [done | simpl; lia].
  - intros Hlimit.
    pose proof (length_dedup (collectExistingToolCallIds heap messages)
                             retrieved) as Hle.
    unfold Extension.retrieve, Store.search in Hretrieve.
    destruct (Store.embedQuery store _) as [queryVector|]; [|discriminate].
    cbn [mbind option_bind] in Hretrieve.
    destruct (Store.vectorSearch store _ _) as [rows|]; [|discriminate].
    cbn [mbind option_bind] in Hretrieve.
    destruct (Store.mapRows _ _ _) as [mapped|]; [|discriminate].
    cbn [mbind option_bind Store.limit] in Hretrieve.
    injection Hretrieve as <-.
    pose proof (length_arraySlice0 mapped _ Hlimit). lia.
Qed.

End WithCollaborators.

Lemma injection_requires_witness :
  let registry :=
    Extension.runEvents sampleParse sampleFormat ∅ eventsWithCompaction in
  let result :=
    Extension.contextHandler sampleParse sampleFormat registry
      (Some sampleSession) (Some Store.sampleBackend)
      sampleHeap sampleMessages in
  res_touched result = ["a"]
  /\ exists runtime cfg,
       getRuntime registry (Some sampleSession) = Some (runtime, cfg)
       /\ Settings.enabled cfg = true
       /\ JS.isStr (Settings.mode cfg) "off" = false
       /\ JS.isStr (Settings.mode cfg) "store-only" = false
       /\ (1 <= List.length (res_touched result))%nat
       /\ (0 <= Settings.maxResults (Settings.retrieval cfg) ->
           Z.of_nat (List.length (res_touched result))
           <= Settings.maxResults (Settings.retrieval cfg)).
Proof.
  split; [vm_compute; reflexivity|].
  apply (injection_requires sampleParse sampleFormat
           (Extension.runEvents sampleParse sampleFormat ∅ eventsWithCompaction)
           (Some sampleSession) (Some Store.sampleBackend)
           sampleHeap sampleMessages [0%nat; 1%nat; 3%nat]).
  vm_compute. reflexivity.
Defined.

End InjectionFacts.

(* ===================================================================== *)
(** * The built-in client: theorems                                       *)
(* ===================================================================== *)

Module BuiltinClientFacts.

Import Settings Summarizer.

Local Abbreviation L := list_ascii_of_string.

(** ** The matcher, step by step *)

Lemma stripPrefix_app (literal s : list ascii) :
  stripPrefix literal (literal ++ s) = Some s.
Proof.
  induction literal as [|c literal IH]; [reflexivity|].
  simpl. now rewrite Ascii.eqb_refl.
Qed.

Lemma matchHere_chars (literal : list ascii) (re : list Atom) (s : list ascii) :
  matchHere (Chars literal :: re) (literal ++ s)
  = match matchHere re s with
    | Some (matched, rest) => Some (literal ++ matched, rest)
    | None => None
    end.
Proof. cbn [matchHere]. now rewrite stripPrefix_app. Qed.

Lemma matchHere_chars_fail (c0 : ascii) (literal : list ascii)
    (re : list Atom) (c : ascii) (s : list ascii) :
  Ascii.eqb c0 c = false ->
  matchHere (Chars (c0 :: literal) :: re) (c :: s) = None.
Proof. intros H. cbn [matchHere stripPrefix]. now rewrite H. Qed.

Lemma matchHere_greedy_cons (class : ascii -> bool) (re : list Atom)
    (c : ascii) (s : list ascii) :
  matchHere (Greedy class :: re) (c :: s)
  = if class c then
      match matchHere (Greedy class :: re) s with
      | Some (matched, rest) => Some (c :: matched, rest)
      | None => matchHere re (c :: s)
      end
    else matchHere re (c :: s).
Proof. reflexivity. Qed.

Lemma matchHere_lazy_cons (class : ascii -> bool) (re : list Atom)
    (c : ascii) (s : list ascii) :
  matchHere (Lazy class :: re) (c :: s)
  = match matchHere re (c :: s) with
    | Some found => Some found
    | None =>
        if class c then
          match matchHere (Lazy class :: re) s with
          | Some (matched, rest) => Some (c :: matched, rest)
          | None => None
          end
        else None
    end.
Proof. reflexivity. Qed.

Lemma matchHere_greedy (class : ascii -> bool) (re : list Atom)
    (w s matched rest : list ascii) :
  Forall (fun c => class c = true) w ->
  match s with c :: _ => class c = false | [] => True end ->
  matchHere re s = Some (matched, rest) ->
  matchHere (Greedy class :: re) (w ++ s) = Some (w ++ matched, rest).
Proof.
  intros Hw Hstop Hre. induction Hw as [|c w Hc _ IH]; simpl app.
  - destruct s as [|c s]; [exact Hre|].
    now rewrite matchHere_greedy_cons, Hstop.
  - now rewrite matchHere_greedy_cons, Hc, IH.
Qed.

Lemma matchHere_lazy_here (class : ascii -> bool) (re : list Atom)
    (s : list ascii) (found : list ascii * list ascii) :
  matchHere re s = Some found ->
  matchHere (Lazy class :: re) s = Some found.
Proof.
  intros H. destruct s; [|now rewrite matchHere_lazy_cons, H].
  simpl. simpl in H. now rewrite H.
Qed.

Lemma matchHere_lazy_skip (literal : list ascii) (re : list Atom)
    (w s : list ascii) :
  startLacks literal w ->
  matchHere (Lazy anyCharacter :: Chars literal :: re) (w ++ s)
  = match matchHere (Lazy anyCharacter :: Chars literal :: re) s with
    | Some (matched, rest) => Some (w ++ matched, rest)
    | None => None
    end.
Proof.
  destruct literal as [|c0 literal]; [contradiction|]. cbn [startLacks].
  induction 1 as [|c w Hc _ IH]; simpl app.
  - now destruct (matchHere _ s) as [[m r]|].
  - rewrite matchHere_lazy_cons, matchHere_chars_fail by exact Hc.
    cbn [anyCharacter]. rewrite IH.
    now destruct (matchHere _ s) as [[m r]|].
Qed.

Lemma search_fail (re : list Atom) (c : ascii) (s : list ascii) :
  matchHere re (c :: s) = None ->
  search re (c :: s)
  = match search re s with
    | Some (before, matched, rest) => Some (c :: before, matched, rest)
    | None => None
    end.
Proof. intros H. simpl. simpl in H. now rewrite H. Qed.

Lemma search_found (re : list Atom) (s matched rest : list ascii) :
  matchHere re s = Some (matched, rest) ->
  search re s = Some ([], matched, rest).
Proof. intros H. destruct s; simpl; simpl in H; now rewrite H. Qed.

Lemma search_skip (literal : list ascii) (re : list Atom) (w s : list ascii) :
  startLacks literal w ->
  search (Chars literal :: re) (w ++ s)
  = match search (Chars literal :: re) s with
    | Some (before, matched, rest) => Some (w ++ before, matched, rest)
    | None => None
    end.
Proof.
  destruct literal as [|c0 literal]; [contradiction|]. cbn [startLacks].
  induction 1 as [|c w Hc _ IH]; simpl app.
  - now destruct (search _ s) as [[[b m] r]|].
  - rewrite search_fail by now apply matchHere_chars_fail.
    rewrite IH. now destruct (search _ s) as [[[b m] r]|].
Qed.

(** ** The expressions of [heuristicSummary] *)

Lemma notBacktick_lacks (w : list ascii) :
  lacks "`" w -> Forall (fun c => notBacktick c = true) w.
Proof.
  apply List.Forall_impl. intros c H. unfold notBacktick.
  now rewrite Ascii.eqb_sym, H.
Qed.

(** The section expression matches a heading, a fence, a body without
    backtick and the closing fence, and stops there. *)
Lemma resultSection_here (w body rest : list ascii) :
  lacks "`" w -> lacks "`" body ->
  matchHere resultSection (heading ++ w ++ fence ++ body ++ fence ++ rest)
  = Some (heading ++ w ++ fence ++ body ++ fence, rest).
Proof.
  intros Hw Hbody. unfold resultSection. fold heading fence.
  rewrite matchHere_chars.
  rewrite (matchHere_greedy notBacktick _ w _ (fence ++ body ++ fence) rest);
    [reflexivity | now apply notBacktick_lacks | reflexivity |].
  rewrite matchHere_chars.
  rewrite matchHere_lazy_skip by exact Hbody.
  rewrite (matchHere_lazy_here _ _ _ (fence, rest)); [reflexivity|].
  change fence with (fence ++ []) at 2.
  unfold fence at 1. now rewrite matchHere_chars.
Qed.

Lemma resultHeading_removed (w s : list ascii) :
  lacks "`" w ->
  removeFirst resultHeading (heading ++ w ++ fence ++ ascii_of_nat 10 :: s) = s.
Proof.
  intros Hw. unfold removeFirst.
  rewrite (search_found _ _ (heading ++ w ++ fence ++ [ascii_of_nat 10]) s);
    [reflexivity|].
  unfold resultHeading. fold heading fence. rewrite matchHere_chars.
  rewrite (matchHere_greedy notBacktick _ w _ (fence ++ [ascii_of_nat 10]) s);
    [reflexivity | now apply notBacktick_lacks | reflexivity |].
  now rewrite matchHere_chars.
Qed.

Lemma closingFence_removed (body : list ascii) :
  lacks "`" body -> removeFirst closingFence (body ++ fence) = body.
Proof.
  intros Hbody. unfold removeFirst, closingFence.
  fold fence. rewrite search_skip by exact Hbody.
  change (search _ fence) with (Some ([] : list ascii, fence, [] : list ascii)).
  cbv beta iota. now rewrite !app_nil_r.
Qed.

Lemma dropWhite_snoc (l : list ascii) (c : ascii) :
  JS.isWhite c = true ->
  JS.dropWhite (l ++ [c])
  = match JS.dropWhite l with [] => [] | d => d ++ [c] end.
Proof.
  intros Hc. induction l as [|c' l IH]; simpl; [now rewrite Hc|].
  destruct (JS.isWhite c'); [exact IH | reflexivity].
Qed.

Lemma trimList_snoc (l : list ascii) (c : ascii) :
  JS.isWhite c = true -> JS.trimList (l ++ [c]) = JS.trimList l.
Proof.
  intros Hc. unfold JS.trimList. rewrite dropWhite_snoc by exact Hc.
  destruct (JS.dropWhite l) as [|c' d]; [reflexivity|].
  rewrite rev_app_distr. simpl rev at 1. simpl app at 1.
  cbn [JS.dropWhite]. now rewrite Hc.
Qed.

Lemma trim_line (s : string) :
  JS.trim (string_of_list_ascii (L s ++ [ascii_of_nat 10])) = JS.trim s.
Proof.
  apply JSFacts.string_eq_by_list.
  rewrite !JSFacts.trim_as_list, list_ascii_of_string_of_list_ascii.
  now apply trimList_snoc.
Qed.

Section WithPlatform.

Variable stringify : JS.Value -> option string.

Local Abbreviation safeStringify := (Summarizer.safeStringify stringify).
Local Abbreviation buildSummaryPrompt :=
  (Summarizer.buildSummaryPrompt stringify).

(** In a prompt of the summarizer the section expression finds the result
    section, when neither the tool name nor the input holds a [#] and the
    content holds no backtick. *)
Lemma prompt_section (p : Params) (text : string) (maxChars : Z) :
  lacks "#" (L (toolName p)) ->
  lacks "#" (L (safeStringify (input p) 500)) ->
  lacks "`" (L (JS.slice0 text 2000)) ->
  exists before rest,
    search resultSection (L (buildSummaryPrompt p text maxChars))
    = Some (before,
            heading ++ L " (first 2000 chars)" ++ L JS.nl ++ fence
              ++ (L JS.nl ++ L (JS.slice0 text 2000) ++ L JS.nl) ++ fence,
            rest).
Proof.
  intros Hname Hinput Htext.
  set (top := L "Summarize the following tool execution result in 1-2 concise sentences."
              ++ L JS.nl ++ L JS.nl).
  set (info := L " Tool Information" ++ L JS.nl
               ++ L "- Name: " ++ L (toolName p) ++ L JS.nl
               ++ L "- Input: " ++ L (safeStringify (input p) 500) ++ L JS.nl
               ++ L "- Status: " ++ L (if isError p then "ERROR" else "SUCCESS")
               ++ L JS.nl ++ L JS.nl).
  set (section := heading ++ L " (first 2000 chars)" ++ L JS.nl ++ fence
              ++ (L JS.nl ++ L (JS.slice0 text 2000) ++ L JS.nl) ++ fence).
  assert (exists rest,
             L (buildSummaryPrompt p text maxChars)
             = top ++ "#"%char :: "#"%char :: info ++ section ++ rest)
    as [rest ->].
  { eexists. unfold Summarizer.buildSummaryPrompt, JS.join.
    cbn [String.concat]. rewrite !ContentFacts.list_append.
    subst top info section. unfold heading, fence.
    rewrite <- !app_assoc. cbn [list_ascii_of_string app JS.nl].
    repeat f_equal. }
  assert (lacks "#" top) as Htop by (subst top; repeat constructor).
  assert (lacks "#" info) as Hinfo.
  { subst info. unfold lacks. rewrite !Forall_app.
    repeat split; try assumption; try (repeat constructor).
    destruct (isError p); repeat constructor. }
  assert (matchHere resultSection (section ++ rest) = Some (section, rest))
    as Hsection.
  { pose proof (resultSection_here
                  (L " (first 2000 chars)" ++ L JS.nl)
                  (L JS.nl ++ L (JS.slice0 text 2000) ++ L JS.nl) rest) as H.
    subst section. rewrite <- !app_assoc in *. apply H.
    - repeat constructor.
    - unfold lacks. rewrite !Forall_app. repeat split; try assumption;
        repeat constructor. }
  unfold resultSection in *.
  rewrite search_skip by exact Htop.
  rewrite !search_fail by reflexivity.
  rewrite search_skip by exact Hinfo.
  rewrite (search_found _ _ _ _ Hsection). cbv beta iota. eauto.
Qed.

(** X29.  On a prompt of the summarizer, for a tool whose name and input hold no
    [#] and a result whose first 2000 characters hold no backtick, the
    built-in client answers from those characters alone: trimmed, their
    first three lines that are not blank joined by spaces and cut to the
    limit. *)
Theorem heuristicSummary_of_prompt
    (p : Params) (text : string) (maxChars : Z) (limit : option Z) :
  lacks "#" (L (toolName p)) ->
  lacks "#" (L (safeStringify (input p) 500)) ->
  lacks "`" (L (JS.slice0 text 2000)) ->
  heuristicSummary (buildSummaryPrompt p text maxChars) limit
  = firstLines (JS.trim (JS.slice0 text 2000)) (orDefault limit).
Proof.
  intros Hname Hinput Htext. unfold heuristicSummary.
  destruct (prompt_section p text maxChars Hname Hinput Htext)
    as (before & rest & ->).
  cbv beta iota zeta. f_equal.
  rewrite <- !app_assoc.
  change (L JS.nl ++ fence
            ++ L JS.nl ++ L (JS.slice0 text 2000) ++ L JS.nl ++ fence)
    with (L JS.nl ++ fence
            ++ ascii_of_nat 10 :: L (JS.slice0 text 2000) ++ L JS.nl ++ fence).
  rewrite (app_assoc (L " (first 2000 chars)")).
  rewrite resultHeading_removed by repeat constructor.
  rewrite (app_assoc (L (JS.slice0 text 2000))).
  rewrite closingFence_removed.
  - apply trim_line.
  - unfold lacks. rewrite Forall_app. split; [assumption | repeat constructor].
Qed.

End WithPlatform.

(** ** Answers of the client *)

Lemma orDefault_nonzero (maxChars : option Z) : orDefault maxChars <> 0.
Proof.
  unfold orDefault. destruct maxChars as [m|]; [|lia].
  destruct (Z.eqb_spec m 0); lia.
Qed.

Lemma orDefault_twice (maxChars : option Z) :
  orDefault (Some (orDefault maxChars)) = orDefault maxChars.
Proof.
  pose proof (orDefault_nonzero maxChars) as H.
  unfold orDefault at 1. now destruct (Z.eqb_spec (orDefault maxChars) 0).
Qed.

Lemma length_firstLines (result : string) (limit : Z) :
  0 <= limit -> JS.length (firstLines result limit) <= limit.
Proof.
  intros H. unfold firstLines.
  destruct (List.filter _ _); now apply JSFacts.length_slice0.
Qed.

Lemma length_heuristicSummary (prompt : string) (maxChars : option Z) :
  0 <= orDefault maxChars ->
  JS.length (heuristicSummary prompt maxChars) <= orDefault maxChars.
Proof.
  intros H. unfold heuristicSummary.
  destruct (search _ _) as [[[before resultMatch] rest]|].
  - now apply length_firstLines.
  - now apply JSFacts.length_slice0.
Qed.

(** X30.  The built-in client never rejects.  A batch gets one answer per
    prompt, the answer [generate] gives to that prompt alone, and for a
    requested length that is not negative every answer has at most that
    many characters, 200 when the requested length is 0. *)
Theorem createLLMClient_answers
    (prompts : list string) (options : GenerateOptions) :
  0 <= opt_maxChars options ->
  exists batch answers,
    generateBatch createLLMClient = Some batch
    /\ batch prompts options = Some answers
    /\ map Some answers
       = map (fun prompt => generate createLLMClient prompt options) prompts
    /\ Forall (fun answer =>
                 JS.length answer
                 <= if opt_maxChars options =? 0 then 200
                    else opt_maxChars options) answers.
Proof.
  intros Hmax.
  exists (fun prompts options =>
            Some (map (fun p => heuristicSummary p
                                  (Some (orDefault (Some (opt_maxChars options)))))
                      prompts)).
  eexists. split; [reflexivity|]. split; [reflexivity|]. split.
  - rewrite map_map. reflexivity.
  - apply Forall_map, Forall_forall. intros prompt _.
    pose proof (length_heuristicSummary prompt
                  (Some (orDefault (Some (opt_maxChars options))))) as H.
    rewrite orDefault_twice in H. cbn [orDefault] in H.
    apply H. destruct (Z.eqb_spec (opt_maxChars options) 0); lia.
Qed.

Lemma createLLMClient_answers_witness :
  exists batch answers,
    generateBatch createLLMClient = Some batch
    /\ batch ["no section here"; "## Result ```a```"]
             (generateOptions directConfig) = Some answers
    /\ map Some answers
       = map (fun prompt =>
                generate createLLMClient prompt (generateOptions directConfig))
             ["no section here"; "## Result ```a```"]
    /\ Forall (fun answer => JS.length answer <= 200) answers.
Proof.
  apply (createLLMClient_answers ["no section here"; "## Result ```a```"]
           (generateOptions directConfig)).
  vm_compute. discriminate.
Defined.

Lemma heuristicSummary_of_prompt_witness :
  heuristicSummary
    (Summarizer.buildSummaryPrompt (fun _ => Some "{}")
       (textResult "read" "a" 3) "done" 200) None
  = firstLines (JS.trim (JS.slice0 "done" 2000)) 200.
Proof.
  apply (heuristicSummary_of_prompt (fun _ => Some "{}")
           (textResult "read" "a" 3) "done" 200 None);
    vm_compute; repeat constructor.
Defined.

End BuiltinClientFacts.
